(** * Family bill tracker: status derivation, recurrence, autopay, calendar

    A shallow embedding of the bill engine of the family bill tracker: the
    store access layer ([Firestore]), the dashboard component ([App], and
    [AppEarlier] for the total its earlier source computes), the autopay
    effect as the framework runs it ([Effects]) and the calendar grid
    ([BillsCalendar]), with the properties of the engine stated and proved
    over it.

    JavaScript values are modelled as the code uses them:
    - a [Date] is a calendar day (year, month 0..11, day of month); the only
      time of day the code ever sees is that of "now", and every use of it
      goes through [startOfDay], [getFullYear], [getMonth] or [getDate];
    - [newDate] is the three-argument [Date] constructor, with its overflow
      rules and the two-digit-year rule;
    - a number is abstract ([JsNumber]): amounts are only ever added, tested
      with [Number.isInteger] and printed;
    - a string is the UTF-8 encoding of the JavaScript string, a character
      of [string] being one byte of it;
    - a store document is a finite map from field names to raw values;
    - code that awaits the store is a [Prog], a tree of requests and of the
      continuations that take their answers. *)

From Stdlib Require Import ZArith Lia List String Ascii Bool Sorted Permutation.
From stdpp Require Import base option list gmap strings.

Open Scope Z_scope.

(** ** JavaScript numbers *)

(** What the engine needs of a JavaScript number: the literal [0], [+],
    [Number.isInteger] (with the integer it denotes) and [toFixed(2)]. *)
Class JsNumber (Num : Type) := {
  num_zero : Num;
  num_add : Num -> Num -> Num;
  num_integer : Num -> option Z;
  num_toFixed2 : Num -> string
}.

(** The value of a comparator, or of a subtraction of two time stamps one of
    which may be [Number.POSITIVE_INFINITY]. *)
Inductive ExtNum :=
| Fin (z : Z)
| PosInf
| NegInf
| NaN.

Definition ext_sub (a b : ExtNum) : ExtNum :=
  match a, b with
  | Fin x, Fin y => Fin (x - y)
  | Fin _, PosInf => NegInf
  | Fin _, NegInf => PosInf
  | PosInf, Fin _ => PosInf
  | PosInf, NegInf => PosInf
  | NegInf, Fin _ => NegInf
  | NegInf, PosInf => NegInf
  | _, _ => NaN
  end.

(** [a !== b] on numbers: [NaN] differs from everything, itself included. *)
Definition ext_neq (a b : ExtNum) : bool :=
  match a, b with
  | Fin x, Fin y => negb (x =? y)
  | PosInf, PosInf => false
  | NegInf, NegInf => false
  | _, _ => true
  end.

(** [v > 0], the test [Array.prototype.sort] makes on a comparator's value
    (a [NaN] counts as [0]). *)
Definition ext_pos (v : ExtNum) : bool :=
  match v with
  | Fin z => 0 <? z
  | PosInf => true
  | _ => false
  end.

(** [a < b] on numbers. *)
Definition ext_lt (a b : ExtNum) : bool :=
  match a, b with
  | Fin x, Fin y => x <? y
  | Fin _, PosInf => true
  | NegInf, Fin _ => true
  | NegInf, PosInf => true
  | _, _ => false
  end.

(** ** JavaScript strings *)

Definition isDigit (c : ascii) : bool :=
  let n := Z.of_N (N_of_ascii c) in (48 <=? n) && (n <=? 57).

Definition digitValue (c : ascii) : Z := Z.of_N (N_of_ascii c) - 48.

Definition digitChar (d : Z) : ascii := ascii_of_N (Z.to_N (48 + d)).

(** The white space and line terminators that [String.prototype.trim],
    [Number.parseInt] and [Number] skip, by the length of their encoding.
    In one byte: TAB, LF, VT, FF, CR and SPACE. *)
Definition byteCode (c : ascii) : Z := Z.of_N (N_of_ascii c).

Definition oneByteWhiteSpace (c : ascii) : bool :=
  let n := byteCode c in ((9 <=? n) && (n <=? 13)) || (n =? 32).

(** In two bytes: U+00A0, the no-break space. *)
Definition twoByteWhiteSpace (c1 c2 : ascii) : bool :=
  (byteCode c1 =? 194) && (byteCode c2 =? 160).

(** In three bytes: U+1680; U+2000 to U+200A, U+2028, U+2029 and U+202F;
    U+205F; U+3000; and U+FEFF. *)
Definition threeByteWhiteSpace (c1 c2 c3 : ascii) : bool :=
  let a := byteCode c1 in
  let b := byteCode c2 in
  let c := byteCode c3 in
  ((a =? 225) && (b =? 154) && (c =? 128))
  || ((a =? 226) && (b =? 128)
      && (((128 <=? c) && (c <=? 138)) || (c =? 168) || (c =? 169) || (c =? 175)))
  || ((a =? 226) && (b =? 129) && (c =? 159))
  || ((a =? 227) && (b =? 128) && (c =? 128))
  || ((a =? 239) && (b =? 187) && (c =? 191)).

(** The text after its first character, when that is white space. *)
Definition afterWhiteSpace (s : string) : option string :=
  match s with
  | String c1 r1 =>
      if oneByteWhiteSpace c1 then Some r1
      else match r1 with
           | String c2 r2 =>
               if twoByteWhiteSpace c1 c2 then Some r2
               else match r2 with
                    | String c3 r3 => if threeByteWhiteSpace c1 c2 c3 then Some r3 else None
                    | EmptyString => None
                    end
           | EmptyString => None
           end
  | EmptyString => None
  end.

Fixpoint trimStart (s : string) : string :=
  match s with
  | String c1 r1 =>
      if oneByteWhiteSpace c1 then trimStart r1
      else match r1 with
           | String c2 r2 =>
               if twoByteWhiteSpace c1 c2 then trimStart r2
               else match r2 with
                    | String c3 r3 =>
                        if threeByteWhiteSpace c1 c2 c3 then trimStart r3 else s
                    | EmptyString => s
                    end
           | EmptyString => s
           end
  | EmptyString => EmptyString
  end.

(** A text made of white space only. *)
Definition allWhiteSpace (s : string) : bool :=
  match trimStart s with
  | EmptyString => true
  | String _ _ => false
  end.

(** The text without the white space that ends it: cut where what follows
    is white space only. *)
Fixpoint trimEnd (s : string) : string :=
  match s with
  | String c r => if allWhiteSpace s then EmptyString else String c (trimEnd r)
  | EmptyString => EmptyString
  end.

Definition trim (s : string) : string := trimEnd (trimStart s).

(** [s.split(sep)] for a one-character separator. *)
Fixpoint split (sep : ascii) (s : string) : list string :=
  match s with
  | EmptyString => [EmptyString]
  | String c r =>
      if Ascii.eqb c sep then EmptyString :: split sep r
      else match split sep r with
           | p :: ps => String c p :: ps
           | [] => [String c EmptyString]
           end
  end.

Fixpoint digitsValue (acc : Z) (s : string) : option Z :=
  match s with
  | EmptyString => Some acc
  | String c r => if isDigit c then digitsValue (10 * acc + digitValue c) r else None
  end.

(** [Number(s)] followed by [Number.isInteger], on the strings the engine
    converts: the pieces of a string that matched a digits-only pattern. A
    string with a character that is not a decimal digit has no integer value
    here. *)
Definition Number (s : string) : option Z := digitsValue 0 s.

Fixpoint digitsOf (fuel : nat) (n : Z) (acc : string) : string :=
  match fuel with
  | O => acc
  | S k =>
      let acc' := String (digitChar (n mod 10)) acc in
      if n <? 10 then acc' else digitsOf k (n / 10) acc'
  end.

(** [String(n)] for an integer [n]. *)
Definition numToString (n : Z) : string :=
  if n <? 0 then String "-" (digitsOf (S (Z.to_nat (Z.log2 (- n)))) (- n) EmptyString)
  else digitsOf (S (Z.to_nat (Z.log2 n))) n EmptyString.

(** [s.padStart(2, "0")]. *)
Definition padStart2 (s : string) : string :=
  match s with
  | EmptyString => "00"
  | String c EmptyString => String "0" s
  | _ => s
  end.

(** ** JavaScript dates *)

Module JsDate.

Record Date := mkDate { getFullYear : Z; getMonth : Z; getDate : Z }.

Definition isLeapYear (y : Z) : bool :=
  ((y mod 4 =? 0) && negb (y mod 100 =? 0)) || (y mod 400 =? 0).

(** Days of month [m] (0 = January) of year [y]. *)
Definition daysInMonth (y m : Z) : Z :=
  if m =? 1 then (if isLeapYear y then 29 else 28)
  else if (m =? 3) || (m =? 5) || (m =? 8) || (m =? 10) then 30
  else 31.

Definition prevMonth (y m : Z) : Z * Z := if m =? 0 then (y - 1, 11) else (y, m - 1).
Definition nextMonth (y m : Z) : Z * Z := if m =? 11 then (y + 1, 0) else (y, m + 1).

(** Carry a day of month that lies outside its month into the months
    before or after. *)
Fixpoint rollDay (fuel : nat) (y m d : Z) : Date :=
  match fuel with
  | O => mkDate y m d
  | S k =>
      if d <? 1 then
        let '(y', m') := prevMonth y m in rollDay k y' m' (d + daysInMonth y' m')
      else if daysInMonth y m <? d then
        let '(y', m') := nextMonth y m in rollDay k y' m' (d - daysInMonth y m)
      else mkDate y m d
  end.

(** A year from 0 to 99 given to the constructor means 1900 + year. *)
Definition MakeFullYear (y : Z) : Z :=
  if (0 <=? y) && (y <=? 99) then 1900 + y else y.

(** [new Date(y, m, d)]: the month is carried into the year, then the day
    into the month. *)
Definition newDate (y m d : Z) : Date :=
  rollDay (S (Z.abs_nat d)) (MakeFullYear y + m / 12) (m mod 12) d.

(** Day number of 1 January of year [y], counted from 1 January 1970. *)
Definition DayFromYear (y : Z) : Z :=
  365 * (y - 1970) + (y - 1969) / 4 - (y - 1901) / 100 + (y - 1601) / 400.

(** Days of year [y] before month [m]. *)
Definition daysBeforeMonth (y m : Z) : Z :=
  let leap := if isLeapYear y then 1 else 0 in
  if m <=? 0 then 0
  else if m =? 1 then 31
  else if m =? 2 then 59 + leap
  else if m =? 3 then 90 + leap
  else if m =? 4 then 120 + leap
  else if m =? 5 then 151 + leap
  else if m =? 6 then 181 + leap
  else if m =? 7 then 212 + leap
  else if m =? 8 then 243 + leap
  else if m =? 9 then 273 + leap
  else if m =? 10 then 304 + leap
  else 334 + leap.

Definition Day (t : Date) : Z :=
  DayFromYear (getFullYear t) + daysBeforeMonth (getFullYear t) (getMonth t) + getDate t - 1.

Definition msPerDay : Z := 86400000.

(** [t.getTime()] of a date at midnight. *)
Definition getTime (t : Date) : Z := msPerDay * Day t.

(** A date as a [Date] object holds it. *)
Definition validDate (t : Date) : Prop :=
  0 <= getMonth t <= 11 /\ 1 <= getDate t <= daysInMonth (getFullYear t) (getMonth t).

End JsDate.

Import JsDate.

(** [const startOfDay = (date) => new Date(date.getFullYear(), date.getMonth(),
    date.getDate())], the same in the dashboard and in the calendar. *)
Definition startOfDay (date : Date) : Date :=
  newDate (getFullYear date) (getMonth date) (getDate date).

(** The pattern [/^\d{4}-\d{2}-\d{2}$/]. *)
Definition matchesDatePattern (s : string) : bool :=
  match s with
  | String y1 (String y2 (String y3 (String y4 (String h1
      (String m1 (String m2 (String h2 (String d1 (String d2 EmptyString))))))))) =>
      isDigit y1 && isDigit y2 && isDigit y3 && isDigit y4 && Ascii.eqb h1 "-"
      && isDigit m1 && isDigit m2 && Ascii.eqb h2 "-" && isDigit d1 && isDigit d2
  | _ => false
  end.

(** [parseYYYYMMDD], the same in the dashboard and in the calendar: the
    pattern, the three numbers, the date built from them and the comparison
    of that date with the numbers. *)
Definition parseYYYYMMDD (value : string) : option Date :=
  if negb (matchesDatePattern value) then None
  else
    match map Number (split "-" value) with
    | [Some year; Some month; Some day] =>
        let parsed := newDate year (month - 1) day in
        if negb (getFullYear parsed =? year)
           || negb (getMonth parsed =? month - 1)
           || negb (getDate parsed =? day)
        then None
        else Some parsed
    | _ => None
    end.

(** [`${date.getFullYear()}-${String(date.getMonth() + 1).padStart(2, "0")}`]. *)
Definition getYYYYMM (date : Date) : string :=
  numToString (getFullYear date) ++ "-" ++ padStart2 (numToString (getMonth date + 1)).

(** ** The store and the programs that talk to it *)

(** A raw field value of a store document. *)
Inductive JsValue (Num : Type) :=
| JUndefined
| JNull
| JBool (b : bool)
| JNum (n : Num)
| JStr (s : string)
| JServerTimestamp
| JObject.

Arguments JUndefined {Num}.
Arguments JNull {Num}.
Arguments JBool {Num} b.
Arguments JNum {Num} n.
Arguments JStr {Num} s.
Arguments JServerTimestamp {Num}.
Arguments JObject {Num}.

(** [v === lit] for a string literal [lit]. *)
Definition isStr {Num} (v : JsValue Num) (lit : string) : bool :=
  match v with
  | JStr s => String.eqb s lit
  | _ => false
  end.

(** [doc(db, "families", familyId, "bills", billId)]. *)
Record BillRef := billRef { ref_family : string; ref_bill : string }.

(** What [getDoc] gives back: it throws, or yields a snapshot whose data is
    absent when the document does not exist. *)
Inductive GetReply (Num : Type) :=
| GetThrew
| Snapshot (data : option (gmap string (JsValue Num))).

Arguments GetThrew {Num}.
Arguments Snapshot {Num} data.

(** A computation of the application. It awaits the store ([GetDoc],
    [UpdateDoc], the latter continuing with [true] when the write resolved
    and with [false] when it was rejected), reads the [cancelled] flag of the
    effect it runs in ([ReadCancelled]), which the clean-up of that effect may
    have set during an earlier await, and tests and extends the set of keys
    held in [autopayProcessedKeysRef], one set shared by all the passes of
    the autopay effect ([HasKey], [AddKey]). *)
Inductive Prog (Num R : Type) :=
| Ret (r : R)
| GetDoc (ref : BillRef) (k : GetReply Num -> Prog Num R)
| UpdateDoc (ref : BillRef) (fields : gmap string (JsValue Num)) (k : bool -> Prog Num R)
| ReadCancelled (k : bool -> Prog Num R)
| HasKey (key : string) (k : bool -> Prog Num R)
| AddKey (key : string) (k : Prog Num R).

Arguments Ret {Num R} r.
Arguments GetDoc {Num R} ref k.
Arguments UpdateDoc {Num R} ref fields k.
Arguments ReadCancelled {Num R} k.
Arguments HasKey {Num R} key k.
Arguments AddKey {Num R} key k.

Fixpoint bind {Num A B : Type} (m : Prog Num A) (f : A -> Prog Num B) : Prog Num B :=
  match m with
  | Ret a => f a
  | GetDoc ref k => GetDoc ref (fun r => bind (k r) f)
  | UpdateDoc ref fields k => UpdateDoc ref fields (fun ok => bind (k ok) f)
  | ReadCancelled k => ReadCancelled (fun c => bind (k c) f)
  | HasKey key k => HasKey key (fun present => bind (k present) f)
  | AddKey key k => AddKey key (bind k f)
  end.

#[global] Instance Prog_ret {Num} : MRet (Prog Num) := fun _ r => Ret r.
#[global] Instance Prog_bind {Num} : MBind (Prog Num) := fun _ _ f m => bind m f.

Definition getDoc {Num} (ref : BillRef) : Prog Num (GetReply Num) := GetDoc ref Ret.
Definition updateDoc {Num} (ref : BillRef) (fields : gmap string (JsValue Num)) : Prog Num bool :=
  UpdateDoc ref fields Ret.
Definition readCancelled {Num} : Prog Num bool := ReadCancelled Ret.
Definition hasKey {Num} (key : string) : Prog Num bool := HasKey key Ret.
Definition addKey {Num} (key : string) : Prog Num unit := AddKey key (Ret tt).

(** The world outside: a state and the answers it gives. *)
Record Handler (Num W : Type) := {
  on_getDoc : W -> BillRef -> W * GetReply Num;
  on_updateDoc : W -> BillRef -> gmap string (JsValue Num) -> W * bool;
  on_readCancelled : W -> W * bool
}.

Arguments on_getDoc {Num W} h w ref.
Arguments on_updateDoc {Num W} h w ref fields.
Arguments on_readCancelled {Num W} h w.

(** A write request as the store receives it. *)
Record UpdateRequest (Num : Type) := updateRequest {
  req_ref : BillRef;
  req_fields : gmap string (JsValue Num)
}.

Arguments updateRequest {Num} req_ref req_fields.
Arguments req_ref {Num} u.
Arguments req_fields {Num} u.

(** Run a computation to its end against a world, every await answered
    before anything else happens: the result, the processed keys and the
    world left behind, and the write requests issued, in order. *)
Fixpoint run {Num W R : Type} (h : Handler Num W) (m : Prog Num R) (st : gset string * W)
  : R * (gset string * W) * list (UpdateRequest Num) :=
  match m with
  | Ret r => (r, st, [])
  | GetDoc ref k =>
      let '(w', reply) := on_getDoc h (snd st) ref in run h (k reply) (fst st, w')
  | UpdateDoc ref fields k =>
      let '(w', ok) := on_updateDoc h (snd st) ref fields in
      let '(r, st', log) := run h (k ok) (fst st, w') in
      (r, st', updateRequest ref fields :: log)
  | ReadCancelled k =>
      let '(w', c) := on_readCancelled h (snd st) in run h (k c) (fst st, w')
  | HasKey key k => run h (k (bool_decide (key ∈ fst st))) st
  | AddKey key k => run h k ({[key]} ∪ fst st, snd st)
  end.

(** ** The store access layer *)

Module Firestore.

Inductive BillStatus := unpaid | paid.

(** ["monthly"], or [null] for a one-time bill. *)
Inductive BillRecurrence := monthly | oneTime.

Definition BillStatus_eqb (a b : BillStatus) : bool :=
  match a, b with
  | unpaid, unpaid => true
  | paid, paid => true
  | _, _ => false
  end.

(** Modelled from the spec: the declaration of [BillListItem] that the
    dashboard with autopay imports is missing from the sources. This is the
    record the store layer declares ([id], [name], [amount], [dueDate],
    [status], [recurrence], [dayOfMonth], [paidForMonth]) with the [autopay]
    flag of the spec's data model, [true] exactly when the field is the
    boolean [true]. *)
Record BillListItem (Num : Type) := {
  id : string;
  name : string;
  amount : Num;
  dueDate : option string;
  status : BillStatus;
  recurrence : BillRecurrence;
  dayOfMonth : option Num;
  paidForMonth : option string;
  autopay : bool
}.

Arguments id {Num} b.
Arguments name {Num} b.
Arguments amount {Num} b.
Arguments dueDate {Num} b.
Arguments status {Num} b.
Arguments recurrence {Num} b.
Arguments dayOfMonth {Num} b.
Arguments paidForMonth {Num} b.
Arguments autopay {Num} b.

Section WithNumbers.
Context {Num : Type} {numOps : JsNumber Num}.

(** [data?.field]. *)
Definition field (data : gmap string (JsValue Num)) (k : string) : JsValue Num :=
  default JUndefined (data !! k).

Definition statusValue (s : BillStatus) : JsValue Num :=
  match s with
  | paid => JStr "paid"
  | unpaid => JStr "unpaid"
  end.

Definition getCurrentYYYYMM (date : Date) : string :=
  numToString (getFullYear date) ++ "-" ++ padStart2 (numToString (getMonth date + 1)).

(** [options?.currentYYYYMM?.trim() || getCurrentYYYYMM()]. *)
Definition effectivePeriod (now : Date) (currentYYYYMM : option string) : string :=
  match currentYYYYMM with
  | Some p => match trim p with
              | EmptyString => getCurrentYYYYMM now
              | t => t
              end
  | None => getCurrentYYYYMM now
  end.

(** [toggleBillStatus(familyId, billId, nextStatus, options)]; the result
    is [true] when the returned promise resolves. [optRecurrence] is
    [options?.recurrence] and [optYYYYMM] is [options?.currentYYYYMM]. *)
Definition toggleBillStatus (now : Date) (familyId billId : string) (nextStatus : BillStatus)
    (optRecurrence : BillRecurrence) (optYYYYMM : option string) : Prog Num bool :=
  let ref := billRef familyId billId in
  let write (recurrence : BillRecurrence) : Prog Num bool :=
    match recurrence with
    | monthly =>
        let currentYYYYMM := effectivePeriod now optYYYYMM in
        updateDoc ref
          (<["paidForMonth" := match nextStatus with paid => JStr currentYYYYMM | unpaid => JNull end]>
           (<["status" := statusValue nextStatus]>
            (<["updatedAt" := JServerTimestamp]> ∅)))
    | oneTime =>
        updateDoc ref
          (<["status" := statusValue nextStatus]>
           (<["updatedAt" := JServerTimestamp]> ∅))
    end in
  match optRecurrence with
  | monthly => write monthly
  | oneTime =>
      billSnap ← getDoc ref;
      match billSnap with
      | GetThrew => Ret false
      | Snapshot (Some billData) =>
          write (if isStr (field billData "recurrence") "monthly" then monthly else oneTime)
      | Snapshot None => write oneTime
      end
  end.

(** The body of the [snap.docs.map] of [listenToBills]: one list item
    from a document's id and raw data. The object it builds has no
    [autopay] field, which reads as not [true]. *)
Definition listenToBills_item (docId : string) (data : gmap string (JsValue Num))
  : BillListItem Num :=
  let rawName := field data "name" in
  let rawAmount := field data "amount" in
  let rawDueDate := field data "dueDate" in
  let rawStatus := field data "status" in
  let rawRecurrence := field data "recurrence" in
  let rawDayOfMonth := field data "dayOfMonth" in
  let rawPaidForMonth := field data "paidForMonth" in
  let status := if isStr rawStatus "paid" then paid else unpaid in
  let recurrence := if isStr rawRecurrence "monthly" then monthly else oneTime in
  let dayOfMonth :=
    match rawDayOfMonth with
    | JNum n => match num_integer n with
                | Some z => if (1 <=? z) && (z <=? 31) then Some n else None
                | None => None
                end
    | _ => None
    end in
  let paidForMonth := match rawPaidForMonth with JStr s => Some s | _ => None end in
  {| id := docId;
     name := match rawName with JStr s => s | _ => EmptyString end;
     amount := match rawAmount with JNum n => n | _ => num_zero end;
     dueDate := match rawDueDate with JStr s => Some s | _ => None end;
     status := status;
     recurrence := recurrence;
     dayOfMonth := dayOfMonth;
     paidForMonth := paidForMonth;
     autopay := false |}.

(** What the snapshot listener hands to [onChange]: the documents of the
    query, in its order, each turned into a list item. *)
Definition listenToBills (docs : list (string * gmap string (JsValue Num)))
  : list (BillListItem Num) :=
  map (fun billDoc => listenToBills_item (fst billDoc) (snd billDoc)) docs.

End WithNumbers.

End Firestore.

Import Firestore.

(** ["paid" | "unpaid" | "overdue"], the status of a calendar chip. *)
Inductive ChipStatus := chipPaid | chipUnpaid | chipOverdue.

(** [!!s] for a string or [null]: a missing or empty string is falsy. *)
Definition truthy (s : option string) : bool :=
  match s with
  | Some EmptyString => false
  | Some _ => true
  | None => false
  end.

(** [a === p] for a string or [null] against a string. *)
Definition strictEq (a : option string) (p : string) : bool :=
  match a with
  | Some s => String.eqb s p
  | None => false
  end.

(** [Array.prototype.sort] on a list: stable insertion, an element moving
    behind another exactly when the comparator is positive on them. The
    language requires the sort to be stable, so for a comparator that is
    consistent every engine returns this list. *)
Fixpoint insertSorted {A : Type} (cmp : A -> A -> ExtNum) (x : A) (l : list A) : list A :=
  match l with
  | [] => [x]
  | y :: r => if ext_pos (cmp x y) then y :: insertSorted cmp x r else x :: l
  end.

Fixpoint sort {A : Type} (cmp : A -> A -> ExtNum) (l : list A) : list A :=
  match l with
  | [] => []
  | x :: r => insertSorted cmp x (sort cmp r)
  end.

(** ** The dashboard *)

Module App.

(** The three totals the dashboard accumulates in one pass. *)
Record Totals (Num : Type) := {
  dueThisMonthTotal : Num;
  paidThisMonthTotal : Num;
  overdueTotal : Num
}.

Arguments dueThisMonthTotal {Num} t.
Arguments paidThisMonthTotal {Num} t.
Arguments overdueTotal {Num} t.

(** The [context] argument of the toggle handler. *)
Record ToggleContext := {
  viewedYYYYMM : option string;
  currentStatus : option ChipStatus
}.

Section Dashboard.
Context {Num : Type} {numOps : JsNumber Num}.
Variable localeCompare : string -> string -> Z.

Definition nowMonth (now : Date) : Z := getMonth now.
Definition nowYear (now : Date) : Z := getFullYear now.

Definition currentYYYYMM (now : Date) : string :=
  numToString (nowYear now) ++ "-" ++ padStart2 (numToString (nowMonth now + 1)).

(** [getDerivedStatus], with the period it closes over as an argument. *)
Definition getDerivedStatus (currentYYYYMM : string) (bill : BillListItem Num) : BillStatus :=
  match recurrence bill with
  | monthly => if strictEq (paidForMonth bill) currentYYYYMM then paid else unpaid
  | oneTime => status bill
  end.

Definition parseOneTimeDueDate (dueDate : option string) : ExtNum :=
  if negb (truthy dueDate) then PosInf
  else match dueDate with
       | Some s => match parseYYYYMMDD s with
                   | None => PosInf
                   | Some dt => Fin (getTime dt)
                   end
       | None => PosInf
       end.

Definition getRecurringDueDateInCurrentMonth (now : Date) (dayOfMonth : option Num)
  : option Date :=
  match dayOfMonth with
  | Some n =>
      match num_integer n with
      | Some d =>
          let lastDay := getDate (newDate (nowYear now) (nowMonth now + 1) 0) in
          let clampedDay := Z.min (Z.max d 1) lastDay in
          Some (newDate (nowYear now) (nowMonth now) clampedDay)
      | None => None
      end
  | None => None
  end.

Definition todayStart (now : Date) : Date := startOfDay now.

(** The due date [isOverdue] resolves for a bill. *)
Definition resolvedDueDate (now : Date) (bill : BillListItem Num) : option Date :=
  match recurrence bill with
  | monthly => getRecurringDueDateInCurrentMonth now (dayOfMonth bill)
  | oneTime =>
      if truthy (dueDate bill)
      then match dueDate bill with Some s => parseYYYYMMDD s | None => None end
      else None
  end.

Definition isOverdue (now : Date) (bill : BillListItem Num) : bool :=
  if negb (BillStatus_eqb (getDerivedStatus (currentYYYYMM now) bill) unpaid) then false
  else
    match resolvedDueDate now bill with
    | None => false
    | Some dueDate => getTime (startOfDay dueDate) <? getTime (todayStart now)
    end.

(** The time stamp the comparator of [sortedBills] gives a bill. *)
Definition dueOf (now : Date) (a : BillListItem Num) : ExtNum :=
  match recurrence a with
  | monthly =>
      match getRecurringDueDateInCurrentMonth now (dayOfMonth a) with
      | Some dt => Fin (getTime dt)
      | None => PosInf
      end
  | oneTime => parseOneTimeDueDate (dueDate a)
  end.

Definition statusOrder (now : Date) (a : BillListItem Num) : Z :=
  if BillStatus_eqb (getDerivedStatus (currentYYYYMM now) a) unpaid then 0 else 1.

Definition compareBills (now : Date) (a b : BillListItem Num) : ExtNum :=
  let statusOrderA := statusOrder now a in
  let statusOrderB := statusOrder now b in
  if negb (statusOrderA =? statusOrderB) then Fin (statusOrderA - statusOrderB)
  else
    let dueA := dueOf now a in
    let dueB := dueOf now b in
    if ext_neq dueA dueB then ext_sub dueA dueB
    else Fin (localeCompare (name a) (name b)).

Definition sortedBills (now : Date) (bills : list (BillListItem Num))
  : list (BillListItem Num) :=
  sort (compareBills now) bills.

(** The callback of the [bills.reduce] that computes the totals. *)
Definition totalsStep (now : Date) (totals : Totals Num) (bill : BillListItem Num)
  : Totals Num :=
  let isRecurring := match recurrence bill with monthly => true | oneTime => false end in
  let recurringDueDate :=
    if isRecurring then getRecurringDueDateInCurrentMonth now (dayOfMonth bill) else None in
  let oneTimeDueDate :=
    if negb isRecurring && truthy (dueDate bill)
    then match dueDate bill with Some s => parseYYYYMMDD s | None => None end
    else None in
  let oneTimeIsCurrentMonth :=
    match oneTimeDueDate with
    | Some dt => (getMonth dt =? nowMonth now) && (getFullYear dt =? nowYear now)
    | None => false
    end in
  let due1 :=
    if isRecurring then
      match recurringDueDate with
      | Some _ => num_add (dueThisMonthTotal totals) (amount bill)
      | None => dueThisMonthTotal totals
      end
    else if oneTimeIsCurrentMonth then num_add (dueThisMonthTotal totals) (amount bill)
    else dueThisMonthTotal totals in
  let paid1 :=
    if isRecurring then
      if strictEq (paidForMonth bill) (currentYYYYMM now)
      then num_add (paidThisMonthTotal totals) (amount bill)
      else paidThisMonthTotal totals
    else if oneTimeIsCurrentMonth then
      match status bill with
      | paid => num_add (paidThisMonthTotal totals) (amount bill)
      | unpaid => paidThisMonthTotal totals
      end
    else paidThisMonthTotal totals in
  let overdue1 :=
    if isOverdue now bill then num_add (overdueTotal totals) (amount bill)
    else overdueTotal totals in
  {| dueThisMonthTotal := due1; paidThisMonthTotal := paid1; overdueTotal := overdue1 |}.

Definition totals (now : Date) (bills : list (BillListItem Num)) : Totals Num :=
  fold_left (totalsStep now) bills
    {| dueThisMonthTotal := num_zero; paidThisMonthTotal := num_zero;
       overdueTotal := num_zero |}.

(** The keys of [autopayProcessedKeysRef]. *)
Definition recurringKey (now : Date) (bill : BillListItem Num) : string :=
  id bill ++ ":" ++ currentYYYYMM now.

Definition oneTimeKey (bill : BillListItem Num) : string :=
  id bill ++ ":" ++ default EmptyString (dueDate bill).

(** The loop of [runAutopay] over the bills still to visit. *)
Fixpoint runAutopay (now : Date) (familyId : string) (bills : list (BillListItem Num))
  : Prog Num unit :=
  match bills with
  | [] => Ret tt
  | bill :: rest =>
      cancelled ← readCancelled;
      if cancelled : bool then Ret tt
      else if negb (autopay bill) then runAutopay now familyId rest
      else
        match recurrence bill with
        | monthly =>
            if strictEq (paidForMonth bill) (currentYYYYMM now)
            then runAutopay now familyId rest
            else
              match getRecurringDueDateInCurrentMonth now (dayOfMonth bill) with
              | None => runAutopay now familyId rest
              | Some recurringDueDate =>
                  if getTime (startOfDay recurringDueDate) >? getTime (todayStart now)
                  then runAutopay now familyId rest
                  else
                    let recurringKey := recurringKey now bill in
                    processed ← hasKey recurringKey;
                    if processed : bool then runAutopay now familyId rest
                    else
                      _ ← updateDoc (billRef familyId (id bill))
                            (<["paidForMonth" := JStr (currentYYYYMM now)]>
                             (<["updatedAt" := JServerTimestamp]> ∅));
                      _ ← addKey recurringKey;
                      runAutopay now familyId rest
              end
        | oneTime =>
            if BillStatus_eqb (status bill) paid || negb (truthy (dueDate bill))
            then runAutopay now familyId rest
            else
              match (match dueDate bill with Some s => parseYYYYMMDD s | None => None end) with
              | None => runAutopay now familyId rest
              | Some oneTimeDueDate =>
                  if getTime (startOfDay oneTimeDueDate) >? getTime (todayStart now)
                  then runAutopay now familyId rest
                  else
                    let oneTimeKey := oneTimeKey bill in
                    processed ← hasKey oneTimeKey;
                    if processed : bool then runAutopay now familyId rest
                    else
                      _ ← updateDoc (billRef familyId (id bill))
                            (<["status" := JStr "paid"]>
                             (<["updatedAt" := JServerTimestamp]> ∅));
                      _ ← addKey oneTimeKey;
                      runAutopay now familyId rest
              end
        end
  end.

(** The autopay effect, run whenever [familyId] or [bills] changes. *)
Definition autopayEffect (now : Date) (familyId : option string)
    (bills : list (BillListItem Num)) : Prog Num unit :=
  if negb (truthy familyId) || (length bills =? 0)%nat then Ret tt
  else runAutopay now (default EmptyString familyId) bills.

(** The effect on a change of [familyId]: the processed keys are cleared. *)
Definition resetEffect (processedKeys : gset string) : gset string := ∅.

(** Passes one after another: the effect run for each snapshot of the
    bill list in turn, each at its own "now" and each to its end before
    the next starts. *)
Fixpoint passesInTurn (familyId : option string)
    (scans : list (Date * list (BillListItem Num))) : Prog Num unit :=
  match scans with
  | [] => Ret tt
  | (now, bills) :: later =>
      _ ← autopayEffect now familyId bills;
      passesInTurn familyId later
  end.

(** [handleToggleBillStatusWithContext]: the status to set and the period
    to settle, then the store call; its failure is caught. The setters of
    the busy and error indicators are left out. *)
Definition handleToggleBillStatusWithContext (now : Date) (familyId : option string)
    (bill : BillListItem Num) (context : option ToggleContext) : Prog Num unit :=
  if negb (truthy familyId) then Ret tt
  else
    let currentIsPaid :=
      match context ≫= currentStatus with
      | Some chipPaid => true
      | Some _ => false
      | None => BillStatus_eqb (getDerivedStatus (currentYYYYMM now) bill) paid
      end in
    let nextStatus := if currentIsPaid then unpaid else paid in
    let effectiveYYYYMM :=
      match context ≫= viewedYYYYMM with
      | Some p => p
      | None => currentYYYYMM now
      end in
    _ ← toggleBillStatus now (default EmptyString familyId) (id bill) nextStatus
          (recurrence bill) (Some effectiveYYYYMM);
    Ret tt.

End Dashboard.

End App.

(** ** The autopay effect as the framework runs it *)

(** A pass of [runAutopay] is an [async] function started and not awaited:
    it runs up to its next [await] and is resumed when the awaited write
    settles. A change of [bills] re-runs the effect: the clean-up sets the
    [cancelled] flag of the pass started before, and a new pass starts, all
    on the one set of processed keys. *)
Module Effects.

(** What a suspended pass waits for. *)
Inductive Suspended (Num : Type) :=
| AwaitingWrite (k : bool -> Prog Num unit)
| AwaitingRead (k : GetReply Num -> Prog Num unit).

Arguments AwaitingWrite {Num} k.
Arguments AwaitingRead {Num} k.

Record Pass (Num : Type) := {
cancelled : bool;
waiting : Suspended Num
}.

Arguments cancelled {Num} p.
Arguments waiting {Num} p.

Record Session (Num : Type) := {
processedKeys : gset string;
inFlight : list (Pass Num);
issued : list (UpdateRequest Num)
}.

Arguments processedKeys {Num} s.
Arguments inFlight {Num} s.
Arguments issued {Num} s.

(** What can happen to the effect: the feed delivers a bill list (rendered
  at some "now"), or the write that the pass at some position in flight
  awaits resolves ([true]) or is rejected ([false]). *)
Inductive Happening (Num : Type) :=
| BillsChanged (now : Date) (bills : list (BillListItem Num))
| WriteSettled (i : nat) (ok : bool).

Arguments BillsChanged {Num} now bills.
Arguments WriteSettled {Num} i ok.

Section WithNumbers.
Context {Num : Type} {numOps : JsNumber Num}.

(** Run a pass up to its next await: the keys it leaves, the write it
issued, and what it now waits for, if it has not ended. *)
Fixpoint advance (cancelled : bool) (m : Prog Num unit) (keys : gset string)
: gset string * list (UpdateRequest Num) * option (Suspended Num) :=
match m with
| Ret _ => (keys, [], None)
| GetDoc ref k => (keys, [], Some (AwaitingRead k))
| UpdateDoc ref fields k => (keys, [updateRequest ref fields], Some (AwaitingWrite k))
| ReadCancelled k => advance cancelled (k cancelled) keys
| HasKey key k => advance cancelled (k (bool_decide (key ∈ keys))) keys
| AddKey key k => advance cancelled k ({[key]} ∪ keys)
end.

Definition cancelAll (passes : list (Pass Num)) : list (Pass Num) :=
map (fun p => {| cancelled := true; waiting := waiting p |}) passes.

Definition suspend (cancelled : bool) (next : option (Suspended Num)) : list (Pass Num) :=
match next with
| Some s => [{| cancelled := cancelled; waiting := s |}]
| None => []
end.

Definition step (familyId : option string) (s : Session Num) (e : Happening Num)
: Session Num :=
match e with
| BillsChanged now bills =>
  let '(keys, requests, next) :=
    advance false (App.autopayEffect now familyId bills) (processedKeys s) in
  {| processedKeys := keys;
     inFlight := cancelAll (inFlight s) ++ suspend false next;
     issued := issued s ++ requests |}
| WriteSettled i ok =>
  match inFlight s !! i with
  | Some {| cancelled := c; waiting := AwaitingWrite k |} =>
      let '(keys, requests, next) := advance c (k ok) (processedKeys s) in
      {| processedKeys := keys;
         inFlight := delete i (inFlight s) ++ suspend c next;
         issued := issued s ++ requests |}
  | _ => s
  end
end.

(** A session from the moment the family context is set. *)
Definition start : Session Num :=
{| processedKeys := ∅; inFlight := []; issued := [] |}.

Definition play (familyId : option string) (happenings : list (Happening Num)) : Session Num :=
fold_left (step familyId) happenings start.

End WithNumbers.

End Effects.

(** ** The dashboard before the totals were reworked *)

(** The earlier dashboard source has the same [getDerivedStatus], [isOverdue]
    and [sortedBills]; its [dueThisMonthTotal] is a fold of its own over the
    sorted bills. *)
Module AppEarlier.

Section Dashboard.
Context {Num : Type} {numOps : JsNumber Num}.
Variable localeCompare : string -> string -> Z.

Definition isDueThisMonth (now : Date) (dueDate : option string) : bool :=
  match dueDate with
  | Some s =>
      if negb (truthy dueDate) || negb (matchesDatePattern s) then false
      else
        match map Number (split "-" s) with
        | [Some y; Some m; Some d] =>
            let dt := newDate y (m - 1) d in
            if negb (getFullYear dt =? y) || negb (getMonth dt =? m - 1)
               || negb (getDate dt =? d)
            then false
            else (getMonth dt =? App.nowMonth now) && (getFullYear dt =? App.nowYear now)
        | _ => false
        end
  | None => false
  end.

Definition dueThisMonthTotal (now : Date) (bills : list (BillListItem Num)) : Num :=
  fold_left
    (fun total bill =>
       if negb (BillStatus_eqb (App.getDerivedStatus (App.currentYYYYMM now) bill) unpaid)
       then total
       else
         match recurrence bill with
         | monthly => num_add total (amount bill)
         | oneTime =>
             if isDueThisMonth now (dueDate bill) then num_add total (amount bill)
             else total
         end)
    (App.sortedBills localeCompare now bills) num_zero.

End Dashboard.

End AppEarlier.

(** ** The calendar grid *)

Module BillsCalendar.

Record CalendarEvent (Num : Type) := {
  billId : string;
  dayOfMonth : Z;
  status : ChipStatus;
  bill : BillListItem Num;
  name : string;
  amount : Num;
  label : string;
  sortTime : Z
}.

Arguments billId {Num} c.
Arguments dayOfMonth {Num} c.
Arguments status {Num} c.
Arguments bill {Num} c.
Arguments name {Num} c.
Arguments amount {Num} c.
Arguments label {Num} c.
Arguments sortTime {Num} c.

Section Calendar.
Context {Num : Type} {numOps : JsNumber Num}.
Variable localeCompare : string -> string -> Z.

Definition isMonthInFuture (viewYear viewMonth todayYear todayMonth : Z) : bool :=
  (viewYear >? todayYear) || ((viewYear =? todayYear) && (viewMonth >? todayMonth)).

Definition getRecurringDueDateInViewedMonth (year month : Z) (dayOfMonth : option Num)
  : option Date :=
  match dayOfMonth with
  | Some n =>
      match num_integer n with
      | Some d =>
          let lastDay := getDate (newDate year (month + 1) 0) in
          let clamped := Z.min (Z.max d 1) lastDay in
          Some (newDate year month clamped)
      | None => None
      end
  | None => None
  end.

(** [`${bill.name} • $${bill.amount.toFixed(2)}`]. *)
Definition labelOf (b : BillListItem Num) : string :=
  Firestore.name b ++ " • $" ++ num_toFixed2 (Firestore.amount b).

Definition chipOf (isPaid isOverdue : bool) : ChipStatus :=
  if isPaid then chipPaid else if isOverdue then chipOverdue else chipUnpaid.

(** The month shown first, and the two arrows of the header. *)
Definition initialView (now : Date) : Date := newDate (getFullYear now) (getMonth now) 1.
Definition previousView (prev : Date) : Date := newDate (getFullYear prev) (getMonth prev - 1) 1.
Definition nextView (prev : Date) : Date := newDate (getFullYear prev) (getMonth prev + 1) 1.

(** The event one bill contributes to the viewed month, if any: the body
    of the loop of [eventsByDay] up to the point where the event is
    stored. *)
Definition eventOf (now viewedMonthDate : Date) (b : BillListItem Num)
  : option (CalendarEvent Num) :=
  let today := startOfDay now in
  let viewedYear := getFullYear viewedMonthDate in
  let viewedMonth := getMonth viewedMonthDate in
  let viewedYYYYMM := getYYYYMM viewedMonthDate in
  let todayYear := getFullYear today in
  let todayMonth := getMonth today in
  match recurrence b with
  | monthly =>
      match getRecurringDueDateInViewedMonth viewedYear viewedMonth (Firestore.dayOfMonth b) with
      | None => None
      | Some recurringDueDate =>
          let isPaid := strictEq (paidForMonth b) viewedYYYYMM in
          let isFutureMonth := isMonthInFuture viewedYear viewedMonth todayYear todayMonth in
          let isOverdue :=
            negb isPaid && negb isFutureMonth
            && (getTime (startOfDay recurringDueDate) <? getTime today) in
          Some {| billId := id b;
                  dayOfMonth := getDate recurringDueDate;
                  status := chipOf isPaid isOverdue;
                  bill := b;
                  name := Firestore.name b;
                  amount := Firestore.amount b;
                  label := labelOf b;
                  sortTime := getTime recurringDueDate |}
      end
  | oneTime =>
      if negb (truthy (dueDate b)) then None
      else
        match (match dueDate b with Some s => parseYYYYMMDD s | None => None end) with
        | None => None
        | Some oneTimeDueDate =>
            if negb (getFullYear oneTimeDueDate =? viewedYear)
               || negb (getMonth oneTimeDueDate =? viewedMonth)
            then None
            else
              let isPaid := BillStatus_eqb (Firestore.status b) paid in
              let isOverdue :=
                negb isPaid && (getTime (startOfDay oneTimeDueDate) <? getTime today) in
              Some {| billId := id b;
                      dayOfMonth := getDate oneTimeDueDate;
                      status := chipOf isPaid isOverdue;
                      bill := b;
                      name := Firestore.name b;
                      amount := Firestore.amount b;
                      label := labelOf b;
                      sortTime := getTime oneTimeDueDate |}
        end
  end.

(** [events.get(day) ?? []], then [push] and [events.set]. *)
Definition addEvent (events : gmap Z (list (CalendarEvent Num))) (event : CalendarEvent Num)
  : gmap Z (list (CalendarEvent Num)) :=
  let existing := default [] (events !! dayOfMonth event) in
  <[dayOfMonth event := existing ++ [event]]> events.

Definition compareEvents (a b : CalendarEvent Num) : ExtNum :=
  if negb (sortTime a =? sortTime b) then Fin (sortTime a - sortTime b)
  else Fin (localeCompare (label a) (label b)).

(** [eventsByDay]: the events of every bill grouped by day, then each
    day's list sorted. *)
Definition eventsByDay (now viewedMonthDate : Date) (bills : list (BillListItem Num))
  : gmap Z (list (CalendarEvent Num)) :=
  let events :=
    fold_left
      (fun events b =>
         match eventOf now viewedMonthDate b with
         | Some event => addEvent events event
         | None => events
         end)
      bills ∅ in
  sort compareEvents <$> events.

(** What the handler of a chip's button passes on. *)
Definition onToggleContext (viewedMonthDate : Date) (event : CalendarEvent Num)
  : App.ToggleContext :=
  {| App.viewedYYYYMM := Some (getYYYYMM viewedMonthDate);
     App.currentStatus := Some (status event) |}.

End Calendar.

End BillsCalendar.

(** ** Two number types to run the engine on *)

(** Amounts in whole currency units. *)
#[global] Instance Z_JsNumber : JsNumber Z := {|
  num_zero := 0;
  num_add := Z.add;
  num_integer := Some;
  num_toFixed2 := fun z => (numToString z ++ ".00")%string
|}.

(** Amounts with two decimals, held in hundredths. *)
Record Hundredths := hundredths { inHundredths : Z }.

#[global] Instance Hundredths_JsNumber : JsNumber Hundredths := {|
  num_zero := hundredths 0;
  num_add := fun a b => hundredths (inHundredths a + inHundredths b);
  num_integer := fun a =>
    if inHundredths a mod 100 =? 0 then Some (inHundredths a / 100) else None;
  num_toFixed2 := fun a =>
    let v := Z.abs (inHundredths a) in
    let sign : string := if inHundredths a <? 0 then "-"%string else ""%string in
    let whole : string := numToString (v / 100) in
    let cents : string := padStart2 (numToString (v mod 100)) in
    (sign ++ whole ++ "." ++ cents)%string
|}.

(** A [localeCompare] to run the engine on: byte order. *)
Definition byteCompare (a b : string) : Z :=
  match String.compare a b with
  | Lt => -1
  | Eq => 0
  | Gt => 1
  end.

(** ** Vocabulary of the properties *)

(** The extra day of a leap year. *)
Definition leapDay (y : Z) : Z := if isLeapYear y then 1 else 0.

(** The text [YYYY-MM-DD] made of eight given characters. *)
Definition dateText (y1 y2 y3 y4 m1 m2 d1 d2 : ascii) : string :=
  String y1 (String y2 (String y3 (String y4 (String "-"
    (String m1 (String m2 (String "-" (String d1 (String d2 EmptyString))))))))).

(** A text of one-byte characters with no white space in it. *)
Fixpoint noWhiteSpace (s : string) : bool :=
  match s with
  | EmptyString => true
  | String c r => (byteCode c <? 128) && negb (oneByteWhiteSpace c) && noWhiteSpace r
  end.

(** The numbers four and two decimal digits stand for. *)
Definition number4 (a b c d : ascii) : Z :=
  1000 * digitValue a + 100 * digitValue b + 10 * digitValue c + digitValue d.

Definition number2 (a b : ascii) : Z := 10 * digitValue a + digitValue b.

(** ** Sample data *)

Module Samples.

Definition mkBill (id name : string) (amount : Z) (dueDate : option string)
    (status : BillStatus) (recurrence : BillRecurrence) (dayOfMonth : option Z)
    (paidForMonth : option string) (autopay : bool) : BillListItem Z :=
  {| id := id; name := name; amount := amount; dueDate := dueDate; status := status;
     recurrence := recurrence; dayOfMonth := dayOfMonth; paidForMonth := paidForMonth;
     autopay := autopay |}.

(** Monthly on the 31st, nothing settled. *)
Definition rent : BillListItem Z :=
  mkBill "b1" "Rent" 1200 None unpaid monthly (Some 31) None false.

(** Monthly on the 15th, settled for March 2024. *)
Definition power : BillListItem Z :=
  mkBill "b2" "Power" 80 None unpaid monthly (Some 15) (Some "2024-03") false.

(** One-time, due 5 March 2024, not paid. *)
Definition plumber : BillListItem Z :=
  mkBill "b3" "Plumber" 300 (Some "2024-03-05") unpaid oneTime None None false.

(** One-time with no due date. *)
Definition gift : BillListItem Z :=
  mkBill "b4" "Gift" 50 None unpaid oneTime None None false.

(** Monthly on the 1st with autopay, nothing settled. *)
Definition phone : BillListItem Z :=
  mkBill "b5" "Phone" 40 None unpaid monthly (Some 1) None true.

(** Monthly whose day of month the feed could not read. *)
Definition broken : BillListItem Z :=
  mkBill "b6" "Broken" 5 None unpaid monthly None None false.

(** One-time, due 20 June 2024, paid. *)
Definition course : BillListItem Z :=
  mkBill "b7" "Course" 90 (Some "2024-06-20") paid oneTime None None true.

Definition march10 : Date := mkDate 2024 2 10.
Definition april5 : Date := mkDate 2024 3 5.

End Samples.

Module SampleDocs.

(** A stored document whose fields are all out of shape. *)
Definition odd : gmap string (JsValue Hundredths) :=
  <["name" := JNum (hundredths 100)]>
  (<["amount" := JStr "12"]>
   (<["status" := JStr "PAID"]>
    (<["recurrence" := JStr "monthly"]>
     (<["dayOfMonth" := JNum (hundredths 150)]>
      (<["dueDate" := JBool true]> ∅))))).

(** A stored monthly bill on the 31st. *)
Definition rent : gmap string (JsValue Hundredths) :=
  <["name" := JStr "Rent"]>
  (<["amount" := JNum (hundredths 120050)]>
   (<["status" := JStr "unpaid"]>
    (<["recurrence" := JStr "monthly"]>
     (<["dayOfMonth" := JNum (hundredths 3100)]>
      (<["paidForMonth" := JNull]>
       (<["dueDate" := JNull]> ∅)))))).

Definition docs : list (string * gmap string (JsValue Hundredths)) :=
  [("d1"%string, odd); ("d2"%string, rent)].

End SampleDocs.

(** An in-memory store to run the programs on: the documents of one family
    by bill id. A write to a document that is not there is rejected, and no
    effect is ever cancelled. *)
Definition memoryStore {Num : Type}
  : Handler Num (gmap string (gmap string (JsValue Num))) := {|
  on_getDoc := fun w ref => (w, Snapshot (w !! ref_bill ref));
  on_updateDoc := fun w ref fields =>
    match w !! ref_bill ref with
    | Some data => (<[ref_bill ref := fields ∪ data]> w, true)
    | None => (w, false)
    end;
  on_readCancelled := fun w => (w, false)
|}.

(** The number of day cells of the grid: [new Date(viewedYear, viewedMonth + 1,
    0).getDate()]. *)
Definition gridDaysInMonth (viewedMonthDate : Date) : Z :=
  getDate (newDate (getFullYear viewedMonthDate) (getMonth viewedMonthDate + 1) 0).

(** The displayed month lies strictly after the month of today. *)
Definition laterMonth (view today : Date) : Prop :=
  getFullYear today < getFullYear view
  \/ (getFullYear today = getFullYear view /\ getMonth today < getMonth view).

(** The events that fall on day [d]. *)
Definition onDay {Num : Type} (d : Z) (e : BillsCalendar.CalendarEvent Num) : bool :=
  BillsCalendar.dayOfMonth e =? d.

Module MoreSamples.

(** One-time, due 20 April 2024, not paid. *)
Definition dentist : BillListItem Z :=
  Samples.mkBill "b8" "Dentist" 150 (Some "2024-04-20"%string) unpaid oneTime None None true.

Definition february2023 : Date := mkDate 2023 1 1.
Definition february2024 : Date := mkDate 2024 1 1.
Definition march2024 : Date := mkDate 2024 2 1.
Definition april2024 : Date := mkDate 2024 3 1.

End MoreSamples.

Section TotalsVocabulary.
Context {Num : Type} {numOps : JsNumber Num}.

(** The sum of the amounts of a list of bills, added up from [0] in the
    order of the list. *)
Definition sumAmounts (bills : list (BillListItem Num)) : Num :=
  fold_left (fun acc b => num_add acc (amount b)) bills num_zero.

(** A one-time bill whose parsed due date lies in the current month. *)
Definition oneTimeDueThisMonth (now : Date) (b : BillListItem Num) : bool :=
  match dueDate b with
  | Some s =>
      match parseYYYYMMDD s with
      | Some dt => (getMonth dt =? getMonth now) && (getFullYear dt =? getFullYear now)
      | None => false
      end
  | None => false
  end.

(** Due this month in the words of the spec: a monthly bill always, a
    one-time bill when its parsed due date lies in the current month. *)
Definition dueThisMonth_asStated (now : Date) (b : BillListItem Num) : bool :=
  match recurrence b with
  | monthly => true
  | oneTime => oneTimeDueThisMonth now b
  end.

(** Due this month as the totals count it: a monthly bill when its day of
    month is an integer, a one-time bill when its parsed due date lies in
    the current month. *)
Definition dueThisMonth (now : Date) (b : BillListItem Num) : bool :=
  match recurrence b with
  | monthly => match dayOfMonth b ≫= num_integer with Some _ => true | None => false end
  | oneTime => oneTimeDueThisMonth now b
  end.

(** Due this month as the earlier dashboard counts it: derived unpaid,
    and monthly or one-time with a parsed due date in the current month. *)
Definition dueThisMonthEarlier (now : Date) (b : BillListItem Num) : bool :=
  BillStatus_eqb (App.getDerivedStatus (App.currentYYYYMM now) b) unpaid
  && match recurrence b with
     | monthly => true
     | oneTime => oneTimeDueThisMonth now b
     end.

End TotalsVocabulary.

(** [a <= b] for time stamps that are finite or [+Infinity]. *)
Definition ext_le (a b : ExtNum) : Prop :=
  match a, b with
  | Fin x, Fin y => x <= y
  | Fin _, PosInf => True
  | PosInf, PosInf => True
  | _, _ => False
  end.

(** A comparison of names that orders them: what is after is not before,
    and "not after" is transitive. *)
Definition ordersNames (localeCompare : string -> string -> Z) : Prop :=
  (forall a b, 0 < localeCompare a b -> localeCompare b a <= 0)
  /\ (forall a b c, localeCompare a b <= 0 -> localeCompare b c <= 0 -> localeCompare a c <= 0).

Section SortVocabulary.
Context {Num : Type} {numOps : JsNumber Num}.

(** The order of the first two sort keys: unpaid before paid, then the due
    time stamp. *)
Definition keyOrder (now : Date) (a b : BillListItem Num) : Prop :=
  App.statusOrder now a < App.statusOrder now b
  \/ (App.statusOrder now a = App.statusOrder now b
      /\ ext_le (App.dueOf now a) (App.dueOf now b)).

(** The order of all three sort keys. *)
Definition fullOrder (localeCompare : string -> string -> Z) (now : Date)
    (a b : BillListItem Num) : Prop :=
  App.statusOrder now a < App.statusOrder now b
  \/ (App.statusOrder now a = App.statusOrder now b
      /\ (ext_lt (App.dueOf now a) (App.dueOf now b) = true
          \/ (App.dueOf now a = App.dueOf now b
              /\ localeCompare (name a) (name b) <= 0))).

End SortVocabulary.

Module SortSamples.

(** One-time with no due date, named after [Samples.gift] in byte order. *)
Definition loan : BillListItem Z :=
  Samples.mkBill "b9" "Loan" 700 None unpaid oneTime None None false.

Definition bills : list (BillListItem Z) :=
  [Samples.power; loan; Samples.gift; Samples.rent; Samples.plumber].

End SortSamples.

Section AutopayVocabulary.
Context {Num : Type} {numOps : JsNumber Num}.

(** A bill the scan is to settle: autopay is on, the derived status for
    the current period is unpaid, and the resolved due day is today or
    earlier. *)
Definition autopayDue (now : Date) (b : BillListItem Num) : bool :=
  autopay b
  && BillStatus_eqb (App.getDerivedStatus (App.currentYYYYMM now) b) unpaid
  && match App.resolvedDueDate now b with
     | Some due => negb (getTime (startOfDay due) >? getTime (App.todayStart now))
     | None => false
     end.

(** The key under which a bill is marked processed. *)
Definition autopayKey (now : Date) (b : BillListItem Num) : string :=
  match recurrence b with
  | monthly => App.recurringKey now b
  | oneTime => App.oneTimeKey b
  end.

(** The fields of the settlement write. *)
Definition settlementFields (now : Date) (b : BillListItem Num) : gmap string (JsValue Num) :=
  match recurrence b with
  | monthly =>
      <["paidForMonth" := JStr (App.currentYYYYMM now)]> (<["updatedAt" := JServerTimestamp]> ∅)
  | oneTime =>
      <["status" := JStr "paid"]> (<["updatedAt" := JServerTimestamp]> ∅)
  end.

(** The settlement write for a bill. *)
Definition settlement (now : Date) (familyId : string) (b : BillListItem Num)
  : UpdateRequest Num :=
  updateRequest (billRef familyId (id b)) (settlementFields now b).

(** A world that never cancels an effect. *)
Definition neverCancels {W : Type} (h : Handler Num W) : Prop :=
  forall w, snd (on_readCancelled h w) = false.

(** The bills of the scans of a session, each with the "now" of its scan. *)
Definition scanned (scans : list (Date * list (BillListItem Num)))
  : list (Date * BillListItem Num) :=
  flat_map (fun scan => map (fun b => (fst scan, b)) (snd scan)) scans.

End AutopayVocabulary.

Module AutopaySamples.

(** The stored document of [Samples.phone]. *)
Definition phoneDoc : gmap string (JsValue Z) :=
  <["name" := JStr "Phone"]>
  (<["amount" := JNum 40]>
   (<["status" := JStr "unpaid"]>
    (<["recurrence" := JStr "monthly"]>
     (<["dayOfMonth" := JNum 1]>
      (<["paidForMonth" := JNull]> ∅))))).

(** A store that holds the phone bill, and one that has lost it, so that
    every write to it is rejected. *)
Definition stored : gmap string (gmap string (JsValue Z)) := {[ "b5"%string := phoneDoc ]}.
Definition lost : gmap string (gmap string (JsValue Z)) := ∅.

End AutopaySamples.


(** ** The cells of the calendar grid *)

(** The part of the calendar component that lays the month out: the blank
    cells before the first day, the day cells, the blank cells that fill the
    last week, and what a cell shows of the events of its day. *)
Module BillsCalendarGrid.

Definition DOW_LABELS : list string :=
  ["Sun"; "Mon"; "Tue"; "Wed"; "Thu"; "Fri"; "Sat"]%string.

(** [date.getDay()]: 0 is Sunday, and 1 January 1970 was a Thursday. *)
Definition getDay (t : Date) : Z := (Day t + 4) mod 7.

(** [Math.ceil(a / b)] for integers [a] and [b] with [b] positive. *)
Definition ceilOfQuotient (a b : Z) : Z := - ((- a) / b).

(** [Array.from({ length: n }, (_, i) => f(i))]. *)
Definition arrayFrom {A : Type} (n : Z) (f : Z -> A) : list A :=
  map (fun i => f (Z.of_nat i)) (seq 0 (Z.to_nat n)).

Definition firstWeekday (viewedMonthDate : Date) : Z :=
  getDay (newDate (getFullYear viewedMonthDate) (getMonth viewedMonthDate) 1).

Definition daysInMonth (viewedMonthDate : Date) : Z :=
  getDate (newDate (getFullYear viewedMonthDate) (getMonth viewedMonthDate + 1) 0).

Definition totalCells (viewedMonthDate : Date) : Z :=
  ceilOfQuotient (firstWeekday viewedMonthDate + daysInMonth viewedMonthDate) 7 * 7.

Definition trailingBlanks (viewedMonthDate : Date) : Z :=
  totalCells viewedMonthDate - (firstWeekday viewedMonthDate + daysInMonth viewedMonthDate).

(** [dayCells]: [None] is a blank cell ([null]). *)
Definition dayCells (viewedMonthDate : Date) : list (option Z) :=
  arrayFrom (firstWeekday viewedMonthDate) (fun _ => None)
  ++ arrayFrom (daysInMonth viewedMonthDate) (fun i => Some (i + 1))
  ++ arrayFrom (trailingBlanks viewedMonthDate) (fun _ => None).

Section Cells.
Context {Num : Type}.

(** [day == null ? [] : eventsByDay.get(day) ?? []], for a cell of the
    grid and for the selected day of the sheet alike. *)
Definition dayEvents (eventsByDay : gmap Z (list (BillsCalendar.CalendarEvent Num)))
    (day : option Z) : list (BillsCalendar.CalendarEvent Num) :=
  match day with
  | None => []
  | Some d => default [] (eventsByDay !! d)
  end.

(** [dayEvents.slice(0, 3)]. *)
Definition visibleEvents (dayEvents : list (BillsCalendar.CalendarEvent Num))
  : list (BillsCalendar.CalendarEvent Num) :=
  take 3 dayEvents.

(** [Math.max(0, dayEvents.length - visibleEvents.length)]. *)
Definition hiddenCount (dayEvents : list (BillsCalendar.CalendarEvent Num)) : Z :=
  Z.max 0 (Z.of_nat (length dayEvents) - Z.of_nat (length (visibleEvents dayEvents))).

(** The label of the button of an event of the sheet. *)
Definition nextActionLabel (event : BillsCalendar.CalendarEvent Num) : string :=
  match BillsCalendar.status event with
  | chipPaid => "Mark unpaid"
  | _ => "Mark paid"
  end.

End Cells.

End BillsCalendarGrid.

(** ** The store as a database *)

(** The functions of the store layer that create documents, and the handlers
    of the dashboard that call them, as transformations of the database: a
    finite map from document paths to documents. A thrown error is a result
    ([Threw]). The functions of the store layer are given by what a call
    that the store completes leaves; the handlers take, besides, the answer
    of the store to each request they await ([Store]), which may be a
    rejection. [serverTimestamp()] is the sentinel [JServerTimestamp], and
    the identifier the store generates for a new document is an argument
    ([newId]). *)
Module FirestoreDocs.

(** A document path, and a database: the documents by path. *)
Abbreviation DocPath := (list string) (only parsing).

Abbreviation Db Num := (gmap (list string) (gmap string (JsValue Num))) (only parsing).

Inductive Result (R : Type) :=
| Resolved (r : R)
| Threw (message : string).

Arguments Resolved {R} r.
Arguments Threw {R} message.

(** What a rejected promise carries: an [Error] with its message, or a
    value that is not an [Error]. *)
Inductive Reason :=
| ErrorWith (message : string)
| NotAnError.

(** The answer of the store to a request: it completes it, or it rejects
    it and leaves the database as it was. *)
Inductive Store :=
| storeCompletes
| storeRejects (reason : Reason).

(** [err instanceof Error ? err.message : fallback]. *)
Definition messageOf (reason : Reason) (fallback : string) : string :=
  match reason with
  | ErrorWith message => message
  | NotAnError => fallback
  end.

(** [OneTimeBillInput | RecurringBillInput]. *)
Inductive BillInput (Num : Type) :=
| OneTimeBillInput (name : string) (amount : Num) (dueDate : string)
| RecurringBillInput (name : string) (amount : Num) (dayOfMonth : Num).

Arguments OneTimeBillInput {Num} name amount dueDate.
Arguments RecurringBillInput {Num} name amount dayOfMonth.

Section WithNumbers.
Context {Num : Type} {numOps : JsNumber Num}.

(** [setDoc(ref, fields)] and [batch.set(ref, fields)]: the document
    becomes [fields]. *)
Definition setDoc (ref : DocPath) (fields : gmap string (JsValue Num)) (db : Db Num)
  : Db Num :=
  <[ref := fields]> db.

(** [setDoc(ref, fields, { merge: true })]: the fields given replace
    those of the document, the others stay; a document that is not
    there is created. *)
Definition setDocMerge (ref : DocPath) (fields : gmap string (JsValue Num)) (db : Db Num)
  : Db Num :=
  <[ref := fields ∪ default ∅ (db !! ref)]> db.

(** [addDoc(collection, fields)], the store choosing [newId]. *)
Definition addDoc (collection : DocPath) (newId : string)
    (fields : gmap string (JsValue Num)) (db : Db Num) : Db Num :=
  <[collection ++ [newId] := fields]> db.

(** [deleteDoc(ref)]. *)
Definition deleteDoc (ref : DocPath) (db : Db Num) : Db Num := delete ref db.

(** A [string | null] as a field value. *)
Definition stringOrNull (s : option string) : JsValue Num :=
  match s with
  | Some t => JStr t
  | None => JNull
  end.

(** [v == null]. *)
Definition isNullish (v : JsValue Num) : bool :=
  match v with
  | JUndefined | JNull => true
  | _ => false
  end.

Definition userRef (uid : string) : DocPath := ["users"; uid]%string.
Definition familyRef (familyId : string) : DocPath := ["families"; familyId]%string.
Definition memberRef (familyId uid : string) : DocPath :=
  ["families"; familyId; "members"; uid]%string.
Definition billsRef (familyId : string) : DocPath := ["families"; familyId; "bills"]%string.

Definition ensureUserDoc (uid : string) (email : option string) (db : Db Num) : Db Num :=
  let userRef := userRef uid in
  match db !! userRef with
  | None =>
      setDocMerge userRef
        (<["email" := stringOrNull email]> (<["createdAt" := JServerTimestamp]> ∅)) db
  | Some data =>
      if isNullish (field data "createdAt")
      then setDocMerge userRef
             (<["email" := stringOrNull email]> (<["createdAt" := JServerTimestamp]> ∅)) db
      else setDocMerge userRef (<["email" := stringOrNull email]> ∅) db
  end.

(** [createFamilyForUser]: the three writes of the batch, committed
    together, and the identifier of the new family. *)
Definition createFamilyForUser (newId : string) (uid : string) (email : option string)
    (db : Db Num) : string * Db Num :=
  let familyRef := familyRef newId in
  let memberRef := memberRef newId uid in
  let userRef := userRef uid in
  (newId,
   setDocMerge userRef
     (<["familyId" := JStr newId]> (<["email" := stringOrNull email]> ∅))
     (setDoc memberRef
        (<["role" := JStr "owner"]>
         (<["joinedAt" := JServerTimestamp]> (<["email" := stringOrNull email]> ∅)))
        (setDoc familyRef (<["createdAt" := JServerTimestamp]> ∅) db))).

Definition joinFamily (uid : string) (email : option string) (familyId : string)
    (db : Db Num) : Result string * Db Num :=
  match db !! familyRef familyId with
  | None => (Threw "Family not found", db)
  | Some _ =>
      let memberRef := memberRef familyId uid in
      let userRef := userRef uid in
      (Resolved familyId,
       setDocMerge userRef
         (<["familyId" := JStr familyId]> (<["email" := stringOrNull email]> ∅))
         (setDoc memberRef
            (<["role" := JStr "member"]>
             (<["joinedAt" := JServerTimestamp]> (<["email" := stringOrNull email]> ∅)))
            db))
  end.

(** What the listener of [listenToUserFamilyId] hands to [onChange] for
    the user document as it stands. *)
Definition listenToUserFamilyId (uid : string) (db : Db Num) : option string :=
  match db !! userRef uid with
  | None => None
  | Some data =>
      match field data "familyId" with
      | JStr s => Some s
      | _ => None
      end
  end.

Definition addBill (newId : string) (familyId uid : string) (bill : BillInput Num)
    (db : Db Num) : Result unit * Db Num :=
  let billsRef := billsRef familyId in
  let commonFields (name : string) (amount : Num) : gmap string (JsValue Num) :=
    <["name" := JStr name]>
    (<["amount" := JNum amount]>
     (<["createdAt" := JServerTimestamp]> (<["createdBy" := JStr uid]> ∅))) in
  match bill with
  | RecurringBillInput name amount dayOfMonth =>
      match num_integer dayOfMonth with
      | Some d =>
          if (d <? 1) || (d >? 31)
          then (Threw "dayOfMonth must be an integer between 1 and 31", db)
          else
            (Resolved tt,
             addDoc billsRef newId
               (<["recurrence" := JStr "monthly"]>
                (<["dayOfMonth" := JNum dayOfMonth]>
                 (<["paidForMonth" := JNull]>
                  (<["dueDate" := JNull]>
                   (<["status" := JStr "unpaid"]> (commonFields name amount))))))
               db)
      | None => (Threw "dayOfMonth must be an integer between 1 and 31", db)
      end
  | OneTimeBillInput name amount dueDate =>
      (Resolved tt,
       addDoc billsRef newId
         (<["dueDate" := match trim dueDate with
                         | EmptyString => JNull
                         | t => JStr t
                         end]>
          (<["status" := JStr "unpaid"]> (commonFields name amount)))
         db)
  end.

(** The documents of the bills of a family that [listenToBills] reads,
    each turned into a list item. *)
Definition billItem (familyId billId : string) (db : Db Num) : option (BillListItem Num) :=
  listenToBills_item billId <$> db !! (billsRef familyId ++ [billId]).

End WithNumbers.

End FirestoreDocs.

(** ** The form that adds a bill *)

(** The longest prefix of decimal digits of [s], read as a number after
    [acc]; [None] when there is no digit to read. *)
Fixpoint digitsPrefix (acc : option Z) (s : string) : option Z :=
  match s with
  | String c r =>
      if isDigit c then digitsPrefix (Some (10 * default 0 acc + digitValue c)) r else acc
  | EmptyString => acc
  end.

(** [Number.parseInt(s, 10)]: leading white space is skipped, a sign is
    read, then the longest prefix of digits; [None] is [NaN]. *)
Definition parseInt10 (s : string) : option Z :=
  match trimStart s with
  | String "-" r => Z.opp <$> digitsPrefix None r
  | String "+" r => digitsPrefix None r
  | t => digitsPrefix None t
  end.

(** [s.replace(/\D/g, "")]. *)
Fixpoint removeNonDigits (s : string) : string :=
  match s with
  | String c r => if isDigit c then String c (removeNonDigits r) else removeNonDigits r
  | EmptyString => EmptyString
  end.

(** The pattern [/^\d{4}$/]. *)
Definition matchesFourDigits (s : string) : bool :=
  match s with
  | String a (String b (String c (String d EmptyString))) =>
      isDigit a && isDigit b && isDigit c && isDigit d
  | _ => false
  end.

Module AddBillForm.

(** What the account field hands to [onAccountLast4Change]:
    [event.target.value.replace(/\D/g, "").slice(0, 4)]. *)
Definition onAccountLast4Change (value : string) : string :=
  substring 0 4 (removeNonDigits value).

(** The values of the options of the day select: [String(day)] for
    [day = index + 1], [index] from 0 to 30. *)
Definition dayOptions : list string :=
  BillsCalendarGrid.arrayFrom 31 (fun index => let day := index + 1 in numToString day).

End AddBillForm.

(** ** The handlers of the dashboard that write to the store *)

Module AppForms.

Import FirestoreDocs.

Record User := { uid : string; email : option string }.

Inductive BillType := oneTimeType | monthlyType.

(** The state of the form of the dashboard that calls the [addBill] of the
    store layer above. *)
Record BillForm := {
  billName : string;
  billAmount : string;
  billType : BillType;
  billDueDate : string;
  billDayOfMonth : string;
  billError : option string;
  billBusy : bool
}.

(** [setBillError(message)] before the form is marked busy. *)
Definition rejectBill (message : string) (form : BillForm) : BillForm :=
  {| billName := billName form; billAmount := billAmount form; billType := billType form;
     billDueDate := billDueDate form; billDayOfMonth := billDayOfMonth form;
     billError := Some message; billBusy := billBusy form |}.

(** [setBillError(message)] inside the [try], and the [finally]. *)
Definition failBill (message : string) (form : BillForm) : BillForm :=
  {| billName := billName form; billAmount := billAmount form; billType := billType form;
     billDueDate := billDueDate form; billDayOfMonth := billDayOfMonth form;
     billError := Some message; billBusy := false |}.

Definition clearBill (form : BillForm) : BillForm :=
  {| billName := ""; billAmount := ""; billType := billType form;
     billDueDate := ""; billDayOfMonth := "1";
     billError := None; billBusy := false |}.

(** The state of the family set-up card. *)
Record FamilySetup := {
  familyId : option string;
  createdFamilyId : option string;
  joinFamilyId : string;
  familyError : option string;
  familyBusy : bool
}.

Definition failFamily (message : string) (s : FamilySetup) : FamilySetup :=
  {| familyId := familyId s; createdFamilyId := createdFamilyId s;
     joinFamilyId := joinFamilyId s; familyError := Some message; familyBusy := false |}.

Section Handlers.
Context {Num : Type} {numOps : JsNumber Num}.

(** [Number(text)] when [Number.isFinite] holds of it, [None] when it
    does not. *)
Variable toFiniteNumber : string -> option Num.

(** The number an integer is. *)
Variable ofInteger : Z -> Num.

(** [handleAddBill] up to the state it leaves when it returns, [store]
    being the answer of the store to the [addDoc] of [addBill]. *)
Definition handleAddBill (store : Store) (newId : string) (user : option User)
    (familyId : option string) (form : BillForm) (db : Db Num) : BillForm * Db Num :=
  match user with
  | None => (form, db)
  | Some user =>
      if negb (truthy familyId) then (form, db)
      else
        let familyId := default EmptyString familyId in
        let name := trim (billName form) in
        match name with
        | EmptyString => (rejectBill "Bill name is required" form, db)
        | _ =>
            match toFiniteNumber (billAmount form) with
            | None => (rejectBill "Amount must be a valid number" form, db)
            | Some amount =>
                let settle (outcome : Result unit * Db Num) : BillForm * Db Num :=
                  match outcome with
                  | (Threw message, db') => (failBill message form, db')
                  | (Resolved _, db') =>
                      match store with
                      | storeCompletes => (clearBill form, db')
                      | storeRejects reason =>
                          (failBill (messageOf reason "Failed to add bill") form, db)
                      end
                  end in
                match billType form with
                | monthlyType =>
                    match parseInt10 (billDayOfMonth form) with
                    | Some dayOfMonth =>
                        if (dayOfMonth <? 1) || (dayOfMonth >? 31)
                        then (failBill "Day of month must be between 1 and 31" form, db)
                        else settle (addBill newId familyId (uid user)
                                       (RecurringBillInput name amount (ofInteger dayOfMonth))
                                       db)
                    | None =>
                        (failBill "Day of month must be between 1 and 31" form, db)
                    end
                | oneTimeType =>
                    settle (addBill newId familyId (uid user)
                              (OneTimeBillInput name amount (trim (billDueDate form))) db)
                end
            end
        end
  end.

(** [handleCreateFamily], [commit] being the answer of the store to the
    [batch.commit()] of [createFamilyForUser]. *)
Definition handleCreateFamily (commit : Store) (newId : string) (user : option User)
    (s : FamilySetup) (db : Db Num) : FamilySetup * Db Num :=
  match user with
  | None => (s, db)
  | Some user =>
      match commit with
      | storeCompletes =>
          let '(newFamilyId, db') :=
            createFamilyForUser newId (uid user) (email user) db in
          ({| familyId := Some newFamilyId; createdFamilyId := Some newFamilyId;
              joinFamilyId := joinFamilyId s; familyError := None; familyBusy := false |},
           db')
      | storeRejects reason =>
          (failFamily (messageOf reason "Failed to create family") s, db)
      end
  end.

(** [handleJoinFamily], [read] being the answer of the store to the
    [getDoc] of [joinFamily] and [commit] its answer to the
    [batch.commit()] that follows when the family is there. *)
Definition handleJoinFamily (read commit : Store) (user : option User) (s : FamilySetup)
    (db : Db Num) : FamilySetup * Db Num :=
  match user with
  | None => (s, db)
  | Some user =>
      let normalizedFamilyId := trim (joinFamilyId s) in
      match normalizedFamilyId with
      | EmptyString =>
          ({| familyId := familyId s; createdFamilyId := createdFamilyId s;
              joinFamilyId := joinFamilyId s; familyError := Some "Enter a family ID"%string;
              familyBusy := familyBusy s |}, db)
      | _ =>
          match read with
          | storeRejects reason =>
              (failFamily (messageOf reason "Failed to join family") s, db)
          | storeCompletes =>
              match joinFamily (uid user) (email user) normalizedFamilyId db with
              | (Threw message, db') => (failFamily message s, db')
              | (Resolved joinedFamilyId, db') =>
                  match commit with
                  | storeCompletes =>
                      ({| familyId := Some joinedFamilyId; createdFamilyId := None;
                          joinFamilyId := ""; familyError := None;
                          familyBusy := false |}, db')
                  | storeRejects reason =>
                      (failFamily (messageOf reason "Failed to join family") s, db)
                  end
              end
          end
      end
  end.

End Handlers.

(** The account digits as the newer [handleAddBill] checks them before it
    calls the store: [accountLast4.replace(/\D/g, "")], [null] when that
    is empty, and the error it sets. *)
Definition normalizedLast4OrNull (accountLast4 : string) : option string :=
  let normalizedLast4 := removeNonDigits accountLast4 in
  if (String.length normalizedLast4 =? 0)%nat then None else Some normalizedLast4.

Definition accountLast4Error (accountLast4 : string) : option string :=
  match normalizedLast4OrNull accountLast4 with
  | Some digits =>
      if negb (String.length digits =? 4)%nat
      then Some "Account Last 4 must be exactly 4 digits"%string
      else None
  | None => None
  end.

(** [typeof bill.accountLast4 === "string" && /^\d{4}$/.test(bill.accountLast4)]. *)
Definition hasAccountLast4Meta (accountLast4 : option string) : bool :=
  match accountLast4 with
  | Some s => matchesFourDigits s
  | None => false
  end.

End AppForms.

(** ** The account menu *)

Module AvatarMenu.

(** What the page finds of the clipboard: no [navigator.clipboard.writeText]
    at all, one whose promise resolves, or one whose promise is rejected. *)
Inductive Clipboard := clipboardMissing | clipboardResolves | clipboardRejects.

(** What [handleCopyFamilyId] asks of the browser. *)
Inductive CopyEffect :=
| WriteText (text : string)
| Prompt (title text : string).

(** [handleCopyFamilyId]: the requests made of the browser, in order, and
    the notice set. [window.prompt] is taken not to throw. *)
Definition handleCopyFamilyId (familyId : string) (clipboard : Clipboard)
  : list CopyEffect * string :=
  let normalizedFamilyId := trim familyId in
  match normalizedFamilyId with
  | EmptyString => ([], "No family ID available to copy."%string)
  | _ =>
      match clipboard with
      | clipboardResolves =>
          ([WriteText normalizedFamilyId], "Family ID copied."%string)
      | clipboardMissing =>
          ([Prompt "Copy Family ID" normalizedFamilyId],
           "Clipboard API unavailable. Copied manually."%string)
      | clipboardRejects =>
          ([WriteText normalizedFamilyId; Prompt "Copy Family ID" normalizedFamilyId],
           "Clipboard failed. Copied manually."%string)
      end
  end.

(** The text a request offers to be copied. *)
Definition offered (e : CopyEffect) : string :=
  match e with
  | WriteText text => text
  | Prompt _ text => text
  end.

End AvatarMenu.

(** ** Selecting and deleting bills *)

Module AppSelection.

Import FirestoreDocs.

(** The part of the state of the dashboard that the delete mode uses. *)
Record DeleteState := {
  isDeleteMode : bool;
  selectedBillIds : gset string;
  deleteBusy : bool;
  billError : option string
}.

(** The updater of [handleDeleteSelectionChange]. *)
Definition handleDeleteSelectionChange (billId : string) (checked : bool) (prev : gset string)
  : gset string :=
  let next := prev in
  if checked then {[billId]} ∪ next else next ∖ {[billId]}.

Section WithNumbers.
Context {Num : Type} {numOps : JsNumber Num}.

(** The effect that runs when the bill list changes: the selection
    without the identifiers that are no longer in the list, and the
    selection itself when there is none of those. *)
Definition pruneSelectedBillIds (bills : list (BillListItem Num))
    (selectedBillIds : gset string) : gset string :=
  if (size selectedBillIds =? 0)%nat then selectedBillIds
  else
    let validBillIds : gset string := list_to_set (map id bills) in
    let '(next, changed) :=
      set_fold (fun id '(next, changed) =>
                  if bool_decide (id ∈ validBillIds)
                  then ({[id]} ∪ next, changed)
                  else (next, true))
               ((∅ : gset string), false) selectedBillIds in
    if changed : bool then next else selectedBillIds.

Definition confirmationMessage (bills : list (BillListItem Num))
    (selectedBillIds : gset string) : string :=
  let idsToDelete := elements selectedBillIds in
  let selectedBills :=
    List.filter (fun bill => bool_decide (id bill ∈ selectedBillIds)) bills in
  if (length idsToDelete =? 1)%nat
  then "Delete '" ++ match selectedBills with
                     | bill :: _ => name bill
                     | [] => EmptyString
                     end ++ "'?"
  else "Delete " ++ numToString (Z.of_nat (length idsToDelete)) ++ " bills?".

(** The reason [Promise.all] rejects with: that of the first request
    to be rejected, [settled] being the identifiers in the order in
    which the store settles their requests. *)
Fixpoint firstRejection (answer : string -> Store) (settled : list string)
  : option Reason :=
  match settled with
  | billId :: later =>
      match answer billId with
      | storeRejects reason => Some reason
      | storeCompletes => firstRejection answer later
      end
  | [] => None
  end.

(** [handleDeleteSelectedBills] up to the state and the database left
    when every request has settled. [confirm] is the answer of
    [window.confirm] to a message, [answer] the answer of the store to
    the [deleteDoc] of each bill, and [settled] the order in which it
    settles the requests made: the selected identifiers in some order
    (an identifier left out of it settles after those named). *)
Definition handleDeleteSelectedBills (confirm : string -> bool) (answer : string -> Store)
    (settled : list string) (familyId : option string)
    (bills : list (BillListItem Num)) (s : DeleteState) (db : Db Num)
  : DeleteState * Db Num :=
  if negb (truthy familyId) || (size (selectedBillIds s) =? 0)%nat then (s, db)
  else
    let idsToDelete := elements (selectedBillIds s) in
    if negb (confirm (confirmationMessage bills (selectedBillIds s))) then (s, db)
    else
      let db' :=
        fold_left
          (fun db billId =>
             match answer billId with
             | storeCompletes =>
                 deleteDoc (billsRef (default EmptyString familyId) ++ [billId]) db
             | storeRejects _ => db
             end)
          idsToDelete db in
      match firstRejection answer
              (List.filter (fun billId => bool_decide (billId ∈ selectedBillIds s)) settled
               ++ idsToDelete) with
      | None =>
          ({| isDeleteMode := false; selectedBillIds := ∅; deleteBusy := false;
              billError := None |}, db')
      | Some reason =>
          ({| isDeleteMode := isDeleteMode s; selectedBillIds := selectedBillIds s;
              deleteBusy := false;
              billError := Some (messageOf reason "Failed to delete selected bills") |},
           db')
      end.

End WithNumbers.

End AppSelection.

(** ** The rows and the totals of the dashboard *)

Module AppBillRow.

Section Row.
Context {Num : Type} {numOps : JsNumber Num}.

(** [badgeLabel] of a row of the bill list. *)
Definition badgeLabel (now : Date) (bill : BillListItem Num) : string :=
  let derivedStatus := App.getDerivedStatus (App.currentYYYYMM now) bill in
  let overdue := App.isOverdue now bill in
  match derivedStatus with
  | paid => "PAID"
  | unpaid => if overdue then "OVERDUE" else "UNPAID"
  end.

(** The context the button of a row passes to the toggle handler. *)
Definition rowToggleContext (now : Date) (bill : BillListItem Num) : App.ToggleContext :=
  let derivedStatus := App.getDerivedStatus (App.currentYYYYMM now) bill in
  {| App.viewedYYYYMM := Some (App.currentYYYYMM now);
     App.currentStatus := Some (match derivedStatus with
                                | paid => chipPaid
                                | unpaid => chipUnpaid
                                end) |}.

End Row.

End AppBillRow.

(** The totals of the earlier dashboard besides [dueThisMonthTotal]. *)
Module AppEarlierSummary.

Section Summary.
Context {Num : Type} {numOps : JsNumber Num}.
Variable localeCompare : string -> string -> Z.

Definition unpaidTotal (now : Date) (bills : list (BillListItem Num)) : Num :=
  fold_left
    (fun total bill =>
       if BillStatus_eqb (App.getDerivedStatus (App.currentYYYYMM now) bill) unpaid
       then num_add total (amount bill) else total)
    (App.sortedBills localeCompare now bills) num_zero.

Definition paidTotal (now : Date) (bills : list (BillListItem Num)) : Num :=
  fold_left
    (fun total bill =>
       if BillStatus_eqb (App.getDerivedStatus (App.currentYYYYMM now) bill) paid
       then num_add total (amount bill) else total)
    (App.sortedBills localeCompare now bills) num_zero.

Definition overdueTotal (now : Date) (bills : list (BillListItem Num)) : Num :=
  fold_left
    (fun total bill => if App.isOverdue now bill then num_add total (amount bill) else total)
    (App.sortedBills localeCompare now bills) num_zero.

End Summary.

End AppEarlierSummary.

(** ** Vocabulary of the further properties *)

Section PaidVocabulary.
Context {Num : Type} {numOps : JsNumber Num}.

(** Paid this month as the totals count it: a monthly bill settled for
    the current period, a one-time bill due this month whose stored
    status is paid. *)
Definition paidThisMonth (now : Date) (b : BillListItem Num) : bool :=
  match recurrence b with
  | monthly => strictEq (paidForMonth b) (App.currentYYYYMM now)
  | oneTime => oneTimeDueThisMonth now b && BillStatus_eqb (status b) paid
  end.

(** Derived unpaid, and derived paid, for the current period. *)
Definition derivedUnpaid (now : Date) (b : BillListItem Num) : bool :=
  BillStatus_eqb (App.getDerivedStatus (App.currentYYYYMM now) b) unpaid.

Definition derivedPaid (now : Date) (b : BillListItem Num) : bool :=
  BillStatus_eqb (App.getDerivedStatus (App.currentYYYYMM now) b) paid.

End PaidVocabulary.

(** A text made of decimal digits only. *)
Fixpoint allDigits (s : string) : bool :=
  match s with
  | EmptyString => true
  | String c r => isDigit c && allDigits r
  end.

(** The fields a toggle writes: for a monthly bill the period settled, or
    [null], with the status and the time of the update; for a one-time bill
    the status and the time of the update. *)
Definition toggleFields {Num : Type} (nextStatus : BillStatus) (recurrence : BillRecurrence)
    (period : string) : gmap string (JsValue Num) :=
  match recurrence with
  | monthly =>
      <["paidForMonth" := match nextStatus with paid => JStr period | unpaid => JNull end]>
      (<["status" := statusValue nextStatus]> (<["updatedAt" := JServerTimestamp]> ∅))
  | oneTime =>
      <["status" := statusValue nextStatus]> (<["updatedAt" := JServerTimestamp]> ∅)
  end.

(** The store of [memoryStore] after a computation has run on it. *)
Definition storeAfter {Num R : Type} (m : Prog Num R) (keys : gset string)
    (w : gmap string (gmap string (JsValue Num))) : gmap string (gmap string (JsValue Num)) :=
  snd (snd (fst (run memoryStore m (keys, w)))).

Section AutopaySafetyVocabulary.
Context {Num : Type} {numOps : JsNumber Num}.

(** A write that settles a bill of a delivered list that is due for
    autopay at the "now" of that delivery. *)
Definition settlesDue (familyId : string)
    (delivered : Date -> list (BillListItem Num) -> Prop) (r : UpdateRequest Num) : Prop :=
  exists now bills b,
    delivered now bills /\ In b bills /\ autopayDue now b = true
    /\ r = settlement now familyId b.

(** A suspended pass that waits for the write that settles a bill due for
    autopay of a delivered list, and goes on by marking the key of that
    bill and scanning the rest of the list. *)
Definition scanning (familyId : string)
    (delivered : Date -> list (BillListItem Num) -> Prop) (p : Effects.Pass Num) : Prop :=
  match Effects.waiting p with
  | Effects.AwaitingWrite k =>
      exists now bills b rest,
        delivered now bills /\ In b bills /\ autopayDue now b = true /\ incl rest bills
        /\ forall ok, k ok = AddKey (autopayKey now b) (App.runAutopay now familyId rest)
  | Effects.AwaitingRead _ => False
  end.

End AutopaySafetyVocabulary.

(** Of the passes in flight, only the newest can be one that was not
    cancelled. *)
Definition newestOnlyLive {Num : Type} (passes : list (Effects.Pass Num)) : Prop :=
  forall (j : nat) (p : Effects.Pass Num),
    passes !! j = Some p -> Effects.cancelled p = false -> S j = length passes.

(** A bill that has an event in a displayed month. *)
Definition hasEvent {Num : Type} {numOps : JsNumber Num} (now view : Date)
    (b : BillListItem Num) : bool :=
  match BillsCalendar.eventOf now view b with
  | Some _ => true
  | None => false
  end.

(** The sum of the amounts of a list of events, added up from [0] in the
    order of the list. *)
Definition sumEventAmounts {Num : Type} {numOps : JsNumber Num}
    (events : list (BillsCalendar.CalendarEvent Num)) : Num :=
  fold_left (fun acc e => num_add acc (BillsCalendar.amount e)) events num_zero.
(** * Properties *)

(** ** Dates *)

Section DateFacts.

Lemma daysInMonth_bounds (y m : Z) : 28 <= daysInMonth y m <= 31.
Proof.
  unfold daysInMonth.
  destruct (m =? 1); [destruct (isLeapYear y); lia|].
  destruct ((m =? 3) || (m =? 5) || (m =? 8) || (m =? 10)); lia.
Qed.

Lemma prevMonth_range (y m : Z) :
  0 <= m <= 11 -> 0 <= snd (prevMonth y m) <= 11.
Proof. unfold prevMonth. destruct (Z.eqb_spec m 0); simpl; lia. Qed.

Lemma nextMonth_range (y m : Z) :
  0 <= m <= 11 -> 0 <= snd (nextMonth y m) <= 11.
Proof. unfold nextMonth. destruct (Z.eqb_spec m 11); simpl; lia. Qed.

(** A day inside its month is left where it is. *)
Lemma rollDay_inside (fuel : nat) (y m d : Z) :
  1 <= d <= daysInMonth y m -> rollDay fuel y m d = mkDate y m d.
Proof.
  intros Hd. destruct fuel as [|k]; simpl; [reflexivity|].
  destruct (Z.ltb_spec d 1); [lia|].
  destruct (Z.ltb_spec (daysInMonth y m) d); [lia|reflexivity].
Qed.

(** With enough fuel the day ends up inside a month. *)
Lemma rollDay_valid (fuel : nat) : forall y m d,
  0 <= m <= 11 ->
  1 <= d <= daysInMonth y m \/ Z.abs d < Z.of_nat fuel ->
  validDate (rollDay fuel y m d).
Proof.
  induction fuel as [|k IH]; intros y m d Hm Hd.
  - destruct Hd as [Hd|Hd]; [|lia]. simpl. split; simpl; lia.
  - simpl. destruct (Z.ltb_spec d 1) as [Hlt|Hge].
    + destruct (prevMonth y m) as [y' m'] eqn:E.
      pose proof (prevMonth_range y m Hm) as Hr. rewrite E in Hr. simpl in Hr.
      pose proof (daysInMonth_bounds y' m').
      apply IH; [lia|]. destruct Hd as [Hd|Hd]; [lia|].
      destruct (Z_le_gt_dec 1 (d + daysInMonth y' m')); [left; lia|right; lia].
    + destruct (Z.ltb_spec (daysInMonth y m) d) as [Hgt|Hle].
      * destruct (nextMonth y m) as [y' m'] eqn:E.
        pose proof (nextMonth_range y m Hm) as Hr. rewrite E in Hr. simpl in Hr.
        pose proof (daysInMonth_bounds y m).
        apply IH; [lia|]. destruct Hd as [Hd|Hd]; [lia|]. right. lia.
      * split; simpl; lia.
Qed.

(** Every date the constructor builds is a date of the calendar. *)
Lemma newDate_valid (y m d : Z) : validDate (newDate y m d).
Proof.
  unfold newDate. apply rollDay_valid.
  - pose proof (Z.mod_pos_bound m 12). lia.
  - right. lia.
Qed.

Lemma MakeFullYear_id (y : Z) : ~ (0 <= y <= 99) -> MakeFullYear y = y.
Proof.
  intros Hy. unfold MakeFullYear.
  destruct (Z.leb_spec 0 y); destruct (Z.leb_spec y 99); simpl; try reflexivity. lia.
Qed.

Lemma newDate_inside (y m d : Z) :
  ~ (0 <= y <= 99) -> 0 <= m <= 11 -> 1 <= d <= daysInMonth y m ->
  newDate y m d = mkDate y m d.
Proof.
  intros Hy Hm Hd. unfold newDate.
  rewrite (MakeFullYear_id y Hy), (Z.div_small m 12), (Z.mod_small m 12) by lia.
  rewrite Z.add_0_r. apply rollDay_inside. exact Hd.
Qed.

(** Day 0 of the month after [m] is the last day of [m]. *)
Lemma lastDay_of_month (y m : Z) :
  0 <= m <= 11 ->
  newDate y (m + 1) 0 = mkDate (MakeFullYear y) m (daysInMonth (MakeFullYear y) m).
Proof.
  intros Hm. unfold newDate. simpl Z.abs_nat. cbn [rollDay].
  destruct (Z.ltb_spec 0 1); [|lia].
  destruct (Z.eq_dec m 11) as [->|Hne].
  - change ((11 + 1) / 12) with 1. change ((11 + 1) mod 12) with 0.
    unfold prevMonth. simpl (0 =? 0). cbn iota.
    replace (MakeFullYear y + 1 - 1) with (MakeFullYear y) by lia.
    rewrite Z.add_0_l. reflexivity.
  - rewrite (Z.div_small (m + 1) 12), (Z.mod_small (m + 1) 12) by lia.
    unfold prevMonth. destruct (Z.eqb_spec (m + 1) 0); [lia|].
    rewrite Z.add_0_r, Z.add_0_l. replace (m + 1 - 1) with m by lia.
    reflexivity.
Qed.

End DateFacts.

Section DayOrder.

Lemma quarter_step (y : Z) :
  (y + 1 - 1969) / 4 = (y - 1969) / 4 + (if y mod 4 =? 0 then 1 else 0).
Proof. destruct (Z.eqb_spec (y mod 4) 0); Z.div_mod_to_equations; lia. Qed.

Lemma century_step (y : Z) :
  (y + 1 - 1901) / 100 = (y - 1901) / 100 + (if y mod 100 =? 0 then 1 else 0).
Proof. destruct (Z.eqb_spec (y mod 100) 0); Z.div_mod_to_equations; lia. Qed.

Lemma quadricentury_step (y : Z) :
  (y + 1 - 1601) / 400 = (y - 1601) / 400 + (if y mod 400 =? 0 then 1 else 0).
Proof. destruct (Z.eqb_spec (y mod 400) 0); Z.div_mod_to_equations; lia. Qed.

Lemma mod_400_100 (y : Z) : y mod 400 = 0 -> y mod 100 = 0.
Proof. Z.div_mod_to_equations; lia. Qed.

Lemma mod_100_4 (y : Z) : y mod 100 = 0 -> y mod 4 = 0.
Proof. Z.div_mod_to_equations; lia. Qed.

Lemma DayFromYear_succ (y : Z) : DayFromYear (y + 1) = DayFromYear y + 365 + leapDay y.
Proof.
  unfold DayFromYear, leapDay, isLeapYear.
  rewrite quarter_step, century_step, quadricentury_step.
  pose proof (mod_400_100 y). pose proof (mod_100_4 y).
  destruct (Z.eqb_spec (y mod 4) 0); destruct (Z.eqb_spec (y mod 100) 0);
    destruct (Z.eqb_spec (y mod 400) 0); simpl; lia.
Qed.

Lemma leapDay_range (y : Z) : 0 <= leapDay y <= 1.
Proof. unfold leapDay. destruct (isLeapYear y); lia. Qed.

Lemma DayFromYear_step (y : Z) (n : nat) :
  DayFromYear y + 365 * Z.of_nat n <= DayFromYear (y + Z.of_nat n).
Proof.
  induction n as [|n IH].
  - change (Z.of_nat 0) with 0. replace (y + 0) with y by lia. lia.
  - replace (y + Z.of_nat (S n)) with (y + Z.of_nat n + 1) by lia.
    rewrite DayFromYear_succ. pose proof (leapDay_range (y + Z.of_nat n)). lia.
Qed.

Lemma DayFromYear_lt (y1 y2 : Z) :
  y1 < y2 -> DayFromYear y1 + 365 + leapDay y1 <= DayFromYear y2.
Proof.
  intros Hlt. rewrite <- DayFromYear_succ.
  pose proof (DayFromYear_step (y1 + 1) (Z.to_nat (y2 - y1 - 1))) as Hs.
  rewrite Z2Nat.id in Hs by lia.
  replace (y1 + 1 + (y2 - y1 - 1)) with y2 in Hs by lia. lia.
Qed.

Lemma daysBeforeMonth_next (y m : Z) :
  0 <= m <= 10 -> daysBeforeMonth y (m + 1) = daysBeforeMonth y m + daysInMonth y m.
Proof.
  intros Hm. assert (Hc : m = 0 \/ m = 1 \/ m = 2 \/ m = 3 \/ m = 4 \/ m = 5 \/ m = 6
                          \/ m = 7 \/ m = 8 \/ m = 9 \/ m = 10) by lia.
  unfold daysBeforeMonth, daysInMonth.
  destruct Hc as [->|[->|[->|[->|[->|[->|[->|[->|[->|[->| ->]]]]]]]]]]; simpl;
    destruct (isLeapYear y); lia.
Qed.

Lemma daysBeforeMonth_last (y : Z) :
  daysBeforeMonth y 11 + daysInMonth y 11 = 365 + leapDay y.
Proof. unfold daysBeforeMonth, daysInMonth, leapDay. simpl. destruct (isLeapYear y); lia. Qed.

(** Within one year the months follow one another. *)
Lemma daysBeforeMonth_lt (y m1 m2 : Z) :
  0 <= m1 -> m1 < m2 -> m2 <= 11 ->
  daysBeforeMonth y m1 + daysInMonth y m1 <= daysBeforeMonth y m2.
Proof.
  intros H0 Hlt H11.
  replace m2 with (m1 + 1 + Z.of_nat (Z.to_nat (m2 - m1 - 1))) by lia.
  assert (Hb : m1 + 1 + Z.of_nat (Z.to_nat (m2 - m1 - 1)) <= 11) by lia.
  induction (Z.to_nat (m2 - m1 - 1)) as [|n IH].
  - change (Z.of_nat 0) with 0. replace (m1 + 1 + 0) with (m1 + 1) by lia.
    rewrite daysBeforeMonth_next by lia. lia.
  - replace (m1 + 1 + Z.of_nat (S n)) with (m1 + 1 + Z.of_nat n + 1) by lia.
    rewrite daysBeforeMonth_next by lia.
    pose proof (daysInMonth_bounds y (m1 + 1 + Z.of_nat n)). lia.
Qed.

Lemma daysBeforeMonth_range (y m : Z) :
  0 <= m <= 11 -> 0 <= daysBeforeMonth y m /\ daysBeforeMonth y m + daysInMonth y m <= 365 + leapDay y.
Proof.
  intros Hm. destruct (Z.eq_dec m 11) as [->|Hne].
  - rewrite daysBeforeMonth_last. unfold daysBeforeMonth. simpl. destruct (isLeapYear y); lia.
  - pose proof (daysBeforeMonth_lt y m 11 ltac:(lia) ltac:(lia) ltac:(lia)).
    pose proof (daysBeforeMonth_last y). pose proof (daysInMonth_bounds y 11).
    split; [|lia].
    destruct (Z.eq_dec m 0) as [->|Hn0]; [reflexivity|].
    pose proof (daysBeforeMonth_lt y 0 m ltac:(lia) ltac:(lia) ltac:(lia)).
    pose proof (daysInMonth_bounds y 0). unfold daysBeforeMonth in *. simpl in *. lia.
Qed.

(** A date of an earlier month is an earlier day. *)
Lemma Day_lt_of_earlier_month (a b : Date) :
  validDate a -> validDate b ->
  getFullYear a < getFullYear b
  \/ (getFullYear a = getFullYear b /\ getMonth a < getMonth b) ->
  Day a < Day b.
Proof.
  intros [Hma Hda] [Hmb Hdb] Hlt. unfold Day.
  pose proof (daysBeforeMonth_range (getFullYear a) (getMonth a) Hma).
  pose proof (daysBeforeMonth_range (getFullYear b) (getMonth b) Hmb).
  destruct Hlt as [Hy|[Hy Hm]].
  - pose proof (DayFromYear_lt _ _ Hy). lia.
  - rewrite Hy in *.
    pose proof (daysBeforeMonth_lt (getFullYear b) (getMonth a) (getMonth b)
                  ltac:(lia) Hm ltac:(lia)). lia.
Qed.

Lemma getTime_lt (a b : Date) : (getTime a <? getTime b) = (Day a <? Day b).
Proof.
  unfold getTime, msPerDay.
  destruct (Z.ltb_spec (Day a) (Day b)); destruct (Z.ltb_spec (86400000 * Day a) (86400000 * Day b));
    try reflexivity; lia.
Qed.

Lemma getTime_gt (a b : Date) : (getTime a >? getTime b) = (Day a >? Day b).
Proof. rewrite !Z.gtb_ltb. apply getTime_lt. Qed.

Lemma getTime_inj_Day (a b : Date) : getTime a = getTime b <-> Day a = Day b.
Proof. unfold getTime, msPerDay. lia. Qed.

(** [startOfDay] leaves a calendar date of a year outside 0..99 as it is. *)
Lemma startOfDay_id (t : Date) :
  validDate t -> ~ (0 <= getFullYear t <= 99) -> startOfDay t = t.
Proof.
  intros [Hm Hd] Hy. unfold startOfDay. rewrite newDate_inside by assumption.
  destruct t; reflexivity.
Qed.

End DayOrder.

(** ** Parsing a calendar date *)

Section ParseFacts.

Lemma isDigit_range (c : ascii) : isDigit c = true -> 0 <= digitValue c <= 9.
Proof. unfold isDigit, digitValue. lia. Qed.

Lemma isDigit_not_dash (c : ascii) : isDigit c = true -> Ascii.eqb c "-" = false.
Proof.
  intros Hc. destruct (Ascii.eqb_spec c "-") as [->|]; [|reflexivity]. discriminate Hc.
Qed.

Lemma matchesDatePattern_shape (s : string) :
  matchesDatePattern s = true <->
  exists y1 y2 y3 y4 m1 m2 d1 d2,
    s = dateText y1 y2 y3 y4 m1 m2 d1 d2
    /\ isDigit y1 = true /\ isDigit y2 = true /\ isDigit y3 = true /\ isDigit y4 = true
    /\ isDigit m1 = true /\ isDigit m2 = true /\ isDigit d1 = true /\ isDigit d2 = true.
Proof.
  split.
  - intros Hs.
    destruct s as [|y1 [|y2 [|y3 [|y4 [|h1 [|m1 [|m2 [|h2 [|d1 [|d2 [|? ?]]]]]]]]]]];
      try discriminate Hs.
    simpl in Hs. rewrite !andb_true_iff in Hs.
    destruct Hs as [[[[[[[[[A1 A2] A3] A4] A5] A6] A7] A8] A9] A10].
    apply Ascii.eqb_eq in A5, A8. subst h1 h2.
    exists y1, y2, y3, y4, m1, m2, d1, d2. repeat split; assumption.
  - intros (y1 & y2 & y3 & y4 & m1 & m2 & d1 & d2 & -> & H1 & H2 & H3 & H4 & H5 & H6 & H7 & H8).
    simpl. rewrite H1, H2, H3, H4, H5, H6, H7, H8. reflexivity.
Qed.

Lemma split_digit (c : ascii) (r : string) :
  isDigit c = true ->
  split "-" (String c r)
  = match split "-" r with
    | p :: ps => String c p :: ps
    | [] => [String c EmptyString]
    end.
Proof. intros Hc. cbn [split]. rewrite (isDigit_not_dash c Hc). reflexivity. Qed.

Lemma split_dash (r : string) : split "-" (String "-" r) = EmptyString :: split "-" r.
Proof. reflexivity. Qed.

Lemma split_dateText (y1 y2 y3 y4 m1 m2 d1 d2 : ascii) :
  isDigit y1 = true -> isDigit y2 = true -> isDigit y3 = true -> isDigit y4 = true ->
  isDigit m1 = true -> isDigit m2 = true -> isDigit d1 = true -> isDigit d2 = true ->
  map Number (split "-" (dateText y1 y2 y3 y4 m1 m2 d1 d2))
  = [Some (number4 y1 y2 y3 y4); Some (number2 m1 m2); Some (number2 d1 d2)].
Proof.
  intros H1 H2 H3 H4 H5 H6 H7 H8. unfold dateText.
  repeat (rewrite split_dash || rewrite split_digit by assumption).
  cbn [split map]. unfold Number. cbn [digitsValue].
  rewrite H1, H2, H3, H4, H5, H6, H7, H8.
  unfold number4, number2. repeat f_equal; lia.
Qed.

Lemma rollDay_forward (fuel : nat) : forall y m d,
  0 <= m <= 11 -> 1 <= d -> y <= getFullYear (rollDay fuel y m d).
Proof.
  induction fuel as [|k IH]; intros y m d Hm Hd; simpl; [lia|].
  destruct (Z.ltb_spec d 1); [lia|].
  destruct (Z.ltb_spec (daysInMonth y m) d) as [Hgt|Hle]; [|simpl; lia].
  destruct (nextMonth y m) as [y' m'] eqn:E.
  pose proof (nextMonth_range y m Hm) as Hr. rewrite E in Hr. simpl in Hr.
  assert (y <= y') by (unfold nextMonth in E; destruct (m =? 11); inversion E; lia).
  specialize (IH y' m' (d - daysInMonth y m) Hr). lia.
Qed.

Lemma rollDay_year_lower (fuel : nat) (y m d : Z) :
  0 <= m <= 11 -> 0 <= d -> y - 1 <= getFullYear (rollDay fuel y m d).
Proof.
  intros Hm Hd. destruct (Z.eq_dec d 0) as [->|Hn0].
  - destruct fuel as [|k]; simpl; [lia|].
    destruct (prevMonth y m) as [y' m'] eqn:E.
    pose proof (prevMonth_range y m Hm) as Hr. rewrite E in Hr. simpl in Hr.
    assert (y - 1 <= y') by (unfold prevMonth in E; destruct (m =? 0); inversion E; lia).
    pose proof (daysInMonth_bounds y' m').
    rewrite rollDay_inside by lia. simpl. lia.
  - pose proof (rollDay_forward fuel y m d Hm). lia.
Qed.

(** A date rebuilt from a year from 0 to 99 never has that year. *)
Lemma newDate_short_year (y m d : Z) :
  0 <= y <= 99 -> -1 <= m -> 0 <= d -> getFullYear (newDate y m d) <> y.
Proof.
  intros Hy Hm Hd. unfold newDate.
  pose proof (Z.mod_pos_bound m 12 ltac:(lia)).
  pose proof (rollDay_year_lower (S (Z.abs_nat d)) (MakeFullYear y + m / 12) (m mod 12) d
                ltac:(lia) Hd) as Hl.
  assert (-1 <= m / 12) by (Z.div_mod_to_equations; lia).
  unfold MakeFullYear in *.
  destruct (Z.leb_spec 0 y); [|lia]. destruct (Z.leb_spec y 99); [|lia].
  simpl in *. lia.
Qed.

(** The rebuilt date agrees with the three numbers exactly for the days of
    the calendar from the year 100 on. *)
Lemma roundtrip_agrees (y m d : Z) :
  0 <= y -> 0 <= m -> 0 <= d ->
  (getFullYear (newDate y (m - 1) d) = y
   /\ getMonth (newDate y (m - 1) d) = m - 1
   /\ getDate (newDate y (m - 1) d) = d)
  <-> (100 <= y /\ 1 <= m <= 12 /\ 1 <= d <= daysInMonth y (m - 1)).
Proof.
  intros Hy Hm Hd. split.
  - intros (Ey & Em & Ed).
    pose proof (newDate_valid y (m - 1) d) as [Vm Vd].
    rewrite Ey, Em, Ed in *.
    destruct (Z_le_gt_dec y 99) as [Hle|Hgt].
    + exfalso. apply (newDate_short_year y (m - 1) d); [lia|lia|lia|exact Ey].
    + lia.
  - intros (Hy' & Hm' & Hd'). rewrite newDate_inside by lia. simpl. auto.
Qed.

(** [parseYYYYMMDD] in terms of the calendar. *)
Lemma parseYYYYMMDD_Some (s : string) (dt : Date) :
  parseYYYYMMDD s = Some dt <->
  exists y1 y2 y3 y4 m1 m2 d1 d2,
    s = dateText y1 y2 y3 y4 m1 m2 d1 d2
    /\ isDigit y1 = true /\ isDigit y2 = true /\ isDigit y3 = true /\ isDigit y4 = true
    /\ isDigit m1 = true /\ isDigit m2 = true /\ isDigit d1 = true /\ isDigit d2 = true
    /\ 100 <= number4 y1 y2 y3 y4
    /\ 1 <= number2 m1 m2 <= 12
    /\ 1 <= number2 d1 d2 <= daysInMonth (number4 y1 y2 y3 y4) (number2 m1 m2 - 1)
    /\ dt = mkDate (number4 y1 y2 y3 y4) (number2 m1 m2 - 1) (number2 d1 d2).
Proof.
  unfold parseYYYYMMDD. split.
  - destruct (matchesDatePattern s) eqn:Hp; [|discriminate].
    apply matchesDatePattern_shape in Hp.
    destruct Hp as (y1 & y2 & y3 & y4 & m1 & m2 & d1 & d2 & -> & H1 & H2 & H3 & H4 & H5 & H6 & H7 & H8).
    cbn [negb]. rewrite split_dateText by assumption.
    set (y := number4 y1 y2 y3 y4). set (m := number2 m1 m2). set (d := number2 d1 d2).
    destruct (Z.eqb_spec (getFullYear (newDate y (m - 1) d)) y) as [Ey|]; [|discriminate].
    destruct (Z.eqb_spec (getMonth (newDate y (m - 1) d)) (m - 1)) as [Em|]; [|discriminate].
    destruct (Z.eqb_spec (getDate (newDate y (m - 1) d)) d) as [Ed|]; [|discriminate].
    cbn [negb orb]. intros [= <-].
    pose proof (isDigit_range _ H1). pose proof (isDigit_range _ H2).
    pose proof (isDigit_range _ H3). pose proof (isDigit_range _ H4).
    pose proof (isDigit_range _ H5). pose proof (isDigit_range _ H6).
    pose proof (isDigit_range _ H7). pose proof (isDigit_range _ H8).
    assert (Hr : 100 <= y /\ 1 <= m <= 12 /\ 1 <= d <= daysInMonth y (m - 1)).
    { apply roundtrip_agrees; unfold y, m, d, number4, number2; try lia. auto. }
    exists y1, y2, y3, y4, m1, m2, d1, d2.
    repeat (split; [first [reflexivity | assumption | apply Hr]|]).
    rewrite newDate_inside by lia. reflexivity.
  - intros (y1 & y2 & y3 & y4 & m1 & m2 & d1 & d2 & -> & H1 & H2 & H3 & H4 & H5 & H6 & H7 & H8
            & Hy & Hm & Hd & ->).
    assert (Hp : matchesDatePattern (dateText y1 y2 y3 y4 m1 m2 d1 d2) = true).
    { apply matchesDatePattern_shape. exists y1, y2, y3, y4, m1, m2, d1, d2. auto 10. }
    rewrite Hp. cbn [negb]. rewrite split_dateText by assumption.
    rewrite newDate_inside by lia. simpl.
    rewrite !Z.eqb_refl. reflexivity.
Qed.

(** What a parsed date is: a day of the calendar in a year from 100 on, in
    the same year of which [startOfDay] keeps it. *)
Lemma parseYYYYMMDD_valid (s : string) (dt : Date) :
  parseYYYYMMDD s = Some dt -> validDate dt /\ 100 <= getFullYear dt.
Proof.
  intros Hs. apply parseYYYYMMDD_Some in Hs.
  destruct Hs as (y1 & y2 & y3 & y4 & m1 & m2 & d1 & d2 & _ & _ & _ & _ & _ & _ & _ & _ & _
                  & Hy & Hm & Hd & ->).
  split; [split; simpl; lia|simpl; lia].
Qed.

Lemma parseYYYYMMDD_startOfDay (s : string) (dt : Date) :
  parseYYYYMMDD s = Some dt -> startOfDay dt = dt.
Proof.
  intros Hs. apply parseYYYYMMDD_valid in Hs. destruct Hs as [Hv Hy].
  apply startOfDay_id; [exact Hv|lia].
Qed.

End ParseFacts.

(** ** Claims about dates and status *)

(** C8. [parseYYYYMMDD] is a total function into an optional date. It
    answers [None] for every text outside the pattern of four digits, a
    hyphen, two digits, a hyphen and two digits; it answers [None] whenever
    the date rebuilt from the three numbers disagrees with them in year,
    month or day; what it accepts are exactly the texts of the days of the
    calendar (from the year 100 on), each parsed to that day; and
    ["2024-02-30"] is rejected. *)
Theorem parseYYYYMMDD_strict :
  (forall s, matchesDatePattern s = false -> parseYYYYMMDD s = None)
  /\ (forall s y m d,
        map Number (split "-" s) = [Some y; Some m; Some d] ->
        getFullYear (newDate y (m - 1) d) <> y
        \/ getMonth (newDate y (m - 1) d) <> m - 1
        \/ getDate (newDate y (m - 1) d) <> d ->
        parseYYYYMMDD s = None)
  /\ (forall s dt,
        parseYYYYMMDD s = Some dt <->
        exists y1 y2 y3 y4 m1 m2 d1 d2,
          s = dateText y1 y2 y3 y4 m1 m2 d1 d2
          /\ isDigit y1 = true /\ isDigit y2 = true /\ isDigit y3 = true /\ isDigit y4 = true
          /\ isDigit m1 = true /\ isDigit m2 = true /\ isDigit d1 = true /\ isDigit d2 = true
          /\ 100 <= number4 y1 y2 y3 y4
          /\ 1 <= number2 m1 m2 <= 12
          /\ 1 <= number2 d1 d2 <= daysInMonth (number4 y1 y2 y3 y4) (number2 m1 m2 - 1)
          /\ dt = mkDate (number4 y1 y2 y3 y4) (number2 m1 m2 - 1) (number2 d1 d2))
  /\ (forall s, parseYYYYMMDD s = None \/ exists dt, parseYYYYMMDD s = Some dt)
  /\ parseYYYYMMDD "2024-02-30" = None.
Proof.
  split; [|split; [|split; [|split]]].
  - intros s Hs. unfold parseYYYYMMDD. rewrite Hs. reflexivity.
  - intros s y m d Hparts Hne. unfold parseYYYYMMDD.
    destruct (matchesDatePattern s); [|reflexivity]. cbn [negb]. rewrite Hparts.
    destruct (Z.eqb_spec (getFullYear (newDate y (m - 1) d)) y) as [Ey|]; [|reflexivity].
    destruct (Z.eqb_spec (getMonth (newDate y (m - 1) d)) (m - 1)) as [Em|]; [|reflexivity].
    destruct (Z.eqb_spec (getDate (newDate y (m - 1) d)) d) as [Ed|]; [|reflexivity].
    exfalso. destruct Hne as [Hne|[Hne|Hne]]; contradiction.
  - apply parseYYYYMMDD_Some.
  - intros s. destruct (parseYYYYMMDD s) as [dt|]; [right; exists dt; reflexivity|left; reflexivity].
  - reflexivity.
Qed.

Lemma parseYYYYMMDD_strict_witness :
  parseYYYYMMDD "2024-2-30" = None
  /\ parseYYYYMMDD "2023-02-29" = None
  /\ parseYYYYMMDD "2024-02-29" = Some (mkDate 2024 1 29).
Proof.
  split; [|split].
  - apply (proj1 parseYYYYMMDD_strict "2024-2-30"). reflexivity.
  - apply (proj1 (proj2 parseYYYYMMDD_strict) "2023-02-29" 2023 2 29).
    + reflexivity.
    + right. left. vm_compute. discriminate.
  - apply (proj1 (proj2 (proj2 parseYYYYMMDD_strict)) "2024-02-29" (mkDate 2024 1 29)).
    exists "2"%char, "0"%char, "2"%char, "4"%char, "0"%char, "2"%char, "2"%char, "9"%char.
    vm_compute. repeat split; congruence.
Defined.

Section RecurringDate.

Lemma newDate_inside_full (y m d : Z) :
  0 <= m <= 11 -> 1 <= d <= daysInMonth (MakeFullYear y) m ->
  newDate y m d = mkDate (MakeFullYear y) m d.
Proof.
  intros Hm Hd. unfold newDate.
  rewrite (Z.div_small m 12), (Z.mod_small m 12) by lia.
  rewrite Z.add_0_r. apply rollDay_inside. exact Hd.
Qed.

Lemma MakeFullYear_range (y : Z) : ~ (0 <= MakeFullYear y <= 99).
Proof.
  unfold MakeFullYear.
  destruct (Z.leb_spec 0 y); destruct (Z.leb_spec y 99); simpl; lia.
Qed.

(** The day a recurring bill falls on in month [m] of year [y]. *)
Lemma newDate_clamped (y m z : Z) :
  0 <= m <= 11 ->
  newDate y m (Z.min (Z.max z 1) (getDate (newDate y (m + 1) 0)))
  = mkDate (MakeFullYear y) m (Z.min (Z.max z 1) (daysInMonth (MakeFullYear y) m)).
Proof.
  intros Hm. rewrite lastDay_of_month by exact Hm. cbn [getDate].
  pose proof (daysInMonth_bounds (MakeFullYear y) m).
  apply newDate_inside_full; [exact Hm|lia].
Qed.

Lemma clamped_valid (y m z : Z) :
  0 <= m <= 11 ->
  validDate (mkDate (MakeFullYear y) m (Z.min (Z.max z 1) (daysInMonth (MakeFullYear y) m))).
Proof.
  intros Hm. pose proof (daysInMonth_bounds (MakeFullYear y) m).
  split; simpl; lia.
Qed.

End RecurringDate.

Section StatusClaims.
Context {Num : Type} {numOps : JsNumber Num}.

Lemma strictEq_true (a : option string) (p : string) : strictEq a p = true <-> a = Some p.
Proof.
  destruct a as [s|]; simpl.
  - rewrite String.eqb_eq. split; [intros ->; reflexivity|intros [= ->]; reflexivity].
  - split; discriminate.
Qed.

Lemma strictEq_false (a : option string) (p : string) : strictEq a p = false <-> a <> Some p.
Proof.
  rewrite <- strictEq_true. destruct (strictEq a p); split; congruence.
Qed.

Lemma BillStatus_eqb_eq (a b : BillStatus) : BillStatus_eqb a b = true <-> a = b.
Proof. destruct a, b; simpl; split; congruence. Qed.

Lemma getRecurringDueDateInCurrentMonth_Some (now : Date) (n : Num) (z : Z) :
  0 <= getMonth now <= 11 -> num_integer n = Some z ->
  App.getRecurringDueDateInCurrentMonth now (Some n)
  = Some (mkDate (MakeFullYear (getFullYear now)) (getMonth now)
            (Z.min (Z.max z 1) (daysInMonth (MakeFullYear (getFullYear now)) (getMonth now)))).
Proof.
  intros Hm Hz. unfold App.getRecurringDueDateInCurrentMonth, App.nowYear, App.nowMonth.
  rewrite Hz. cbv zeta. rewrite newDate_clamped by exact Hm. reflexivity.
Qed.


(** The due date [isOverdue] resolves is a day of the calendar that
    [startOfDay] keeps. *)
Lemma resolvedDueDate_startOfDay (now : Date) (bill : BillListItem Num) (due : Date) :
  0 <= getMonth now <= 11 ->
  App.resolvedDueDate now bill = Some due -> startOfDay due = due.
Proof.
  intros Hm. unfold App.resolvedDueDate. destruct (recurrence bill).
  - destruct (Firestore.dayOfMonth bill) as [n|]; [|discriminate].
    destruct (num_integer n) as [z|] eqn:Hz.
    + rewrite (getRecurringDueDateInCurrentMonth_Some now n z Hm Hz). intros [= <-].
      apply startOfDay_id; [apply clamped_valid; exact Hm|apply MakeFullYear_range].
    + unfold App.getRecurringDueDateInCurrentMonth. rewrite Hz. discriminate.
  - destruct (truthy (dueDate bill)); [|discriminate].
    destruct (dueDate bill) as [s|]; [|discriminate].
    apply parseYYYYMMDD_startOfDay.
Qed.

(** The chip of a calendar event is paid exactly when the bill is paid for
    the period the calendar shows. *)
Lemma eventOf_status_paid (now view : Date) (bill : BillListItem Num)
    (e : BillsCalendar.CalendarEvent Num) :
  BillsCalendar.eventOf now view bill = Some e ->
  (recurrence bill = monthly ->
     (BillsCalendar.status e = chipPaid <-> paidForMonth bill = Some (getYYYYMM view)))
  /\ (recurrence bill = oneTime ->
     (BillsCalendar.status e = chipPaid <-> Firestore.status bill = paid)).
Proof.
  unfold BillsCalendar.eventOf. destruct (recurrence bill).
  - destruct (BillsCalendar.getRecurringDueDateInViewedMonth _ _ _); [|discriminate].
    intros [= <-]. cbn [BillsCalendar.status]. split; [intros _|discriminate].
    unfold BillsCalendar.chipOf.
    destruct (strictEq (paidForMonth bill) (getYYYYMM view)) eqn:E.
    + apply strictEq_true in E. split; congruence.
    + apply strictEq_false in E. cbn [negb andb].
      split; [|congruence].
      destruct (_ && _); discriminate.
  - destruct (negb (truthy (dueDate bill))); [discriminate|].
    destruct (match dueDate bill with Some s => parseYYYYMMDD s | None => None end);
      [|discriminate].
    destruct (_ || _); [discriminate|].
    intros [= <-]. cbn [BillsCalendar.status]. split; [discriminate|intros _].
    unfold BillsCalendar.chipOf. destruct (Firestore.status bill); simpl.
    + split; [|discriminate]. destruct (_ <? _); discriminate.
    + split; reflexivity.
Qed.

(** C2. For a monthly bill and any period [p], the derived status is paid
    exactly when [paidForMonth] is the string [p], and unpaid otherwise;
    for a one-time bill it is the stored status, whatever [p]. The calendar
    derives the status of a chip the same way against the period it shows. *)
Theorem derived_status_exact (bill : BillListItem Num) (p : string) :
  (recurrence bill = monthly ->
     (App.getDerivedStatus p bill = paid <-> paidForMonth bill = Some p)
     /\ (App.getDerivedStatus p bill = unpaid <-> paidForMonth bill <> Some p))
  /\ (recurrence bill = oneTime -> App.getDerivedStatus p bill = Firestore.status bill)
  /\ (forall now view e,
        BillsCalendar.eventOf now view bill = Some e ->
        (recurrence bill = monthly ->
           (BillsCalendar.status e = chipPaid <-> paidForMonth bill = Some (getYYYYMM view)))
        /\ (recurrence bill = oneTime ->
           (BillsCalendar.status e = chipPaid <-> Firestore.status bill = paid))).
Proof.
  split; [|split].
  - intros Hr. unfold App.getDerivedStatus. rewrite Hr.
    destruct (strictEq (paidForMonth bill) p) eqn:E.
    + apply strictEq_true in E. split; split; congruence.
    + apply strictEq_false in E. split; split; congruence.
  - intros Hr. unfold App.getDerivedStatus. rewrite Hr. reflexivity.
  - intros now view e. apply eventOf_status_paid.
Qed.


End StatusClaims.

Lemma derived_status_exact_witness :
  App.getDerivedStatus "2024-03" Samples.power = paid
  /\ App.getDerivedStatus "2024-04" Samples.power = unpaid
  /\ App.getDerivedStatus "2024-03" Samples.course = paid.
Proof.
  split; [|split].
  - apply (proj1 (proj1 (derived_status_exact Samples.power "2024-03") eq_refl)). reflexivity.
  - apply (proj2 (proj1 (derived_status_exact Samples.power "2024-04") eq_refl)).
    simpl. discriminate.
  - apply (proj1 (proj2 (derived_status_exact Samples.course "2024-03"))). reflexivity.
Defined.


(** ** Claims about the store layer *)

Section ProgFacts.
Context {Num W : Type}.
Variable h : Handler Num W.

Lemma run_bind {A B : Type} (m : Prog Num A) (f : A -> Prog Num B) (st : gset string * W) :
  run h (m ≫= f) st
  = let '(a, st1, l1) := run h m st in
    let '(b, st2, l2) := run h (f a) st1 in
    (b, st2, l1 ++ l2).
Proof.
  revert st. induction m as [a|ref k IH|ref fields k IH|k IH|key k IH|key k IH]; intros st.
  - change (Ret a ≫= f) with (f a). cbn [run].
    destruct (run h (f a) st) as [[b st2] l2]. reflexivity.
  - change (GetDoc ref k ≫= f) with (GetDoc ref (fun r => k r ≫= f)). cbn [run].
    destruct (on_getDoc h (snd st) ref) as [w' reply]. apply IH.
  - change (UpdateDoc ref fields k ≫= f) with (UpdateDoc ref fields (fun ok => k ok ≫= f)).
    cbn [run]. destruct (on_updateDoc h (snd st) ref fields) as [w' ok]. rewrite IH.
    destruct (run h (k ok) (fst st, w')) as [[a st1] l1].
    destruct (run h (f a) st1) as [[b st2] l2]. reflexivity.
  - change (ReadCancelled k ≫= f) with (ReadCancelled (fun c => k c ≫= f)). cbn [run].
    destruct (on_readCancelled h (snd st)) as [w' c]. apply IH.
  - change (HasKey key k ≫= f) with (HasKey key (fun present => k present ≫= f)). cbn [run].
    apply IH.
  - change (AddKey key k ≫= f) with (AddKey key (k ≫= f)). cbn [run]. apply IH.
Qed.

Lemma run_updateDoc (ref : BillRef) (fields : gmap string (JsValue Num))
    (st : gset string * W) :
  snd (run h (updateDoc ref fields) st) = [updateRequest ref fields].
Proof.
  unfold updateDoc. cbn [run]. destruct (on_updateDoc h (snd st) ref fields) as [w' ok].
  reflexivity.
Qed.

End ProgFacts.

Section TrimFacts.

Lemma trimStart_step (s : string) :
  trimStart s = match afterWhiteSpace s with
                | Some r => trimStart r
                | None => s
                end.
Proof.
  destruct s as [|c1 [|c2 [|c3 r]]]; cbn [trimStart afterWhiteSpace]; try reflexivity.
  - destruct (oneByteWhiteSpace c1); reflexivity.
  - destruct (oneByteWhiteSpace c1); [reflexivity|].
    destruct (twoByteWhiteSpace c1 c2); reflexivity.
  - destruct (oneByteWhiteSpace c1); [reflexivity|].
    destruct (twoByteWhiteSpace c1 c2); [reflexivity|].
    destruct (threeByteWhiteSpace c1 c2 c3); reflexivity.
Qed.

(** A character of one byte that is not white space starts no white
    space. *)
Lemma afterWhiteSpace_plain (c : ascii) (r : string) :
  byteCode c < 128 -> oneByteWhiteSpace c = false -> afterWhiteSpace (String c r) = None.
Proof.
  intros Hc Hw. cbn [afterWhiteSpace]. rewrite Hw.
  destruct r as [|c2 [|c3 r]]; [reflexivity| |].
  - assert (H2 : twoByteWhiteSpace c c2 = false)
      by (unfold twoByteWhiteSpace; destruct (Z.eqb_spec (byteCode c) 194); [lia|reflexivity]).
    rewrite H2. reflexivity.
  - assert (H2 : twoByteWhiteSpace c c2 = false)
      by (unfold twoByteWhiteSpace; destruct (Z.eqb_spec (byteCode c) 194); [lia|reflexivity]).
    assert (H3 : threeByteWhiteSpace c c2 c3 = false).
    { unfold threeByteWhiteSpace. cbv zeta.
      destruct (Z.eqb_spec (byteCode c) 225); [lia|].
      destruct (Z.eqb_spec (byteCode c) 226); [lia|].
      destruct (Z.eqb_spec (byteCode c) 227); [lia|].
      destruct (Z.eqb_spec (byteCode c) 239); [lia|]. reflexivity. }
    rewrite H2, H3. reflexivity.
Qed.

Lemma trimStart_noWhiteSpace (s : string) : noWhiteSpace s = true -> trimStart s = s.
Proof.
  destruct s as [|c r]; [reflexivity|]. cbn [noWhiteSpace].
  rewrite !andb_true_iff, negb_true_iff, Z.ltb_lt. intros [[Hc Hw] _].
  rewrite trimStart_step, (afterWhiteSpace_plain c r Hc Hw). reflexivity.
Qed.

Lemma trimEnd_noWhiteSpace (s : string) : noWhiteSpace s = true -> trimEnd s = s.
Proof.
  induction s as [|c r IH]; [reflexivity|]. intros Hs. cbn [trimEnd].
  unfold allWhiteSpace. rewrite (trimStart_noWhiteSpace _ Hs).
  cbn [noWhiteSpace] in Hs. apply andb_true_iff in Hs. rewrite (IH (proj2 Hs)).
  reflexivity.
Qed.

Lemma trim_noWhiteSpace (s : string) : noWhiteSpace s = true -> trim s = s.
Proof.
  intros Hs. unfold trim. rewrite (trimStart_noWhiteSpace s Hs).
  apply trimEnd_noWhiteSpace. exact Hs.
Qed.

Lemma noWhiteSpace_append (a b : string) :
  noWhiteSpace (a ++ b) = noWhiteSpace a && noWhiteSpace b.
Proof.
  induction a as [|c r IH]; simpl; [reflexivity|].
  rewrite IH. rewrite andb_assoc. reflexivity.
Qed.

Lemma digitChar_noWhiteSpace (n : Z) :
  (byteCode (digitChar (n mod 10)) <? 128) && negb (oneByteWhiteSpace (digitChar (n mod 10)))
  = true.
Proof.
  pose proof (Z.mod_pos_bound n 10 ltac:(lia)) as Hb.
  assert (Hc : n mod 10 = 0 \/ n mod 10 = 1 \/ n mod 10 = 2 \/ n mod 10 = 3 \/ n mod 10 = 4
               \/ n mod 10 = 5 \/ n mod 10 = 6 \/ n mod 10 = 7 \/ n mod 10 = 8
               \/ n mod 10 = 9) by lia.
  destruct Hc as [->|[->|[->|[->|[->|[->|[->|[->|[->| ->]]]]]]]]]; reflexivity.
Qed.

Lemma digitsOf_noWhiteSpace (fuel : nat) : forall n acc,
  noWhiteSpace acc = true -> noWhiteSpace (digitsOf fuel n acc) = true.
Proof.
  induction fuel as [|k IH]; intros n acc Hacc; simpl; [exact Hacc|].
  assert (Ha : noWhiteSpace (String (digitChar (n mod 10)) acc) = true).
  { cbn [noWhiteSpace]. rewrite digitChar_noWhiteSpace, Hacc. reflexivity. }
  destruct (n <? 10); [exact Ha|]. apply IH. exact Ha.
Qed.

Lemma numToString_noWhiteSpace (n : Z) : noWhiteSpace (numToString n) = true.
Proof.
  unfold numToString. destruct (n <? 0).
  - cbn [noWhiteSpace]. rewrite digitsOf_noWhiteSpace by reflexivity. reflexivity.
  - apply digitsOf_noWhiteSpace. reflexivity.
Qed.

Lemma padStart2_noWhiteSpace (s : string) :
  noWhiteSpace s = true -> noWhiteSpace (padStart2 s) = true.
Proof.
  intros Hs. destruct s as [|c [|c' r]]; [reflexivity| |exact Hs].
  simpl in *. exact Hs.
Qed.

Lemma getYYYYMM_noWhiteSpace (t : Date) : noWhiteSpace (getYYYYMM t) = true.
Proof.
  unfold getYYYYMM. rewrite !noWhiteSpace_append.
  rewrite numToString_noWhiteSpace, padStart2_noWhiteSpace by apply numToString_noWhiteSpace.
  reflexivity.
Qed.

Lemma append_nonempty (a b : string) : b <> EmptyString -> (a ++ b)%string <> EmptyString.
Proof. destruct a; simpl; [auto|discriminate]. Qed.

Lemma getYYYYMM_nonempty (t : Date) : getYYYYMM t <> EmptyString.
Proof. unfold getYYYYMM. apply append_nonempty. simpl. discriminate. Qed.

End TrimFacts.

Section StoreClaims.
Context {Num : Type} {numOps : JsNumber Num}.

Lemma isStr_true (v : JsValue Num) (lit : string) : isStr v lit = true <-> v = JStr lit.
Proof.
  destruct v; simpl; try (split; discriminate).
  rewrite String.eqb_eq. split; [intros ->; reflexivity|intros [= ->]; reflexivity].
Qed.

Lemma effectivePeriod_supplied (now : Date) (p : string) :
  trim p = p -> p <> EmptyString -> effectivePeriod now (Some p) = p.
Proof.
  intros Ht Hp. unfold effectivePeriod. rewrite Ht. destruct p; [contradiction|reflexivity].
Qed.

(** A period padded with no-break spaces (U+00A0) is settled trimmed, and
    one made of a no-break space alone gives way to the current month. *)
Lemma effectivePeriod_no_break_space (now : Date) :
  let nbsp := String (ascii_of_N 194) (String (ascii_of_N 160) EmptyString) in
  effectivePeriod now (Some (nbsp ++ "2024-02" ++ nbsp)%string) = "2024-02"%string
  /\ effectivePeriod now (Some nbsp) = getCurrentYYYYMM now.
Proof. split; reflexivity. Qed.

(** C10. Every list item the subscription delivers comes from one raw
    document and has: status paid exactly when the raw status is the string
    ["paid"], unpaid otherwise; recurrence monthly exactly when the raw
    recurrence is the string ["monthly"], none otherwise; a day of month
    that is the raw number when that is an integer from 1 to 31, and absent
    otherwise; the raw amount when that is a number, [0] otherwise; the raw
    due date when that is a string, none otherwise. *)
Theorem listenToBills_normalised (docs : list (string * gmap string (JsValue Num)))
    (b : BillListItem Num) :
  In b (listenToBills docs) ->
  exists docId data,
    In (docId, data) docs /\ b = listenToBills_item docId data /\ id b = docId
    /\ (Firestore.status b = paid <-> field data "status" = JStr "paid")
    /\ (Firestore.status b = unpaid <-> field data "status" <> JStr "paid")
    /\ (recurrence b = monthly <-> field data "recurrence" = JStr "monthly")
    /\ (recurrence b = oneTime <-> field data "recurrence" <> JStr "monthly")
    /\ ((exists n z, field data "dayOfMonth" = JNum n /\ num_integer n = Some z
                     /\ 1 <= z <= 31 /\ Firestore.dayOfMonth b = Some n)
        \/ (Firestore.dayOfMonth b = None
            /\ ~ exists n z, field data "dayOfMonth" = JNum n /\ num_integer n = Some z
                             /\ 1 <= z <= 31))
    /\ ((exists n, field data "amount" = JNum n /\ Firestore.amount b = n)
        \/ (Firestore.amount b = num_zero /\ forall n, field data "amount" <> JNum n))
    /\ ((exists s, field data "dueDate" = JStr s /\ dueDate b = Some s)
        \/ (dueDate b = None /\ forall s, field data "dueDate" <> JStr s)).
Proof.
  unfold listenToBills. rewrite in_map_iff. intros [[docId data] [<- Hin]].
  exists docId, data. cbn [fst snd].
  split; [exact Hin|]. split; [reflexivity|]. split; [reflexivity|].
  unfold listenToBills_item. cbn.
  repeat split.
  - destruct (isStr (field data "status") "paid") eqn:E; [|discriminate].
    intros _. apply isStr_true. exact E.
  - intros E. apply isStr_true in E. rewrite E. reflexivity.
  - destruct (isStr (field data "status") "paid") eqn:E; [discriminate|].
    intros _ E'. apply isStr_true in E'. congruence.
  - intros E. destruct (isStr (field data "status") "paid") eqn:E'; [|reflexivity].
    apply isStr_true in E'. contradiction.
  - destruct (isStr (field data "recurrence") "monthly") eqn:E; [|discriminate].
    intros _. apply isStr_true. exact E.
  - intros E. apply isStr_true in E. rewrite E. reflexivity.
  - destruct (isStr (field data "recurrence") "monthly") eqn:E; [discriminate|].
    intros _ E'. apply isStr_true in E'. congruence.
  - intros E. destruct (isStr (field data "recurrence") "monthly") eqn:E'; [|reflexivity].
    apply isStr_true in E'. contradiction.
  - destruct (field data "dayOfMonth") as [| | |n| | |] eqn:E;
      try (right; split; [reflexivity|intros (n' & z' & [=] & _)]).
    destruct (num_integer n) as [z|] eqn:Hz.
    + destruct (Z.leb_spec 1 z); destruct (Z.leb_spec z 31); cbn [andb];
        try (right; split; [reflexivity|intros (n' & z' & [= <-] & Hz' & Hr); rewrite Hz in Hz';
                                          injection Hz' as <-; lia]).
      left. exists n, z. auto.
    + right. split; [reflexivity|]. intros (n' & z' & [= <-] & Hz' & _). congruence.
  - destruct (field data "amount") as [| | |n| | |];
      try (right; split; [reflexivity|intros n'; discriminate]).
    left. exists n. auto.
  - destruct (field data "dueDate") as [| | | |s| |];
      try (right; split; [reflexivity|intros s'; discriminate]).
    left. exists s. auto.
Qed.

End StoreClaims.

Lemma listenToBills_normalised_witness :
  exists docId data,
    In (docId, data) SampleDocs.docs
    /\ listenToBills_item "d1" SampleDocs.odd = listenToBills_item docId data.
Proof.
  destruct (listenToBills_normalised SampleDocs.docs (listenToBills_item "d1" SampleDocs.odd))
    as (docId & data & Hin & Hb & _).
  - simpl. left. reflexivity.
  - exists docId, data. split; assumption.
Defined.

Section ToggleClaims.
Context {Num : Type} {numOps : JsNumber Num}.
Context {W : Type} (h : Handler Num W).

(** The fields a toggle of a monthly bill writes. *)
Lemma toggleBillStatus_monthly (now : Date) (familyId billId : string)
    (nextStatus : BillStatus) (optYYYYMM : option string) (st : gset string * W) :
  snd (run h (toggleBillStatus now familyId billId nextStatus monthly optYYYYMM) st)
  = [updateRequest (billRef familyId billId)
       (<["paidForMonth" := match nextStatus with
                            | paid => JStr (effectivePeriod now optYYYYMM)
                            | unpaid => JNull
                            end]>
        (<["status" := statusValue nextStatus]>
         (<["updatedAt" := JServerTimestamp]> ∅)))].
Proof. unfold toggleBillStatus. apply run_updateDoc. Qed.

(** C9. For a monthly bill, [toggleBillStatus] issues one write. With
    next status paid it sets [paidForMonth] to the supplied period: the
    supplied text with the white space around it trimmed, hence the text
    itself whenever it is not empty and has no white space around it, as
    the period of the month the calendar shows always is; it sets it to the
    current month when no period, an empty or a blank one is supplied. With
    next status unpaid it sets [paidForMonth] to [null]. Both writes set
    the stored [status] field too. The same holds when the options do not
    say monthly but the stored document does. From the grid, the handler
    passes the period of the viewed month, which is the one settled. *)
Theorem toggle_settles_supplied_period (now : Date) (familyId billId : string)
    (optYYYYMM : option string) (st : gset string * W) :
  let paidFields (period : string) : gmap string (JsValue Num) :=
    <["paidForMonth" := JStr period]>
    (<["status" := JStr "paid"]> (<["updatedAt" := JServerTimestamp]> ∅)) in
  let unpaidFields : gmap string (JsValue Num) :=
    <["paidForMonth" := JNull]>
    (<["status" := JStr "unpaid"]> (<["updatedAt" := JServerTimestamp]> ∅)) in
  let ref := billRef familyId billId in
  snd (run h (toggleBillStatus now familyId billId paid monthly optYYYYMM) st)
    = [updateRequest ref (paidFields (effectivePeriod now optYYYYMM))]
  /\ snd (run h (toggleBillStatus now familyId billId unpaid monthly optYYYYMM) st)
    = [updateRequest ref unpaidFields]
  /\ (forall p, optYYYYMM = Some p ->
        effectivePeriod now optYYYYMM
        = match trim p with EmptyString => getCurrentYYYYMM now | t => t end)
  /\ (forall p, optYYYYMM = Some p -> trim p = p -> p <> EmptyString ->
        effectivePeriod now optYYYYMM = p)
  /\ (forall view, optYYYYMM = Some (getYYYYMM view) ->
        effectivePeriod now optYYYYMM = getYYYYMM view)
  /\ (optYYYYMM = None \/ optYYYYMM = Some EmptyString ->
        effectivePeriod now optYYYYMM = getCurrentYYYYMM now)
  /\ (forall w' data,
        on_getDoc h (snd st) ref = (w', Snapshot (Some data)) ->
        field data "recurrence" = JStr "monthly" ->
        snd (run h (toggleBillStatus now familyId billId paid oneTime optYYYYMM) st)
          = [updateRequest ref (paidFields (effectivePeriod now optYYYYMM))]
        /\ snd (run h (toggleBillStatus now familyId billId unpaid oneTime optYYYYMM) st)
          = [updateRequest ref unpaidFields])
  /\ (forall (b : BillListItem Num) view (e : BillsCalendar.CalendarEvent Num),
        recurrence b = monthly -> id b = billId -> familyId <> EmptyString ->
        snd (run h (App.handleToggleBillStatusWithContext now (Some familyId) b
                      (Some (BillsCalendar.onToggleContext view e))) st)
        = [updateRequest ref
             (match BillsCalendar.status e with
              | chipPaid => unpaidFields
              | _ => paidFields (getYYYYMM view)
              end)]).
Proof.
  cbv zeta. split; [|split; [|split; [|split; [|split; [|split; [|split]]]]]].
  - apply toggleBillStatus_monthly.
  - apply toggleBillStatus_monthly.
  - intros p ->. reflexivity.
  - intros p -> Ht Hp. apply effectivePeriod_supplied; assumption.
  - intros view ->. apply effectivePeriod_supplied.
    + apply trim_noWhiteSpace, getYYYYMM_noWhiteSpace.
    + apply getYYYYMM_nonempty.
  - intros [->| ->]; reflexivity.
  - intros w' data Hget Hrec.
    assert (Hs : isStr (field data "recurrence") "monthly" = true)
      by (apply isStr_true; exact Hrec).
    assert (Hg : run h (getDoc (billRef familyId billId)) st
                 = (Snapshot (Some data), (fst st, w'), []))
      by (unfold getDoc; cbn [run]; rewrite Hget; reflexivity).
    unfold toggleBillStatus.
    split.
    + rewrite run_bind, Hg. cbv beta iota. rewrite Hs.
      pose proof (run_updateDoc h (billRef familyId billId)
                    (<["paidForMonth" := JStr (effectivePeriod now optYYYYMM)]>
                     (<["status" := JStr "paid"]> (<["updatedAt" := JServerTimestamp]> ∅)))
                    (fst st, w')) as Hl.
      cbn [statusValue].
      destruct (run h (updateDoc _ _) (fst st, w')) as [[ok st1] l1]. cbn [snd] in Hl. subst l1.
      reflexivity.
    + rewrite run_bind, Hg. cbv beta iota. rewrite Hs.
      pose proof (run_updateDoc h (billRef familyId billId)
                    (<["paidForMonth" := JNull]>
                     (<["status" := JStr "unpaid"]> (<["updatedAt" := JServerTimestamp]> ∅)))
                    (fst st, w')) as Hl.
      cbn [statusValue].
      destruct (run h (updateDoc _ _) (fst st, w')) as [[ok st1] l1]. cbn [snd] in Hl. subst l1.
      reflexivity.
  - intros b view e Hrec Hid Hfam.
    unfold App.handleToggleBillStatusWithContext.
    assert (Ht : truthy (Some familyId) = true) by (destruct familyId; [contradiction|reflexivity]).
    rewrite Ht. cbn [negb]. rewrite Hrec, Hid.
    change (default EmptyString (Some familyId)) with familyId.
    cbn [BillsCalendar.onToggleContext mbind option_bind App.currentStatus App.viewedYYYYMM].
    rewrite run_bind.
    assert (He : effectivePeriod now (Some (getYYYYMM view)) = getYYYYMM view).
    { apply effectivePeriod_supplied.
      - apply trim_noWhiteSpace, getYYYYMM_noWhiteSpace.
      - apply getYYYYMM_nonempty. }
    destruct (BillsCalendar.status e).
    + pose proof (toggleBillStatus_monthly now familyId billId unpaid
                    (Some (getYYYYMM view)) st) as Hl.
      destruct (run h (toggleBillStatus now familyId billId unpaid monthly _) st)
        as [[ok st1] l1]. cbn [snd] in Hl. subst l1. reflexivity.
    + pose proof (toggleBillStatus_monthly now familyId billId paid
                    (Some (getYYYYMM view)) st) as Hl.
      rewrite He in Hl.
      destruct (run h (toggleBillStatus now familyId billId paid monthly _) st)
        as [[ok st1] l1]. cbn [snd] in Hl. subst l1. reflexivity.
    + pose proof (toggleBillStatus_monthly now familyId billId paid
                    (Some (getYYYYMM view)) st) as Hl.
      rewrite He in Hl.
      destruct (run h (toggleBillStatus now familyId billId paid monthly _) st)
        as [[ok st1] l1]. cbn [snd] in Hl. subst l1. reflexivity.
Qed.

End ToggleClaims.

Lemma toggle_settles_supplied_period_witness :
  effectivePeriod Samples.april5 (Some "2024-02"%string) = "2024-02"%string
  /\ effectivePeriod Samples.april5 (Some ""%string) = "2024-04"%string.
Proof.
  split.
  - apply (proj1 (proj2 (proj2 (proj2 (toggle_settles_supplied_period (Num:=Z) memoryStore
             Samples.april5 "f1" "b1" (Some "2024-02"%string) (∅, ∅))))) "2024-02"%string).
    + reflexivity.
    + reflexivity.
    + discriminate.
  - apply (proj1 (proj2 (proj2 (proj2 (proj2 (proj2 (toggle_settles_supplied_period (Num:=Z)
             memoryStore Samples.april5 "f1" "b1" (Some ""%string) (∅, ∅)))))))).
    right. reflexivity.
Defined.

(** ** Sorting *)

Section SortFacts.
Context {A : Type} (cmp : A -> A -> ExtNum).

Lemma insertSorted_Permutation (x : A) (l : list A) :
  Permutation (insertSorted cmp x l) (x :: l).
Proof.
  induction l as [|y r IH]; simpl; [reflexivity|].
  destruct (ext_pos (cmp x y)); [|reflexivity].
  rewrite IH. apply perm_swap.
Qed.

Lemma sort_Permutation (l : list A) : Permutation (sort cmp l) l.
Proof.
  induction l as [|x r IH]; simpl; [reflexivity|].
  rewrite insertSorted_Permutation. apply perm_skip. exact IH.
Qed.

Lemma sort_In (l : list A) (x : A) : In x (sort cmp l) <-> In x l.
Proof.
  split; apply Permutation_in; [apply sort_Permutation|symmetry; apply sort_Permutation].
Qed.

End SortFacts.

(** ** Claims about the calendar *)

Section CalendarFacts.
Context {Num : Type} {numOps : JsNumber Num}.
Variable localeCompare : string -> string -> Z.
Variables now view : Date.

#[local] Abbreviation eventOf := (BillsCalendar.eventOf now view).
#[local] Abbreviation day := BillsCalendar.dayOfMonth.

Lemma addEvent_lookup (m : gmap Z (list (BillsCalendar.CalendarEvent Num)))
    (e : BillsCalendar.CalendarEvent Num) (d : Z) :
  BillsCalendar.addEvent m e !! d
  = if day e =? d then Some (default [] (m !! d) ++ [e]) else m !! d.
Proof.
  unfold BillsCalendar.addEvent. destruct (Z.eqb_spec (day e) d) as [->|Hne].
  - apply lookup_insert_eq.
  - apply lookup_insert_ne. exact Hne.
Qed.

(** The grouping loop: the list under a day is what was there followed by
    the events of that day, in the order of the bills. *)
Lemma grouping_lookup (bills : list (BillListItem Num)) :
  forall (m : gmap Z (list (BillsCalendar.CalendarEvent Num))) (d : Z),
    fold_left (fun events b => match eventOf b with
                               | Some event => BillsCalendar.addEvent events event
                               | None => events
                               end) bills m !! d
    = match List.filter (onDay d) (omap eventOf bills) with
      | [] => m !! d
      | l => Some (default [] (m !! d) ++ l)
      end.
Proof.
  induction bills as [|b bs IH]; intros m d; [reflexivity|].
  cbn [fold_left].
  change (omap eventOf (b :: bs))
    with (match eventOf b with
          | Some e => e :: omap eventOf bs
          | None => omap eventOf bs
          end).
  destruct (eventOf b) as [e|]; [|apply IH].
  rewrite IH. cbn [List.filter]. unfold onDay at 2. rewrite addEvent_lookup.
  destruct (day e =? d).
  - change (default [] (Some ?l)) with l.
    destruct (List.filter (onDay d) (omap eventOf bs)) as [|e' l'].
    + reflexivity.
    + rewrite <- app_assoc. reflexivity.
  - reflexivity.
Qed.

(** A day of the grid holds exactly the events of the bills that fall on
    it, each bill's event once. *)
Lemma eventsByDay_lookup (bills : list (BillListItem Num)) (d : Z) :
  Permutation (default [] (BillsCalendar.eventsByDay localeCompare now view bills !! d))
              (List.filter (onDay d) (omap eventOf bills)).
Proof.
  unfold BillsCalendar.eventsByDay. rewrite lookup_fmap, grouping_lookup.
  rewrite lookup_empty.
  destruct (List.filter (onDay d) (omap eventOf bills)) as [|e l]; [reflexivity|].
  change (Permutation (sort (BillsCalendar.compareEvents localeCompare) (e :: l)) (e :: l)).
  apply sort_Permutation.
Qed.

Lemma eventsByDay_In (bills : list (BillListItem Num)) (d : Z)
    (es : list (BillsCalendar.CalendarEvent Num)) (e : BillsCalendar.CalendarEvent Num) :
  BillsCalendar.eventsByDay localeCompare now view bills !! d = Some es ->
  In e es -> exists b, In b bills /\ eventOf b = Some e /\ day e = d.
Proof.
  intros Hes Hin. pose proof (eventsByDay_lookup bills d) as Hp.
  rewrite Hes in Hp. cbn [default] in Hp.
  apply (Permutation_in _ Hp) in Hin. apply filter_In in Hin. destruct Hin as [Hin Hd].
  apply list_elem_of_In, list_elem_of_omap in Hin. destruct Hin as (b & Hb & He).
  exists b. split; [apply list_elem_of_In; exact Hb|]. split; [exact He|].
  unfold onDay in Hd. lia.
Qed.

Lemma getRecurringDueDateInViewedMonth_Some (n : Num) (z : Z) :
  0 <= getMonth view <= 11 -> num_integer n = Some z ->
  BillsCalendar.getRecurringDueDateInViewedMonth (getFullYear view) (getMonth view) (Some n)
  = Some (mkDate (MakeFullYear (getFullYear view)) (getMonth view)
            (Z.min (Z.max z 1) (daysInMonth (MakeFullYear (getFullYear view)) (getMonth view)))).
Proof.
  intros Hm Hz. unfold BillsCalendar.getRecurringDueDateInViewedMonth.
  rewrite Hz. cbv zeta. rewrite newDate_clamped by exact Hm. reflexivity.
Qed.

(** The months the grid can show are dates of the calendar. *)
Lemma views_valid :
  validDate (BillsCalendar.initialView now)
  /\ validDate (BillsCalendar.previousView view)
  /\ validDate (BillsCalendar.nextView view).
Proof. repeat split; apply newDate_valid. Qed.

Lemma gridDaysInMonth_calendar :
  0 <= getMonth view <= 11 ->
  gridDaysInMonth view = daysInMonth (MakeFullYear (getFullYear view)) (getMonth view).
Proof. intros Hm. unfold gridDaysInMonth. rewrite lastDay_of_month by exact Hm. reflexivity. Qed.

Lemma isMonthInFuture_laterMonth (today : Date) :
  BillsCalendar.isMonthInFuture (getFullYear view) (getMonth view)
    (getFullYear today) (getMonth today) = true
  <-> laterMonth view today.
Proof.
  unfold BillsCalendar.isMonthInFuture, laterMonth.
  rewrite orb_true_iff, andb_true_iff, !Z.gtb_ltb, !Z.ltb_lt, Z.eqb_eq. intuition lia.
Qed.

(** In a month after today's, no bill's chip is overdue. *)
Lemma eventOf_future_not_overdue (b : BillListItem Num) (e : BillsCalendar.CalendarEvent Num) :
  laterMonth view (startOfDay now) ->
  eventOf b = Some e -> BillsCalendar.status e <> chipOverdue.
Proof.
  intros Hlater. pose proof (proj2 (isMonthInFuture_laterMonth (startOfDay now)) Hlater) as Hf.
  unfold BillsCalendar.eventOf. destruct (recurrence b).
  - destruct (BillsCalendar.getRecurringDueDateInViewedMonth _ _ _) as [due|]; [|discriminate].
    intros [= <-]. cbn [BillsCalendar.status]. rewrite Hf.
    unfold BillsCalendar.chipOf. destruct (strictEq _ _); discriminate.
  - destruct (negb (truthy (dueDate b))); [discriminate|].
    destruct (dueDate b) as [s|]; [|discriminate].
    destruct (parseYYYYMMDD s) as [due|] eqn:Hs; [|discriminate].
    destruct (Z.eqb_spec (getFullYear due) (getFullYear view)) as [Ey|]; [|discriminate].
    destruct (Z.eqb_spec (getMonth due) (getMonth view)) as [Em|]; [|discriminate].
    cbn [negb orb]. intros [= <-]. cbn [BillsCalendar.status].
    rewrite (parseYYYYMMDD_startOfDay s due Hs), getTime_lt.
    assert (Hd : Day (startOfDay now) < Day due).
    { apply Day_lt_of_earlier_month.
      - apply newDate_valid.
      - apply (parseYYYYMMDD_valid s due Hs).
      - unfold laterMonth in Hlater. lia. }
    destruct (Z.ltb_spec (Day due) (Day (startOfDay now))); [lia|].
    unfold BillsCalendar.chipOf. destruct (BillStatus_eqb _ _); discriminate.
Qed.

End CalendarFacts.

Section CalendarClaims.
Context {Num : Type} {numOps : JsNumber Num}.
Variable localeCompare : string -> string -> Z.

(** C4, as the code has it. In every displayed month, a monthly bill whose
    day of month is an integer produces exactly one calendar event: it is
    placed on the day of month clamped between 1 and the last day of the
    displayed month (the number of day cells of the grid, which is the
    length of that month in the calendar), it carries the bill, and its
    status is paid exactly when [paidForMonth] is the displayed period;
    for that bill alone the grid holds this one event and nothing else. A
    monthly bill whose day of month is missing or not an integer produces
    no event. Whatever the bills, a day of the grid holds exactly the
    events of the bills that fall on it. *)
Theorem monthly_event_clamped (now view : Date) (b : BillListItem Num) :
  recurrence b = monthly ->
  0 <= getMonth view <= 11 ->
  (forall n z,
      Firestore.dayOfMonth b = Some n -> num_integer n = Some z ->
      exists e,
        BillsCalendar.eventOf now view b = Some e
        /\ BillsCalendar.dayOfMonth e = Z.min (Z.max z 1) (gridDaysInMonth view)
        /\ 1 <= BillsCalendar.dayOfMonth e <= gridDaysInMonth view
        /\ gridDaysInMonth view
           = daysInMonth (MakeFullYear (getFullYear view)) (getMonth view)
        /\ BillsCalendar.bill e = b
        /\ (BillsCalendar.status e = chipPaid <-> paidForMonth b = Some (getYYYYMM view))
        /\ BillsCalendar.eventsByDay localeCompare now view [b]
           = {[ BillsCalendar.dayOfMonth e := [e] ]})
  /\ (Firestore.dayOfMonth b ≫= num_integer = None ->
      BillsCalendar.eventOf now view b = None
      /\ BillsCalendar.eventsByDay localeCompare now view [b] = ∅)
  /\ (forall bills d,
        Permutation
          (default [] (BillsCalendar.eventsByDay localeCompare now view bills !! d))
          (List.filter (onDay d) (omap (BillsCalendar.eventOf now view) bills))).
Proof.
  intros Hrec Hm. split; [|split].
  - intros n z Hn Hz.
    pose proof (getRecurringDueDateInViewedMonth_Some view n z Hm Hz) as Hdue.
    pose proof (gridDaysInMonth_calendar view Hm) as Hgrid.
    pose proof (daysInMonth_bounds (MakeFullYear (getFullYear view)) (getMonth view)) as Hb.
    destruct (BillsCalendar.eventOf now view b) as [e|] eqn:He.
    2:{ exfalso. unfold BillsCalendar.eventOf in He. rewrite Hrec, Hn, Hdue in He.
        discriminate He. }
    exists e.
    assert (Hday : BillsCalendar.dayOfMonth e = Z.min (Z.max z 1) (gridDaysInMonth view)).
    { unfold BillsCalendar.eventOf in He. rewrite Hrec, Hn, Hdue in He.
      injection He as <-. cbn [BillsCalendar.dayOfMonth getDate]. rewrite Hgrid. reflexivity. }
    split; [reflexivity|]. split; [exact Hday|]. split; [lia|]. split; [exact Hgrid|].
    split; [|split].
    + unfold BillsCalendar.eventOf in He. rewrite Hrec, Hn, Hdue in He.
      injection He as <-. reflexivity.
    + apply (proj1 (eventOf_status_paid now view b e He)). exact Hrec.
    + unfold BillsCalendar.eventsByDay. cbn [fold_left]. rewrite He.
      unfold BillsCalendar.addEvent. rewrite lookup_empty.
      change (default [] None ++ [e]) with [e].
      rewrite fmap_insert, fmap_empty. reflexivity.
  - intros Hn.
    assert (He : BillsCalendar.eventOf now view b = None).
    { unfold BillsCalendar.eventOf, BillsCalendar.getRecurringDueDateInViewedMonth.
      rewrite Hrec. destruct (Firestore.dayOfMonth b) as [n|]; [|reflexivity].
      simpl in Hn. rewrite Hn. reflexivity. }
    split; [exact He|].
    unfold BillsCalendar.eventsByDay. cbn [fold_left]. rewrite He. apply fmap_empty.
  - intros bills d. apply eventsByDay_lookup.
Qed.

(** C5. When the displayed month is strictly after the month of today, no
    calendar event of that month has status overdue, whether the bill is
    monthly or one-time, and whatever the day it falls on. *)
Theorem future_month_never_overdue (now view : Date) (bills : list (BillListItem Num)) :
  laterMonth view (startOfDay now) ->
  (forall b e, BillsCalendar.eventOf now view b = Some e ->
               BillsCalendar.status e <> chipOverdue)
  /\ (forall d es e,
        BillsCalendar.eventsByDay localeCompare now view bills !! d = Some es ->
        In e es -> BillsCalendar.status e <> chipOverdue).
Proof.
  intros Hlater. split.
  - intros b e. apply eventOf_future_not_overdue. exact Hlater.
  - intros d es e Hes Hin.
    destruct (eventsByDay_In localeCompare now view bills d es e Hes Hin) as (b & _ & He & _).
    apply (eventOf_future_not_overdue now view b e Hlater He).
Qed.

End CalendarClaims.

(** C4 as stated fails: a monthly bill whose day of month the feed could not
    read produces no event at all. *)
Lemma monthly_bill_without_event :
  recurrence Samples.broken = monthly
  /\ BillsCalendar.eventOf Samples.march10 MoreSamples.march2024 Samples.broken = None
  /\ BillsCalendar.eventsByDay byteCompare Samples.march10 MoreSamples.march2024
       [Samples.broken] = ∅.
Proof. split; [reflexivity|split; reflexivity]. Qed.

Lemma monthly_event_clamped_witness :
  (exists e,
      BillsCalendar.eventOf Samples.march10 MoreSamples.february2023 Samples.rent = Some e
      /\ BillsCalendar.dayOfMonth e = 28)
  /\ (exists e,
      BillsCalendar.eventOf Samples.march10 MoreSamples.february2024 Samples.rent = Some e
      /\ BillsCalendar.dayOfMonth e = 29).
Proof.
  split.
  - destruct (proj1 (monthly_event_clamped (numOps:=Z_JsNumber) byteCompare Samples.march10 MoreSamples.february2023
                       Samples.rent eq_refl ltac:(simpl; lia)) 31 31 eq_refl ltac:(reflexivity))
      as (e & He & Hd & _).
    exists e. split; [exact He|]. rewrite Hd. reflexivity.
  - destruct (proj1 (monthly_event_clamped (numOps:=Z_JsNumber) byteCompare Samples.march10 MoreSamples.february2024
                       Samples.rent eq_refl ltac:(simpl; lia)) 31 31 eq_refl ltac:(reflexivity))
      as (e & He & Hd & _).
    exists e. split; [exact He|]. rewrite Hd. reflexivity.
Defined.

Lemma future_month_never_overdue_witness :
  laterMonth MoreSamples.april2024 (startOfDay Samples.march10)
  /\ exists e,
      BillsCalendar.eventOf Samples.march10 MoreSamples.april2024 MoreSamples.dentist = Some e
      /\ BillsCalendar.status e <> chipOverdue.
Proof.
  assert (Hl : laterMonth MoreSamples.april2024 (startOfDay Samples.march10)).
  { right. split; [reflexivity|]. vm_compute. reflexivity. }
  split; [exact Hl|].
  eexists. split; [reflexivity|].
  apply (proj1 (future_month_never_overdue byteCompare Samples.march10 MoreSamples.april2024
                  [Samples.rent; MoreSamples.dentist] Hl) MoreSamples.dentist).
  reflexivity.
Defined.

(** ** Claims about the totals *)

Section TotalsClaims.
Context {Num : Type} {numOps : JsNumber Num}.
Variable localeCompare : string -> string -> Z.

Lemma fold_left_filter (p : BillListItem Num -> bool) (bills : list (BillListItem Num)) :
  forall acc : Num,
    fold_left (fun acc b => if p b then num_add acc (amount b) else acc) bills acc
    = fold_left (fun acc b => num_add acc (amount b)) (List.filter p bills) acc.
Proof.
  induction bills as [|b bs IH]; intros acc; [reflexivity|].
  cbn [fold_left List.filter]. destruct (p b); [cbn [fold_left]|]; apply IH.
Qed.

Lemma totalsStep_due (now : Date) (t : App.Totals Num) (b : BillListItem Num) :
  App.dueThisMonthTotal (App.totalsStep now t b)
  = if dueThisMonth now b then num_add (App.dueThisMonthTotal t) (amount b)
    else App.dueThisMonthTotal t.
Proof.
  unfold App.totalsStep, dueThisMonth, oneTimeDueThisMonth. cbn [App.dueThisMonthTotal].
  destruct (recurrence b).
  - unfold App.getRecurringDueDateInCurrentMonth.
    destruct (dayOfMonth b) as [n|]; [|reflexivity]. cbn [mbind option_bind].
    destruct (num_integer n); reflexivity.
  - cbn [negb andb]. unfold App.nowMonth, App.nowYear.
    destruct (dueDate b) as [[|c r]|]; reflexivity.
Qed.

Lemma totals_due_fold (now : Date) (bills : list (BillListItem Num)) :
  forall t : App.Totals Num,
    App.dueThisMonthTotal (fold_left (App.totalsStep now) bills t)
    = fold_left (fun acc b => if dueThisMonth now b then num_add acc (amount b) else acc)
        bills (App.dueThisMonthTotal t).
Proof.
  induction bills as [|b bs IH]; intros t; [reflexivity|].
  cbn [fold_left]. rewrite IH, totalsStep_due. reflexivity.
Qed.

(** The date test the earlier dashboard writes out is the parse. *)
Lemma isDueThisMonth_parse (now : Date) (b : BillListItem Num) :
  AppEarlier.isDueThisMonth now (dueDate b) = oneTimeDueThisMonth now b.
Proof.
  unfold AppEarlier.isDueThisMonth, oneTimeDueThisMonth, parseYYYYMMDD,
    App.nowMonth, App.nowYear.
  destruct (dueDate b) as [s|]; [|reflexivity].
  destruct (matchesDatePattern s) eqn:Hp.
  - assert (Ht : truthy (Some s) = true) by (destruct s; [discriminate Hp|reflexivity]).
    rewrite Ht. cbn [negb orb].
    destruct (map Number (split "-" s)) as [|[y|] [|[m|] [|[d|] [|? ?]]]]; try reflexivity.
    destruct (negb (getFullYear (newDate y (m - 1) d) =? y)
              || negb (getMonth (newDate y (m - 1) d) =? m - 1)
              || negb (getDate (newDate y (m - 1) d) =? d)); reflexivity.
  - cbn [negb]. rewrite orb_true_r. reflexivity.
Qed.

Lemma earlier_total_fold (now : Date) (bills : list (BillListItem Num)) :
  AppEarlier.dueThisMonthTotal localeCompare now bills
  = sumAmounts (List.filter (dueThisMonthEarlier now) (App.sortedBills localeCompare now bills)).
Proof.
  unfold AppEarlier.dueThisMonthTotal, sumAmounts. rewrite <- fold_left_filter.
  generalize (App.sortedBills localeCompare now bills). intros l.
  generalize (num_zero (Num:=Num)). induction l as [|b l IH]; intros acc; [reflexivity|].
  cbn [fold_left]. rewrite IH. f_equal. unfold dueThisMonthEarlier.
  destruct (BillStatus_eqb _ unpaid); cbn [negb andb]; [|reflexivity].
  destruct (recurrence b); [reflexivity|]. rewrite isDueThisMonth_parse. reflexivity.
Qed.

(** C7, as the code has it. The total due this month is the sum of the
    amounts of the bills that are due this month, where a monthly bill is
    due this month exactly when its day of month is an integer and a
    one-time bill exactly when its parsed due date lies in the current
    calendar month. Whether a bill counts does not depend on its stored
    status or on the period it is settled for. When "now" is a date of a
    year outside 0..99, the bills that count are exactly those whose
    resolved due date falls in the current month. The total of the same
    name in the earlier dashboard source is the sum, over the sorted view,
    of the derived-unpaid bills that are monthly or one-time with a parsed
    due date in the current month. *)
Theorem dueThisMonthTotal_sum (now : Date) (bills : list (BillListItem Num)) :
  App.dueThisMonthTotal (App.totals now bills)
    = sumAmounts (List.filter (dueThisMonth now) bills)
  /\ AppEarlier.dueThisMonthTotal localeCompare now bills
    = sumAmounts (List.filter (dueThisMonthEarlier now)
                    (App.sortedBills localeCompare now bills))
  /\ (forall b b' : BillListItem Num,
        recurrence b = recurrence b' -> dayOfMonth b = dayOfMonth b' ->
        dueDate b = dueDate b' -> dueThisMonth now b = dueThisMonth now b')
  /\ (0 <= getMonth now <= 11 -> ~ (0 <= getFullYear now <= 99) ->
      forall b : BillListItem Num,
        dueThisMonth now b = true <->
        exists dt, App.resolvedDueDate now b = Some dt
                   /\ getMonth dt = getMonth now /\ getFullYear dt = getFullYear now).
Proof.
  split; [|split; [|split]].
  - unfold App.totals, sumAmounts. rewrite totals_due_fold. cbn [App.dueThisMonthTotal].
    apply fold_left_filter.
  - apply earlier_total_fold.
  - intros b b' Hr Hd Hs. unfold dueThisMonth, oneTimeDueThisMonth.
    rewrite Hr, Hd, Hs. reflexivity.
  - intros Hm Hy b. unfold dueThisMonth, oneTimeDueThisMonth, App.resolvedDueDate.
    destruct (recurrence b).
    + destruct (dayOfMonth b) as [n|]; cbn [mbind option_bind].
      * destruct (num_integer n) as [z|] eqn:Hz.
        -- rewrite (getRecurringDueDateInCurrentMonth_Some now n z Hm Hz).
           rewrite (MakeFullYear_id _ Hy).
           split; [intros _|reflexivity]. eexists. split; [reflexivity|]. split; reflexivity.
        -- unfold App.getRecurringDueDateInCurrentMonth. rewrite Hz.
           split; [discriminate|]. intros (dt & [=] & _).
      * split; [discriminate|]. intros (dt & [=] & _).
    + destruct (dueDate b) as [[|c r]|]; cbn [truthy].
      * split; [discriminate|]. intros (dt & [=] & _).
      * destruct (parseYYYYMMDD (String c r)) as [dt|].
        -- rewrite andb_true_iff, !Z.eqb_eq. split.
           ++ intros [Em Ey]. exists dt. auto.
           ++ intros (dt' & [= <-] & Em & Ey). auto.
        -- split; [discriminate|]. intros (dt & [=] & _).
      * split; [discriminate|]. intros (dt & [=] & _).
Qed.

End TotalsClaims.

(** C7 as stated fails: a monthly bill whose day of month is not an integer
    is left out of the total of the dashboard, and a bill settled for the
    current month is left out of the total of the earlier dashboard. *)
Lemma monthly_bill_left_out_of_total :
  recurrence Samples.broken = monthly
  /\ App.dueThisMonthTotal (App.totals Samples.march10 [Samples.broken]) = 0
  /\ sumAmounts (List.filter (dueThisMonth_asStated Samples.march10) [Samples.broken]) = 5
  /\ AppEarlier.dueThisMonthTotal byteCompare Samples.march10 [Samples.power] = 0
  /\ sumAmounts (List.filter (dueThisMonth_asStated Samples.march10) [Samples.power]) = 80.
Proof. repeat split; reflexivity. Qed.

Lemma dueThisMonthTotal_sum_witness :
  App.dueThisMonthTotal
    (App.totals Samples.march10 [Samples.rent; Samples.power; Samples.plumber; Samples.broken])
  = 1580
  /\ AppEarlier.dueThisMonthTotal byteCompare Samples.march10
       [Samples.rent; Samples.power; Samples.plumber; Samples.broken]
     = 1505
  /\ (dueThisMonth Samples.march10 Samples.plumber = true <->
      exists dt, App.resolvedDueDate Samples.march10 Samples.plumber = Some dt
                 /\ getMonth dt = getMonth Samples.march10
                 /\ getFullYear dt = getFullYear Samples.march10).
Proof.
  split; [|split].
  - rewrite (proj1 (dueThisMonthTotal_sum byteCompare Samples.march10
                      [Samples.rent; Samples.power; Samples.plumber; Samples.broken])).
    reflexivity.
  - rewrite (proj1 (proj2 (dueThisMonthTotal_sum byteCompare Samples.march10
                             [Samples.rent; Samples.power; Samples.plumber; Samples.broken]))).
    reflexivity.
  - apply (proj2 (proj2 (proj2 (dueThisMonthTotal_sum byteCompare Samples.march10
                                  [Samples.plumber])))).
    + simpl. lia.
    + simpl. lia.
Defined.

(** ** Claims about the sorted view *)

Section InsertionSort.
Context {A : Type} (cmp : A -> A -> ExtNum) (le : A -> A -> Prop).
Hypothesis le_trans : forall x y z, le x y -> le y z -> le x z.
Hypothesis not_after : forall x y, ext_pos (cmp x y) = false -> le x y.
Hypothesis after : forall x y, ext_pos (cmp x y) = true -> le y x.

Lemma insertSorted_sorted (x : A) (l : list A) :
  StronglySorted le l -> StronglySorted le (insertSorted cmp x l).
Proof.
  induction 1 as [|y r Hr IH Hy]; simpl.
  - constructor; constructor.
  - destruct (ext_pos (cmp x y)) eqn:E.
    + constructor; [exact IH|].
      rewrite insertSorted_Permutation.
      constructor; [apply after; exact E|exact Hy].
    + constructor; [constructor; assumption|].
      constructor; [apply not_after; exact E|].
      revert Hy. apply List.Forall_impl. intros z Hz.
      apply (le_trans x y z); [apply not_after; exact E|exact Hz].
Qed.

Lemma sort_sorted (l : list A) : StronglySorted le (sort cmp l).
Proof.
  induction l as [|x r IH]; simpl; [constructor|].
  apply insertSorted_sorted. exact IH.
Qed.

End InsertionSort.

Lemma StronglySorted_lookup {A : Type} (le : A -> A -> Prop) (l : list A) :
  StronglySorted le l ->
  forall (i j : nat) (a b : A), (i < j)%nat -> l !! i = Some a -> l !! j = Some b -> le a b.
Proof.
  induction 1 as [|x r Hr IH Hx]; intros i j a b Hij Hi Hj.
  - rewrite lookup_nil in Hi. discriminate.
  - destruct j as [|j]; [lia|]. cbn in Hj.
    destruct i as [|i]; cbn in Hi.
    + injection Hi as <-. rewrite Forall_forall in Hx. apply Hx.
      apply list_elem_of_lookup. exists j. exact Hj.
    + apply (IH i j); [lia|assumption|assumption].
Qed.

Section ByteCompare.

Lemma compare_not_Gt_trans : forall a b c : string,
  String.compare a b <> Gt -> String.compare b c <> Gt -> String.compare a c <> Gt.
Proof.
  induction a as [|x a IH]; intros [|y b] [|z c]; simpl; try congruence.
  unfold Ascii.compare.
  destruct (N.compare_spec (N_of_ascii x) (N_of_ascii y));
    destruct (N.compare_spec (N_of_ascii y) (N_of_ascii z));
    destruct (N.compare_spec (N_of_ascii x) (N_of_ascii z));
    try congruence; try lia.
  apply IH.
Qed.

Lemma byteCompare_ordersNames : ordersNames byteCompare.
Proof.
  split.
  - intros a b. unfold byteCompare. rewrite (String.compare_antisym a b).
    destruct (String.compare b a); simpl; lia.
  - intros a b c. unfold byteCompare. pose proof (compare_not_Gt_trans a b c) as Ht.
    destruct (String.compare a b), (String.compare b c), (String.compare a c);
      try lia; intros; exfalso; apply Ht; congruence.
Qed.

End ByteCompare.

Section SortClaims.
Context {Num : Type} {numOps : JsNumber Num}.
Variable localeCompare : string -> string -> Z.
Variable now : Date.

#[local] Abbreviation statusOrder := (App.statusOrder now).
#[local] Abbreviation dueOf := (App.dueOf now).
#[local] Abbreviation derived := (App.getDerivedStatus (App.currentYYYYMM now)).

Lemma statusOrder_cases (a : BillListItem Num) :
  (derived a = unpaid /\ statusOrder a = 0) \/ (derived a = paid /\ statusOrder a = 1).
Proof.
  unfold App.statusOrder. destruct (derived a); simpl; auto.
Qed.

Lemma dueOf_resolved (a : BillListItem Num) :
  dueOf a = match App.resolvedDueDate now a with
            | Some dt => Fin (getTime dt)
            | None => PosInf
            end.
Proof.
  unfold App.dueOf, App.resolvedDueDate, App.parseOneTimeDueDate.
  destruct (recurrence a); [reflexivity|].
  destruct (truthy (dueDate a)); [|reflexivity]. cbn [negb].
  destruct (dueDate a); reflexivity.
Qed.

Lemma dueOf_cases (a : BillListItem Num) : dueOf a = PosInf \/ exists t, dueOf a = Fin t.
Proof.
  rewrite dueOf_resolved. destruct (App.resolvedDueDate now a) as [dt|]; eauto.
Qed.

#[local] Abbreviation keyLe := (keyOrder now).
#[local] Abbreviation fullLe := (fullOrder localeCompare now).

Lemma compareBills_after (a b : BillListItem Num) :
  ext_pos (App.compareBills localeCompare now a b) = true ->
  statusOrder b < statusOrder a
  \/ (statusOrder b = statusOrder a
      /\ (ext_lt (dueOf b) (dueOf a) = true
          \/ (dueOf b = dueOf a /\ 0 < localeCompare (name a) (name b)))).
Proof.
  unfold App.compareBills. cbv zeta.
  destruct (Z.eqb_spec (statusOrder a) (statusOrder b)) as [Es|Ns]; cbn [negb].
  - destruct (dueOf_cases a) as [Ea|[ta Ea]]; destruct (dueOf_cases b) as [Eb|[tb Eb]];
      rewrite Ea, Eb; simpl.
    + rewrite Z.ltb_lt. intros Hp. right. split; [lia|]. right. split; [reflexivity|lia].
    + intros _. right. split; [lia|]. left. reflexivity.
    + discriminate.
    + destruct (Z.eqb_spec ta tb) as [->|Ne]; simpl; rewrite Z.ltb_lt; intros Hp.
      * right. split; [lia|]. right. split; [reflexivity|lia].
      * right. split; [lia|]. left. apply Z.ltb_lt. lia.
  - simpl. rewrite Z.ltb_lt. intros Hp. left. lia.
Qed.

Lemma compareBills_not_after (a b : BillListItem Num) :
  ext_pos (App.compareBills localeCompare now a b) = false ->
  statusOrder a < statusOrder b
  \/ (statusOrder a = statusOrder b
      /\ (ext_lt (dueOf a) (dueOf b) = true
          \/ (dueOf a = dueOf b /\ localeCompare (name a) (name b) <= 0))).
Proof.
  unfold App.compareBills. cbv zeta.
  destruct (Z.eqb_spec (statusOrder a) (statusOrder b)) as [Es|Ns]; cbn [negb].
  - destruct (dueOf_cases a) as [Ea|[ta Ea]]; destruct (dueOf_cases b) as [Eb|[tb Eb]];
      rewrite Ea, Eb; simpl.
    + rewrite Z.ltb_ge. intros Hp. right. split; [lia|]. right. split; [reflexivity|lia].
    + discriminate.
    + intros _. right. split; [lia|]. left. reflexivity.
    + destruct (Z.eqb_spec ta tb) as [->|Ne]; simpl; rewrite Z.ltb_ge; intros Hp.
      * right. split; [lia|]. right. split; [reflexivity|lia].
      * right. split; [lia|]. left. apply Z.ltb_lt. lia.
  - simpl. rewrite Z.ltb_ge. intros Hp. left. lia.
Qed.

Lemma ext_lt_le (x y : ExtNum) : ext_lt x y = true -> ext_le x y \/ x = NegInf.
Proof.
  destruct x, y; simpl; try discriminate; auto. rewrite Z.ltb_lt. left. lia.
Qed.

Lemma fullLe_keyLe (a b : BillListItem Num) : fullLe a b -> keyLe a b.
Proof.
  unfold fullOrder, keyOrder. intros [Hs|[Hs [Hd|[Hd _]]]]; [left; exact Hs| |].
  - right. split; [exact Hs|].
    destruct (dueOf_cases a) as [Ea|[ta Ea]]; destruct (dueOf_cases b) as [Eb|[tb Eb]];
      rewrite Ea, Eb in *; simpl in *; try discriminate; try exact I.
    apply Z.ltb_lt in Hd. lia.
  - right. split; [exact Hs|]. rewrite Hd.
    destruct (dueOf_cases b) as [Eb|[tb Eb]]; rewrite Eb; simpl; [exact I|lia].
Qed.

Lemma keyLe_trans (a b c : BillListItem Num) : keyLe a b -> keyLe b c -> keyLe a c.
Proof.
  unfold keyOrder. intros [Hab|[Hab Dab]] [Hbc|[Hbc Dbc]]; try (left; lia).
  right. split; [lia|].
  destruct (dueOf_cases a) as [Ea|[ta Ea]]; destruct (dueOf_cases b) as [Eb|[tb Eb]];
    destruct (dueOf_cases c) as [Ec|[tc Ec]];
    rewrite Ea, Eb, Ec in *; simpl in *; try exact I; try contradiction; lia.
Qed.

Lemma fullLe_trans :
  ordersNames localeCompare ->
  forall a b c : BillListItem Num, fullLe a b -> fullLe b c -> fullLe a c.
Proof.
  intros [_ Htrans] a b c. unfold fullOrder.
  intros [Hab|[Hab Dab]] [Hbc|[Hbc Dbc]]; try (left; lia).
  right. split; [lia|].
  destruct (dueOf_cases a) as [Ea|[ta Ea]]; destruct (dueOf_cases b) as [Eb|[tb Eb]];
    destruct (dueOf_cases c) as [Ec|[tc Ec]];
    rewrite Ea, Eb, Ec in *; simpl in *;
    repeat match goal with
           | Hd : _ \/ _ |- _ => destruct Hd as [Hd|[Hd ?]]
           | Hd : (_ <? _) = true |- _ => apply Z.ltb_lt in Hd
           | Hd : Fin _ = Fin _ |- _ => injection Hd as Hd
           end;
    try discriminate;
    try (left; reflexivity);
    try (left; apply Z.ltb_lt; lia);
    right; (split; [f_equal; lia|]); eauto.
Qed.

Lemma compareBills_after_keyLe (a b : BillListItem Num) :
  ext_pos (App.compareBills localeCompare now a b) = true -> keyLe b a.
Proof.
  intros Hp. apply compareBills_after in Hp. unfold keyOrder.
  destruct Hp as [Hs|[Hs [Hd|[Hd _]]]]; [left; exact Hs| |].
  - right. split; [exact Hs|].
    destruct (dueOf_cases a) as [Ea|[ta Ea]]; destruct (dueOf_cases b) as [Eb|[tb Eb]];
      rewrite Ea, Eb in *; simpl in *; try discriminate; try exact I.
    apply Z.ltb_lt in Hd. lia.
  - right. split; [exact Hs|]. rewrite Hd.
    destruct (dueOf_cases a) as [Ea|[ta Ea]]; rewrite Ea; simpl; [exact I|lia].
Qed.

Lemma compareBills_after_fullLe (a b : BillListItem Num) :
  ordersNames localeCompare ->
  ext_pos (App.compareBills localeCompare now a b) = true -> fullLe b a.
Proof.
  intros [Hanti _] Hp. apply compareBills_after in Hp. unfold fullOrder.
  destruct Hp as [Hs|[Hs [Hd|[Hd Hl]]]]; [left; exact Hs| |].
  - right. split; [exact Hs|]. left. exact Hd.
  - right. split; [exact Hs|]. right. split; [exact Hd|]. apply Hanti. exact Hl.
Qed.

Lemma sortedBills_keyLe (bills : list (BillListItem Num)) :
  StronglySorted keyLe (App.sortedBills localeCompare now bills).
Proof.
  unfold App.sortedBills. apply sort_sorted.
  - apply keyLe_trans.
  - intros x y Hn. apply fullLe_keyLe, compareBills_not_after, Hn.
  - apply compareBills_after_keyLe.
Qed.

Lemma sortedBills_fullLe (bills : list (BillListItem Num)) :
  ordersNames localeCompare ->
  StronglySorted fullLe (App.sortedBills localeCompare now bills).
Proof.
  intros Hord. unfold App.sortedBills. apply sort_sorted.
  - apply fullLe_trans. exact Hord.
  - apply compareBills_not_after.
  - intros x y. apply compareBills_after_fullLe. exact Hord.
Qed.

End SortClaims.

Section SortOrderClaim.
Context {Num : Type} {numOps : JsNumber Num}.
Variable localeCompare : string -> string -> Z.

(** C6. The sorted view holds the same bills as the list. For every two
    of its bills, the first at an earlier position than the second: the
    first is not derived paid while the second is derived unpaid; when
    both have the same derived status, the due time stamp of the first is
    at most that of the second, a due date that does not resolve counting
    as plus infinity and so coming last; and when the status and the time
    stamp are the same, the name of the first does not compare after the
    name of the second, for a comparison of names that orders them. *)
Theorem sortedBills_order (now : Date) (bills : list (BillListItem Num)) :
  Permutation (App.sortedBills localeCompare now bills) bills
  /\ (forall (i j : nat) (a b : BillListItem Num),
        (i < j)%nat ->
        App.sortedBills localeCompare now bills !! i = Some a ->
        App.sortedBills localeCompare now bills !! j = Some b ->
        ~ (App.getDerivedStatus (App.currentYYYYMM now) a = paid
           /\ App.getDerivedStatus (App.currentYYYYMM now) b = unpaid)
        /\ (App.getDerivedStatus (App.currentYYYYMM now) a
            = App.getDerivedStatus (App.currentYYYYMM now) b ->
            ext_le (App.dueOf now a) (App.dueOf now b))
        /\ (ordersNames localeCompare ->
            App.getDerivedStatus (App.currentYYYYMM now) a
            = App.getDerivedStatus (App.currentYYYYMM now) b ->
            App.dueOf now a = App.dueOf now b ->
            localeCompare (name a) (name b) <= 0))
  /\ (forall a : BillListItem Num,
        App.dueOf now a = match App.resolvedDueDate now a with
                          | Some dt => Fin (getTime dt)
                          | None => PosInf
                          end).
Proof.
  split; [apply sort_Permutation|]. split; [|apply dueOf_resolved].
  intros i j a b Hij Hi Hj.
  pose proof (StronglySorted_lookup _ _ (sortedBills_keyLe localeCompare now bills)
                i j a b Hij Hi Hj) as Hk.
  unfold keyOrder in Hk.
  split; [|split].
  - intros [Da Db]. unfold App.statusOrder in Hk. rewrite Da, Db in Hk. simpl in Hk. lia.
  - intros Hs. unfold App.statusOrder in Hk. rewrite Hs in Hk.
    destruct Hk as [Hk|[_ Hk]]; [lia|exact Hk].
  - intros Hord Hs Hd.
    pose proof (StronglySorted_lookup _ _ (sortedBills_fullLe localeCompare now bills Hord)
                  i j a b Hij Hi Hj) as Hf.
    unfold fullOrder, App.statusOrder in Hf. rewrite Hs, Hd in Hf.
    destruct Hf as [Hf|[_ [Hf|[_ Hf]]]]; [lia| |exact Hf].
    exfalso. destruct (dueOf_cases now b) as [Eb|[tb Eb]]; rewrite Eb in Hf; simpl in Hf.
    + discriminate Hf.
    + apply Z.ltb_lt in Hf. lia.
Qed.

End SortOrderClaim.

Lemma sortedBills_order_witness :
  ext_le (App.dueOf Samples.march10 Samples.plumber) (App.dueOf Samples.march10 Samples.rent)
  /\ byteCompare (name Samples.gift) (name SortSamples.loan) <= 0.
Proof.
  split.
  - apply (proj1 (proj2 (proj1 (proj2 (sortedBills_order byteCompare Samples.march10
             SortSamples.bills)) 0%nat 1%nat Samples.plumber Samples.rent
             ltac:(lia) eq_refl eq_refl))).
    reflexivity.
  - apply (proj2 (proj2 (proj1 (proj2 (sortedBills_order byteCompare Samples.march10
             SortSamples.bills)) 2%nat 3%nat Samples.gift SortSamples.loan
             ltac:(lia) eq_refl eq_refl))).
    + apply byteCompare_ordersNames.
    + reflexivity.
    + reflexivity.
Defined.

(** ** Claims about autopay *)

Section AutopayFacts.
Context {Num : Type} {numOps : JsNumber Num}.

(** One turn of the loop of [runAutopay]. *)
Lemma runAutopay_step (now : Date) (familyId : string) (b : BillListItem Num)
    (rest : list (BillListItem Num)) :
  App.runAutopay now familyId (b :: rest)
  = ReadCancelled (fun cancelled =>
      if cancelled then Ret tt
      else if autopayDue now b
           then HasKey (autopayKey now b) (fun processed =>
                  if processed then App.runAutopay now familyId rest
                  else UpdateDoc (billRef familyId (id b)) (settlementFields now b)
                         (fun _ => AddKey (autopayKey now b)
                                     (App.runAutopay now familyId rest)))
           else App.runAutopay now familyId rest).
Proof.
  cbn [App.runAutopay]. unfold autopayDue, autopayKey, settlementFields, App.resolvedDueDate,
    App.getDerivedStatus.
  change (readCancelled ≫= ?f) with (ReadCancelled (fun c => Ret c ≫= f)).
  f_equal.
  destruct (autopay b); cbn [negb andb]; [|reflexivity].
  destruct (recurrence b).
  - destruct (strictEq (paidForMonth b) (App.currentYYYYMM now)); cbn [BillStatus_eqb andb];
      [reflexivity|].
    destruct (App.getRecurringDueDateInCurrentMonth now (dayOfMonth b)) as [due|];
      [|reflexivity].
    destruct (getTime (startOfDay due) >? getTime (App.todayStart now)); reflexivity.
  - destruct (Firestore.status b); cbn [BillStatus_eqb orb andb negb]; [|reflexivity].
    destruct (truthy (dueDate b)); cbn [negb]; [|reflexivity].
    destruct (match dueDate b with Some s => parseYYYYMMDD s | None => None end) as [due|];
      [|reflexivity].
    destruct (getTime (startOfDay due) >? getTime (App.todayStart now)); reflexivity.
Qed.

Lemma autopayDue_true (now : Date) (b : BillListItem Num) :
  autopayDue now b = true <->
  autopay b = true
  /\ App.getDerivedStatus (App.currentYYYYMM now) b = unpaid
  /\ exists due, App.resolvedDueDate now b = Some due
                 /\ Day (startOfDay due) <= Day (App.todayStart now).
Proof.
  unfold autopayDue. rewrite !andb_true_iff, BillStatus_eqb_eq.
  destruct (App.resolvedDueDate now b) as [due|].
  - rewrite negb_true_iff, getTime_gt, Z.gtb_ltb, Z.ltb_ge. split.
    + intros [[Ha Hs] Hd]. eauto.
    + intros (Ha & Hs & due' & [= <-] & Hd). auto.
  - split; [intros [_ Hf]; discriminate|]. intros (_ & _ & due & Hd & _). discriminate.
Qed.

End AutopayFacts.

Section AutopayScan.
Context {Num : Type} {numOps : JsNumber Num}.
Context {W : Type}.

#[local] Abbreviation keysAfter := (fun o : unit * (gset string * W) * list (UpdateRequest Num) =>
                                       fst (snd (fst o))).

(** What one pass does when it runs to its end, whatever the world
    answers: it settles a sub-list of the bills, each of them due for
    autopay and under a key not processed before, no key twice, and
    leaves the keys of all of them processed. *)
Lemma runAutopay_spec (h : Handler Num W) (now : Date) (familyId : string)
    (bills : list (BillListItem Num)) :
  forall st : gset string * W,
  exists settled : list (BillListItem Num),
    sublist settled bills
    /\ snd (run h (App.runAutopay now familyId bills) st)
       = map (settlement now familyId) settled
    /\ Forall (fun b => autopayDue now b = true) settled
    /\ NoDup (map (autopayKey now) settled)
    /\ Forall (fun b => autopayKey now b ∉ fst st) settled
    /\ keysAfter (run h (App.runAutopay now familyId bills) st)
       = list_to_set (map (autopayKey now) settled) ∪ fst st.
Proof.
  induction bills as [|b rest IH]; intros st.
  - exists []. cbn. repeat split; try constructor.
    symmetry. apply (left_id_L ∅ (∪)).
  - rewrite runAutopay_step. cbn [run].
    destruct (on_readCancelled h (snd st)) as [w1 c]. destruct c.
    { exists []. cbn. repeat split; try constructor.
      - apply sublist_nil_l.
      - symmetry. apply (left_id_L ∅ (∪)). }
    destruct (autopayDue now b) eqn:Hdue.
    2:{ destruct (IH (fst st, w1)) as (settled & Hsub & Hlog & Hd & Hnd & Hfresh & Hkeys).
        exists settled. split; [apply sublist_cons; exact Hsub|]. auto. }
    cbn [run fst snd].
    destruct (bool_decide (autopayKey now b ∈ fst st)) eqn:Hin.
    { destruct (IH (fst st, w1)) as (settled & Hsub & Hlog & Hd & Hnd & Hfresh & Hkeys).
      exists settled. split; [apply sublist_cons; exact Hsub|]. auto. }
    apply bool_decide_eq_false in Hin.
    cbn [run fst snd]. destruct (on_updateDoc h w1 _ _) as [w2 ok].
    destruct (IH ({[autopayKey now b]} ∪ fst st, w2))
      as (settled & Hsub & Hlog & Hd & Hnd & Hfresh & Hkeys).
    destruct (run h (App.runAutopay now familyId rest) ({[autopayKey now b]} ∪ fst st, w2))
      as [[r [keys' w3]] log] eqn:Hrun.
    cbn [fst snd] in *.
    exists (b :: settled). split; [apply sublist_skip; exact Hsub|].
    split; [cbn [map]; rewrite Hlog; reflexivity|].
    split; [constructor; assumption|].
    split.
    { cbn [map]. constructor; [|exact Hnd].
      intros Hmem. apply list_elem_of_In, in_map_iff in Hmem.
      destruct Hmem as (b' & Hk & Hb').
      rewrite List.Forall_forall in Hfresh. apply (Hfresh b' Hb'). rewrite Hk.
      apply elem_of_union_l, elem_of_singleton. reflexivity. }
    split.
    { constructor; [exact Hin|].
      revert Hfresh. apply List.Forall_impl. intros b' Hb' Hmem. apply Hb'.
      apply elem_of_union_r. exact Hmem. }
    rewrite Hkeys. cbn [map].
    change (list_to_set (autopayKey now b :: map (autopayKey now) settled) : gset string)
      with ({[autopayKey now b]} ∪ list_to_set (map (autopayKey now) settled) : gset string).
    rewrite (assoc_L (∪) (list_to_set (map (autopayKey now) settled)) {[autopayKey now b]}).
    rewrite (comm_L (∪) (list_to_set (map (autopayKey now) settled)) {[autopayKey now b]}).
    reflexivity.
Qed.

(** The keys only grow, and a pass that is not cancelled leaves the key
    of every bill due for autopay processed. *)
Lemma runAutopay_complete (h : Handler Num W) (now : Date) (familyId : string)
    (bills : list (BillListItem Num)) :
  neverCancels h ->
  forall st : gset string * W,
    fst st ⊆ keysAfter (run h (App.runAutopay now familyId bills) st)
    /\ forall b, In b bills -> autopayDue now b = true ->
                 autopayKey now b ∈ keysAfter (run h (App.runAutopay now familyId bills) st).
Proof.
  intros Hnc. induction bills as [|b rest IH]; intros st.
  - cbn. split; [reflexivity|]. intros b [].
  - rewrite runAutopay_step. cbn [run].
    pose proof (Hnc (snd st)) as Hc. destruct (on_readCancelled h (snd st)) as [w1 c].
    cbn [snd] in Hc. subst c.
    destruct (autopayDue now b) eqn:Hdue.
    + cbn [run fst snd].
      destruct (bool_decide (autopayKey now b ∈ fst st)) eqn:Hin.
      * apply bool_decide_eq_true in Hin.
        destruct (IH (fst st, w1)) as [Hsub Hall]. cbn [fst] in Hsub.
        split; [exact Hsub|].
        intros b' [<-|Hb'] Hdue'; [apply Hsub; exact Hin|apply Hall; assumption].
      * cbn [run fst snd]. destruct (on_updateDoc h w1 _ _) as [w2 ok].
        destruct (IH ({[autopayKey now b]} ∪ fst st, w2)) as [Hsub Hall].
        destruct (run h (App.runAutopay now familyId rest) ({[autopayKey now b]} ∪ fst st, w2))
          as [[r [keys' w3]] log].
        cbn [fst snd] in *. split.
        -- intros k Hk. apply Hsub, elem_of_union_r. exact Hk.
        -- intros b' [<-|Hb'] Hdue'; [|apply Hall; assumption].
           apply Hsub, elem_of_union_l, elem_of_singleton. reflexivity.
    + destruct (IH (fst st, w1)) as [Hsub Hall]. cbn [fst] in Hsub.
      split; [exact Hsub|].
      intros b' [<-|Hb'] Hdue'; [congruence|apply Hall; assumption].
Qed.

(** A pass over bills whose due keys are all processed issues nothing. *)
Lemma runAutopay_idle (h : Handler Num W) (now : Date) (familyId : string)
    (bills : list (BillListItem Num)) :
  forall st : gset string * W,
    (forall b, In b bills -> autopayDue now b = true -> autopayKey now b ∈ fst st) ->
    snd (run h (App.runAutopay now familyId bills) st) = []
    /\ keysAfter (run h (App.runAutopay now familyId bills) st) = fst st.
Proof.
  induction bills as [|b rest IH]; intros st Hall.
  - cbn. auto.
  - rewrite runAutopay_step. cbn [run].
    destruct (on_readCancelled h (snd st)) as [w1 c]. destruct c; [cbn; auto|].
    destruct (autopayDue now b) eqn:Hdue.
    + assert (Hin : autopayKey now b ∈ fst st) by (apply Hall; [left; reflexivity|exact Hdue]).
      cbn [run fst snd]. rewrite (bool_decide_eq_true_2 _ Hin).
      apply (IH (fst st, w1)). intros b' Hb'. apply Hall. right. exact Hb'.
    + apply (IH (fst st, w1)). intros b' Hb'. apply Hall. right. exact Hb'.
Qed.

End AutopayScan.

Section AutopayInTurn.
Context {Num : Type} {numOps : JsNumber Num}.
Context {W : Type}.

#[local] Abbreviation keysAfter := (fun o : unit * (gset string * W) * list (UpdateRequest Num) =>
                                       fst (snd (fst o))).

Lemma autopayEffect_spec (h : Handler Num W) (now : Date) (familyId : option string)
    (bills : list (BillListItem Num)) (st : gset string * W) :
  exists settled : list (BillListItem Num),
    sublist settled bills
    /\ snd (run h (App.autopayEffect now familyId bills) st)
       = map (settlement now (default EmptyString familyId)) settled
    /\ Forall (fun b => autopayDue now b = true) settled
    /\ NoDup (map (autopayKey now) settled)
    /\ Forall (fun b => autopayKey now b ∉ fst st) settled
    /\ keysAfter (run h (App.autopayEffect now familyId bills) st)
       = list_to_set (map (autopayKey now) settled) ∪ fst st.
Proof.
  unfold App.autopayEffect.
  destruct (negb (truthy familyId) || (length bills =? 0)%nat).
  - exists []. cbn. repeat split; try constructor.
    + apply sublist_nil_l.
    + symmetry. apply (left_id_L ∅ (∪)).
  - apply runAutopay_spec.
Qed.

(** What passes run in turn issue: the settlements of some scanned bills,
    each due for autopay at the time of its scan, no key twice, and none
    under a key processed before. *)
Lemma passesInTurn_spec (h : Handler Num W) (familyId : option string)
    (scans : list (Date * list (BillListItem Num))) :
  forall st : gset string * W,
  exists settled : list (Date * BillListItem Num),
    snd (run h (App.passesInTurn familyId scans) st)
      = map (fun nb => settlement (fst nb) (default EmptyString familyId) (snd nb)) settled
    /\ Forall (fun nb => In nb (scanned scans) /\ autopayDue (fst nb) (snd nb) = true) settled
    /\ NoDup (map (fun nb => autopayKey (fst nb) (snd nb)) settled)
    /\ Forall (fun nb => autopayKey (fst nb) (snd nb) ∉ fst st) settled
    /\ keysAfter (run h (App.passesInTurn familyId scans) st)
       = list_to_set (map (fun nb => autopayKey (fst nb) (snd nb)) settled) ∪ fst st.
Proof.
  induction scans as [|[now bills] later IH]; intros st.
  - exists []. cbn. repeat split; try constructor. symmetry. apply (left_id_L ∅ (∪)).
  - cbn [App.passesInTurn].
    change (App.autopayEffect now familyId bills ≫= ?f)
      with (App.autopayEffect now familyId bills ≫= f).
    rewrite run_bind.
    destruct (autopayEffect_spec h now familyId bills st)
      as (s1 & Hsub & Hlog1 & Hdue1 & Hnd1 & Hfresh1 & Hkeys1).
    destruct (run h (App.autopayEffect now familyId bills) st) as [[r1 st1] l1].
    cbn [fst snd] in *.
    destruct (IH st1) as (s2 & Hlog2 & Hdue2 & Hnd2 & Hfresh2 & Hkeys2).
    destruct (run h (App.passesInTurn familyId later) st1) as [[r2 st2] l2].
    cbn [fst snd] in *.
    exists (map (fun b => (now, b)) s1 ++ s2).
    rewrite !map_app, !map_map. cbn [fst snd].
    split; [rewrite Hlog1, Hlog2; reflexivity|].
    split.
    { apply Forall_app. split.
      - apply List.Forall_forall. intros nb Hnb. apply in_map_iff in Hnb.
        destruct Hnb as (b & <- & Hb). cbn [fst snd]. split.
        + unfold scanned. cbn [flat_map fst snd]. apply in_or_app. left.
          apply in_map. apply list_elem_of_In. apply (sublist_subseteq _ _ Hsub).
          apply list_elem_of_In. exact Hb.
        + rewrite List.Forall_forall in Hdue1. apply Hdue1. exact Hb.
      - revert Hdue2. apply List.Forall_impl. intros nb [Hin Hd]. split; [|exact Hd].
        unfold scanned. cbn [flat_map]. apply in_or_app. right. exact Hin. }
    split.
    { apply NoDup_app. split; [exact Hnd1|]. split; [|exact Hnd2].
      intros k Hk1 Hk2. apply list_elem_of_In, in_map_iff in Hk2.
      destruct Hk2 as (nb & <- & Hnb).
      rewrite List.Forall_forall in Hfresh2. apply (Hfresh2 nb Hnb).
      rewrite Hkeys1. apply elem_of_union_l, elem_of_list_to_set. exact Hk1. }
    split.
    { apply Forall_app. split.
      - apply List.Forall_forall. intros nb Hnb. apply in_map_iff in Hnb.
        destruct Hnb as (b & <- & Hb). cbn [fst snd].
        rewrite List.Forall_forall in Hfresh1. apply Hfresh1. exact Hb.
      - revert Hfresh2. apply List.Forall_impl. intros nb Hnb Hin. apply Hnb.
        rewrite Hkeys1. apply elem_of_union_r. exact Hin. }
    rewrite Hkeys2, Hkeys1. rewrite list_to_set_app_L.
    rewrite (assoc_L (∪)). f_equal. apply (comm_L (∪)).
Qed.

(** Passes that run one after another, each to its end before the next
    starts, keep the promise of autopay, whatever the store answers: a pass
    settles only bills with autopay on, derived unpaid for the current
    period, due today or earlier and under a key not yet processed, one
    write each; the key of every bill it attempted is processed afterwards,
    whether the write was accepted or rejected; after a pass that was not
    cancelled, a second pass over the same list at the same time issues
    nothing; and over any number of such passes no key is attempted twice. *)
Lemma passes_in_turn_settle_once (h : Handler Num W) (now : Date) (familyId : option string)
    (bills : list (BillListItem Num)) (st : gset string * W) :
  (exists settled : list (BillListItem Num),
      sublist settled bills
      /\ snd (run h (App.autopayEffect now familyId bills) st)
         = map (settlement now (default EmptyString familyId)) settled
      /\ Forall (fun b =>
                   autopay b = true
                   /\ App.getDerivedStatus (App.currentYYYYMM now) b = unpaid
                   /\ (exists due, App.resolvedDueDate now b = Some due
                                   /\ Day (startOfDay due) <= Day (App.todayStart now))
                   /\ autopayKey now b ∉ fst st) settled
      /\ NoDup (map (autopayKey now) settled)
      /\ keysAfter (run h (App.autopayEffect now familyId bills) st)
         = list_to_set (map (autopayKey now) settled) ∪ fst st)
  /\ (neverCancels h ->
      forall (h' : Handler Num W) (w' : W),
        let processed := keysAfter (run h (App.autopayEffect now familyId bills) st) in
        snd (run h' (App.autopayEffect now familyId bills) (processed, w')) = []
        /\ keysAfter (run h' (App.autopayEffect now familyId bills) (processed, w'))
           = processed)
  /\ (forall scans : list (Date * list (BillListItem Num)),
      exists settled : list (Date * BillListItem Num),
        snd (run h (App.passesInTurn familyId scans) st)
          = map (fun nb => settlement (fst nb) (default EmptyString familyId) (snd nb)) settled
        /\ Forall (fun nb => In nb (scanned scans) /\ autopayDue (fst nb) (snd nb) = true
                             /\ autopayKey (fst nb) (snd nb) ∉ fst st) settled
        /\ NoDup (map (fun nb => autopayKey (fst nb) (snd nb)) settled)).
Proof.
  split; [|split].
  - destruct (autopayEffect_spec h now familyId bills st)
      as (settled & Hsub & Hlog & Hdue & Hnd & Hfresh & Hkeys).
    exists settled. split; [exact Hsub|]. split; [exact Hlog|].
    split; [|split; [exact Hnd|exact Hkeys]].
    apply List.Forall_forall. intros b Hb.
    rewrite List.Forall_forall in Hdue, Hfresh.
    destruct (proj1 (autopayDue_true now b) (Hdue b Hb)) as (Ha & Hs & Hd).
    auto using Hfresh.
  - intros Hnc h' w' processed. subst processed.
    unfold App.autopayEffect.
    destruct (negb (truthy familyId) || (length bills =? 0)%nat) eqn:Hguard.
    + cbn. auto.
    + apply (runAutopay_idle h' now _ bills (_, w')). intros b Hb Hdue. cbn [fst].
      apply (runAutopay_complete h now _ bills Hnc st); assumption.
  - intros scans.
    destruct (passesInTurn_spec h familyId scans st)
      as (settled & Hlog & Hdue & Hnd & Hfresh & _).
    exists settled. split; [exact Hlog|]. split; [|exact Hnd].
    apply List.Forall_forall. intros nb Hnb.
    rewrite List.Forall_forall in Hdue, Hfresh.
    destruct (Hdue nb Hnb) as [Hin Hd]. auto using Hfresh.
Qed.

End AutopayInTurn.

(** Scenario D with passes in turn, on a store that rejects the write: one
    settlement for April 2024 by the first pass, none by the second. *)
Lemma scenario_D_in_turn :
  snd (run memoryStore
         (App.passesInTurn (Some "f1"%string)
            [(Samples.april5, [Samples.phone]); (Samples.april5, [Samples.phone])])
         (∅, AutopaySamples.lost))
  = [settlement Samples.april5 "f1" Samples.phone].
Proof. vm_compute. reflexivity. Qed.

Section AutopayOverlap.
Context {Num : Type} {numOps : JsNumber Num}.

(** A pass over one bill due for autopay, its key not yet processed,
    issues the settlement and waits for it with the key still unmarked. *)
Lemma advance_due_bill (now : Date) (familyId : string) (b : BillListItem Num)
    (keys : gset string) :
  familyId <> EmptyString -> autopayDue now b = true -> autopayKey now b ∉ keys ->
  Effects.advance false (App.autopayEffect now (Some familyId) [b]) keys
  = (keys, [settlement now familyId b],
     Some (Effects.AwaitingWrite
             (fun _ => AddKey (autopayKey now b) (App.runAutopay now familyId [])))).
Proof.
  intros Hfam Hdue Hkey. unfold App.autopayEffect.
  assert (Ht : truthy (Some familyId) = true) by (destruct familyId; [contradiction|reflexivity]).
  rewrite Ht. cbn [negb orb length Nat.eqb].
  change (default EmptyString (Some familyId)) with familyId.
  rewrite runAutopay_step. cbn [Effects.advance]. rewrite Hdue.
  cbn [Effects.advance]. rewrite (bool_decide_eq_false_2 _ Hkey). reflexivity.
Qed.

Lemma step_due_bill (now : Date) (familyId : string) (b : BillListItem Num)
    (s : Effects.Session Num) :
  familyId <> EmptyString -> autopayDue now b = true ->
  autopayKey now b ∉ Effects.processedKeys s ->
  Effects.step (Some familyId) s (Effects.BillsChanged now [b])
  = {| Effects.processedKeys := Effects.processedKeys s;
       Effects.inFlight :=
         Effects.cancelAll (Effects.inFlight s)
         ++ [{| Effects.cancelled := false;
                Effects.waiting :=
                  Effects.AwaitingWrite
                    (fun _ => AddKey (autopayKey now b) (App.runAutopay now familyId [])) |}];
       Effects.issued := Effects.issued s ++ [settlement now familyId b] |}.
Proof.
  intros Hfam Hdue Hkey. unfold Effects.step.
  rewrite (advance_due_bill now familyId b _ Hfam Hdue Hkey). reflexivity.
Qed.

(** When the feed delivers a list with a bill due for autopay twice
    before the first write settles, the bill is settled twice. *)
Lemma overlapping_passes_settle_twice (now : Date) (familyId : string)
    (b : BillListItem Num) :
  familyId <> EmptyString -> autopayDue now b = true ->
  Effects.issued
    (Effects.play (Some familyId)
       [Effects.BillsChanged now [b]; Effects.BillsChanged now [b]])
  = [settlement now familyId b; settlement now familyId b].
Proof.
  intros Hfam Hdue. unfold Effects.play. cbn [fold_left].
  rewrite (step_due_bill now familyId b Effects.start Hfam Hdue)
    by apply not_elem_of_empty.
  rewrite step_due_bill; [reflexivity|exact Hfam|exact Hdue|apply not_elem_of_empty].
Qed.

(** Delivered again only after the write has settled, accepted or
    rejected, the list is settled once. *)
Lemma settled_pass_then_pass_settles_once (now : Date) (familyId : string)
    (b : BillListItem Num) (ok : bool) :
  familyId <> EmptyString -> autopayDue now b = true ->
  Effects.issued
    (Effects.play (Some familyId)
       [Effects.BillsChanged now [b]; Effects.WriteSettled 0 ok;
        Effects.BillsChanged now [b]])
  = [settlement now familyId b].
Proof.
  intros Hfam Hdue. unfold Effects.play. cbn [fold_left].
  rewrite (step_due_bill now familyId b Effects.start Hfam Hdue)
    by apply not_elem_of_empty.
  cbn [Effects.step Effects.start Effects.inFlight Effects.cancelAll map app lookup
       list_lookup Effects.processedKeys Effects.issued Effects.advance App.runAutopay].
  cbn [Effects.step Effects.processedKeys Effects.issued Effects.inFlight].
  unfold App.autopayEffect.
  assert (Ht : truthy (Some familyId) = true) by (destruct familyId; [contradiction|reflexivity]).
  rewrite Ht. cbn [negb orb length Nat.eqb].
  change (default EmptyString (Some familyId)) with familyId.
  rewrite runAutopay_step. cbn [Effects.advance]. rewrite Hdue. cbn [Effects.advance].
  rewrite bool_decide_eq_true_2
    by (apply elem_of_union_l, elem_of_singleton; reflexivity).
  reflexivity.
Qed.

End AutopayOverlap.

(** C1 fails on the code when passes overlap. The feed delivers the list
    [[phone]] (monthly on the 1st, autopay on, nothing settled) on 5 April
    2024 and delivers it again before the write of the first pass has
    settled: the second pass finds the key ["b5:2024-04"] not yet processed,
    because the first pass adds it only after its await, and issues a second
    settlement for the same key in the same session. Delivered after the
    write has settled, accepted or rejected, the same list is settled once. *)
Theorem overlapping_passes_attempt_twice :
  let overlapping :=
    [Effects.BillsChanged Samples.april5 [Samples.phone];
     Effects.BillsChanged Samples.april5 [Samples.phone];
     Effects.WriteSettled 0 true; Effects.WriteSettled 0 true] in
  let inTurn :=
    [Effects.BillsChanged Samples.april5 [Samples.phone];
     Effects.WriteSettled 0 false;
     Effects.BillsChanged Samples.april5 [Samples.phone]] in
  autopayKey Samples.april5 Samples.phone = "b5:2024-04"%string
  /\ Effects.issued (Effects.play (Some "f1"%string) overlapping)
     = [settlement Samples.april5 "f1" Samples.phone;
        settlement Samples.april5 "f1" Samples.phone]
  /\ Effects.processedKeys (Effects.play (Some "f1"%string) overlapping)
     = {[ "b5:2024-04"%string ]}
  /\ Effects.inFlight (Effects.play (Some "f1"%string) overlapping) = []
  /\ Effects.issued (Effects.play (Some "f1"%string) inTurn)
     = [settlement Samples.april5 "f1" Samples.phone].
Proof.
  cbv zeta. split; [reflexivity|]. split; [|split; [|split]].
  - rewrite <- (overlapping_passes_settle_twice Samples.april5 "f1" Samples.phone);
      [|discriminate|reflexivity].
    vm_compute. reflexivity.
  - vm_compute. reflexivity.
  - vm_compute. reflexivity.
  - vm_compute. reflexivity.
Qed.

(** * Further properties of the code *)

(** ** The cells of the calendar grid *)

Section GridFacts.

Lemma ceilOfQuotient_seven (a : Z) :
  a <= BillsCalendarGrid.ceilOfQuotient a 7 * 7 < a + 7
  /\ (BillsCalendarGrid.ceilOfQuotient a 7 * 7) mod 7 = 0.
Proof.
  unfold BillsCalendarGrid.ceilOfQuotient. split.
  - Z.div_mod_to_equations. lia.
  - apply Z.mod_mul. lia.
Qed.

Lemma firstWeekday_range (view : Date) : 0 <= BillsCalendarGrid.firstWeekday view <= 6.
Proof.
  unfold BillsCalendarGrid.firstWeekday, BillsCalendarGrid.getDay.
  pose proof (Z.mod_pos_bound (Day (newDate (getFullYear view) (getMonth view) 1) + 4) 7).
  lia.
Qed.

(** Day 0 of any month is a last day of a month. *)
Lemma grid_daysInMonth_range (view : Date) : 28 <= BillsCalendarGrid.daysInMonth view <= 31.
Proof.
  unfold BillsCalendarGrid.daysInMonth, newDate. simpl Z.abs_nat. cbn [rollDay].
  destruct (Z.ltb_spec 0 1); [|lia].
  destruct (prevMonth _ _) as [y' m']. cbn [rollDay getDate].
  pose proof (daysInMonth_bounds y' m'). lia.
Qed.

Lemma arrayFrom_length {A : Type} (n : Z) (f : Z -> A) :
  length (BillsCalendarGrid.arrayFrom n f) = Z.to_nat n.
Proof. unfold BillsCalendarGrid.arrayFrom. rewrite length_map, length_seq. reflexivity. Qed.

Lemma arrayFrom_lookup {A : Type} (n : Z) (f : Z -> A) (i : nat) :
  BillsCalendarGrid.arrayFrom n f !! i
  = if decide (i < Z.to_nat n)%nat then Some (f (Z.of_nat i)) else None.
Proof.
  unfold BillsCalendarGrid.arrayFrom. rewrite list_lookup_fmap.
  destruct (decide (i < Z.to_nat n)%nat) as [Hi|Hi].
  - rewrite lookup_seq_lt by exact Hi. reflexivity.
  - rewrite lookup_seq_ge by lia. reflexivity.
Qed.

(** Where the day cells are. *)
Lemma dayCells_lookup (view : Date) (i : nat) (d : Z) :
  BillsCalendarGrid.dayCells view !! i = Some (Some d)
  <-> 1 <= d <= BillsCalendarGrid.daysInMonth view
      /\ Z.of_nat i = BillsCalendarGrid.firstWeekday view + d - 1.
Proof.
  pose proof (firstWeekday_range view) as Hw.
  pose proof (grid_daysInMonth_range view) as Hn.
  unfold BillsCalendarGrid.dayCells.
  destruct (decide (i < Z.to_nat (BillsCalendarGrid.firstWeekday view))%nat) as [Hi|Hi].
  - rewrite lookup_app_l by (rewrite arrayFrom_length; exact Hi).
    rewrite arrayFrom_lookup. destruct (decide _); [|lia].
    split; [discriminate|lia].
  - rewrite lookup_app_r by (rewrite arrayFrom_length; lia).
    rewrite arrayFrom_length.
    set (j := (i - Z.to_nat (BillsCalendarGrid.firstWeekday view))%nat).
    destruct (decide (j < Z.to_nat (BillsCalendarGrid.daysInMonth view))%nat) as [Hj|Hj].
    + rewrite lookup_app_l by (rewrite arrayFrom_length; exact Hj).
      rewrite arrayFrom_lookup. destruct (decide _); [|lia].
      split; [intros [= <-]|intros [Hd Hp]; f_equal; f_equal]; lia.
    + rewrite lookup_app_r by (rewrite arrayFrom_length; lia).
      rewrite arrayFrom_lookup. destruct (decide _); split; try discriminate; lia.
Qed.

End GridFacts.

(** X1. The grid is made of whole weeks: the cells are as many as
    [totalCells], a multiple of seven between 28 and 42; fewer than seven
    blank cells come before the first day and fewer than seven after the
    last; and the cells that hold a day are as many as the month has days. *)
Theorem dayCells_whole_weeks (view : Date) :
  Z.of_nat (length (BillsCalendarGrid.dayCells view)) = BillsCalendarGrid.totalCells view
  /\ BillsCalendarGrid.totalCells view mod 7 = 0
  /\ 28 <= BillsCalendarGrid.totalCells view <= 42
  /\ 0 <= BillsCalendarGrid.firstWeekday view <= 6
  /\ 0 <= BillsCalendarGrid.trailingBlanks view <= 6
  /\ Z.of_nat (length (List.filter (fun cell : option Z => bool_decide (is_Some cell))
                         (BillsCalendarGrid.dayCells view)))
     = BillsCalendarGrid.daysInMonth view.
Proof.
  pose proof (firstWeekday_range view) as Hw.
  pose proof (grid_daysInMonth_range view) as Hn.
  pose proof (ceilOfQuotient_seven
                (BillsCalendarGrid.firstWeekday view + BillsCalendarGrid.daysInMonth view))
    as [Hc Hm].
  fold (BillsCalendarGrid.totalCells view) in Hc, Hm.
  assert (Ht : 28 <= BillsCalendarGrid.totalCells view <= 42).
  { split; [lia|].
    assert (BillsCalendarGrid.totalCells view < 44) by lia.
    revert Hm. Z.div_mod_to_equations. lia. }
  split; [|split; [exact Hm|split; [exact Ht|split; [exact Hw|split]]]].
  - unfold BillsCalendarGrid.dayCells. rewrite !length_app, !arrayFrom_length.
    unfold BillsCalendarGrid.trailingBlanks. lia.
  - unfold BillsCalendarGrid.trailingBlanks. lia.
  - unfold BillsCalendarGrid.dayCells, BillsCalendarGrid.arrayFrom.
    rewrite !List.filter_app, !length_app.
    assert (Hnone : forall n : nat,
               List.filter (fun cell : option Z => bool_decide (is_Some cell))
                 (map (fun _ : nat => @None Z) (seq 0 n)) = []).
    { intros n. generalize 0%nat. induction n as [|n IH]; intros k; [reflexivity|].
      cbn [seq map List.filter]. rewrite bool_decide_eq_false_2 by (intros [? [=]]).
      apply IH. }
    assert (Hsome : forall n : nat,
               length (List.filter (fun cell : option Z => bool_decide (is_Some cell))
                         (map (fun i : nat => Some (Z.of_nat i + 1)) (seq 0 n))) = n).
    { intros n. generalize 0%nat. induction n as [|n IH]; intros k; [reflexivity|].
      cbn [seq map List.filter]. rewrite bool_decide_eq_true_2 by (eexists; reflexivity).
      cbn [length]. rewrite IH. reflexivity. }
    rewrite !Hnone, Hsome. cbn [length]. lia.
Qed.

Section GridDays.

Lemma getDay_of_day (y m d : Z) :
  BillsCalendarGrid.getDay (mkDate y m d)
  = (BillsCalendarGrid.getDay (mkDate y m 1) + d - 1) mod 7.
Proof.
  unfold BillsCalendarGrid.getDay, Day. cbn [getFullYear getMonth getDate].
  set (a := DayFromYear y + daysBeforeMonth y m).
  replace (a + d - 1 + 4) with ((a + 1 - 1 + 4) + (d - 1)) by lia.
  replace ((a + 1 - 1 + 4) mod 7 + d - 1) with ((a + 1 - 1 + 4) mod 7 + (d - 1)) by lia.
  rewrite Z.add_mod_idemp_l by lia. reflexivity.
Qed.

End GridDays.

(** X2. Every day of the displayed month has one cell, the cell at the
    position of its day number after the leading blanks, and no other cell
    holds a day; counted in rows of seven under the labels Sun to Sat, a
    day's cell is in the column of the weekday of that date. The number of
    day cells is the length of the displayed month in the calendar. *)
Theorem dayCells_on_their_weekdays (view : Date) :
  0 <= getMonth view <= 11 ->
  (forall (i : nat) (d : Z),
      BillsCalendarGrid.dayCells view !! i = Some (Some d)
      <-> 1 <= d <= BillsCalendarGrid.daysInMonth view
          /\ Z.of_nat i = BillsCalendarGrid.firstWeekday view + d - 1)
  /\ (forall (i : nat) (d : Z),
        BillsCalendarGrid.dayCells view !! i = Some (Some d) ->
        Z.of_nat i mod 7
        = BillsCalendarGrid.getDay (newDate (getFullYear view) (getMonth view) d)
        /\ getDate (newDate (getFullYear view) (getMonth view) d) = d
        /\ getMonth (newDate (getFullYear view) (getMonth view) d) = getMonth view)
  /\ BillsCalendarGrid.daysInMonth view
     = daysInMonth (MakeFullYear (getFullYear view)) (getMonth view)
  /\ length BillsCalendarGrid.DOW_LABELS = 7%nat.
Proof.
  intros Hm.
  assert (Hdim : BillsCalendarGrid.daysInMonth view
                 = daysInMonth (MakeFullYear (getFullYear view)) (getMonth view)).
  { unfold BillsCalendarGrid.daysInMonth. rewrite lastDay_of_month by exact Hm. reflexivity. }
  split; [intros i d; apply dayCells_lookup|].
  split; [|split; [exact Hdim|reflexivity]].
  intros i d Hcell. apply dayCells_lookup in Hcell. destruct Hcell as [Hd Hi].
  pose proof (daysInMonth_bounds (MakeFullYear (getFullYear view)) (getMonth view)) as Hb.
  rewrite newDate_inside_full by (try exact Hm; lia).
  split; [|split; reflexivity].
  unfold BillsCalendarGrid.firstWeekday in Hi.
  rewrite newDate_inside_full in Hi by (try exact Hm; lia).
  rewrite Hi. symmetry. apply getDay_of_day.
Qed.

Lemma dayCells_on_their_weekdays_witness :
  BillsCalendarGrid.dayCells MoreSamples.march2024 !! 14%nat = Some (Some 10)
  /\ BillsCalendarGrid.getDay (newDate 2024 2 10) = 0.
Proof.
  pose proof (dayCells_on_their_weekdays MoreSamples.march2024 ltac:(simpl; lia)) as [H1 [H2 _]].
  assert (Hc : BillsCalendarGrid.dayCells MoreSamples.march2024 !! 14%nat = Some (Some 10)).
  { apply H1. vm_compute. repeat split; congruence. }
  split; [exact Hc|].
  destruct (H2 14%nat 10 Hc) as [Hw _]. simpl getFullYear in Hw. simpl getMonth in Hw.
  rewrite <- Hw. reflexivity.
Defined.

(** ** The events of the calendar in their cells *)

Section CellFacts.
Context {Num : Type} {numOps : JsNumber Num}.
Variable localeCompare : string -> string -> Z.
Variables now view : Date.
Hypothesis view_month : 0 <= getMonth view <= 11.

#[local] Abbreviation viewDay :=
  (mkDate (MakeFullYear (getFullYear view)) (getMonth view)).

(** An event lies on a day of the displayed month, and its sort time is
    the time stamp of that day. *)
Lemma eventOf_day (b : BillListItem Num) (e : BillsCalendar.CalendarEvent Num) :
  BillsCalendar.eventOf now view b = Some e ->
  1 <= BillsCalendar.dayOfMonth e <= BillsCalendarGrid.daysInMonth view
  /\ BillsCalendar.sortTime e = getTime (viewDay (BillsCalendar.dayOfMonth e))
  /\ BillsCalendar.label e = BillsCalendar.labelOf b
  /\ BillsCalendar.bill e = b.
Proof.
  assert (Hdim : BillsCalendarGrid.daysInMonth view
                 = daysInMonth (MakeFullYear (getFullYear view)) (getMonth view)).
  { unfold BillsCalendarGrid.daysInMonth. rewrite lastDay_of_month by exact view_month.
    reflexivity. }
  pose proof (daysInMonth_bounds (MakeFullYear (getFullYear view)) (getMonth view)) as Hb.
  unfold BillsCalendar.eventOf. destruct (recurrence b).
  - destruct (Firestore.dayOfMonth b) as [n|]; [|discriminate].
    destruct (num_integer n) as [z|] eqn:Hz.
    + rewrite (getRecurringDueDateInViewedMonth_Some view n z view_month Hz).
      intros [= <-]. cbn [BillsCalendar.dayOfMonth BillsCalendar.sortTime getDate
                          BillsCalendar.label BillsCalendar.bill].
      rewrite Hdim. repeat split; lia.
    + unfold BillsCalendar.getRecurringDueDateInViewedMonth. rewrite Hz. discriminate.
  - destruct (negb (truthy (dueDate b))); [discriminate|].
    destruct (dueDate b) as [s|]; [|discriminate].
    destruct (parseYYYYMMDD s) as [due|] eqn:Hs; [|discriminate].
    destruct (Z.eqb_spec (getFullYear due) (getFullYear view)) as [Ey|]; [|discriminate].
    destruct (Z.eqb_spec (getMonth due) (getMonth view)) as [Em|]; [|discriminate].
    cbn [negb orb]. intros [= <-].
    cbn [BillsCalendar.dayOfMonth BillsCalendar.sortTime BillsCalendar.label
         BillsCalendar.bill].
    destruct (parseYYYYMMDD_valid s due Hs) as [[_ Hd] Hy].
    assert (Hfull : MakeFullYear (getFullYear view) = getFullYear view)
      by (apply MakeFullYear_id; lia).
    rewrite Hdim, Hfull, <- Ey, <- Em.
    split; [exact Hd|]. split; [destruct due; reflexivity|]. split; reflexivity.
Qed.

(** The list the grid holds for a day, before it is looked at cell by
    cell: the events of that day in the order of the bills, sorted. *)
Lemma eventsByDay_sorted_filter (bills : list (BillListItem Num)) (d : Z)
    (es : list (BillsCalendar.CalendarEvent Num)) :
  BillsCalendar.eventsByDay localeCompare now view bills !! d = Some es ->
  es <> []
  /\ es = sort (BillsCalendar.compareEvents localeCompare)
            (List.filter (onDay d) (omap (BillsCalendar.eventOf now view) bills)).
Proof.
  unfold BillsCalendar.eventsByDay. rewrite lookup_fmap, grouping_lookup, lookup_empty.
  destruct (List.filter (onDay d) (omap (BillsCalendar.eventOf now view) bills))
    as [|e l] eqn:Hf; [discriminate|].
  change (Some (sort (BillsCalendar.compareEvents localeCompare) (e :: l)) = Some es
          -> es <> [] /\ es = sort (BillsCalendar.compareEvents localeCompare) (e :: l)).
  generalize (sort_Permutation (BillsCalendar.compareEvents localeCompare) (e :: l)).
  generalize (sort (BillsCalendar.compareEvents localeCompare) (e :: l)).
  intros s Hp [= <-]. split; [|reflexivity].
  intros ->. apply Permutation_nil in Hp. discriminate Hp.
Qed.

Lemma eventsByDay_None (bills : list (BillListItem Num)) (d : Z) :
  BillsCalendar.eventsByDay localeCompare now view bills !! d = None ->
  List.filter (onDay d) (omap (BillsCalendar.eventOf now view) bills) = [].
Proof.
  unfold BillsCalendar.eventsByDay. rewrite lookup_fmap, grouping_lookup, lookup_empty.
  destruct (List.filter (onDay d) (omap (BillsCalendar.eventOf now view) bills));
    [reflexivity|discriminate].
Qed.

End CellFacts.

Section CellClaims.
Context {Num : Type} {numOps : JsNumber Num}.
Variable localeCompare : string -> string -> Z.

(** X3. No event falls off the grid. In a displayed month, every list the
    grid keeps for a day is not empty, belongs to a day between 1 and the
    number of day cells, so that a cell of the grid shows it, and holds
    events of that day only; and the event of every bill that has one is
    in the list of its day. *)
Theorem events_fall_on_day_cells (now view : Date) (bills : list (BillListItem Num)) :
  0 <= getMonth view <= 11 ->
  (forall d es,
      BillsCalendar.eventsByDay localeCompare now view bills !! d = Some es ->
      es <> []
      /\ 1 <= d <= BillsCalendarGrid.daysInMonth view
      /\ BillsCalendarGrid.dayCells view
           !! Z.to_nat (BillsCalendarGrid.firstWeekday view + d - 1) = Some (Some d)
      /\ Forall (fun e => BillsCalendar.dayOfMonth e = d) es)
  /\ (forall b e,
        In b bills -> BillsCalendar.eventOf now view b = Some e ->
        In e (BillsCalendarGrid.dayEvents
                (BillsCalendar.eventsByDay localeCompare now view bills)
                (Some (BillsCalendar.dayOfMonth e)))).
Proof.
  intros Hm. split.
  - intros d es Hes.
    destruct (eventsByDay_sorted_filter localeCompare now view bills d es Hes) as [Hne _].
    assert (Hall : Forall (fun e => BillsCalendar.dayOfMonth e = d
                                    /\ 1 <= d <= BillsCalendarGrid.daysInMonth view) es).
    { apply List.Forall_forall. intros e Hin.
      destruct (eventsByDay_In localeCompare now view bills d es e Hes Hin)
        as (b & _ & He & Hd).
      destruct (eventOf_day now view Hm b e He) as [Hr _]. split; [exact Hd|lia]. }
    assert (Hd : 1 <= d <= BillsCalendarGrid.daysInMonth view).
    { destruct es as [|e es']; [contradiction|].
      apply List.Forall_inv in Hall. apply Hall. }
    split; [exact Hne|]. split; [exact Hd|]. split.
    + apply dayCells_lookup. pose proof (firstWeekday_range view). split; [exact Hd|lia].
    + revert Hall. apply List.Forall_impl. intros e [He _]. exact He.
  - intros b e Hin He.
    pose proof (eventsByDay_lookup localeCompare now view bills (BillsCalendar.dayOfMonth e))
      as Hp.
    unfold BillsCalendarGrid.dayEvents.
    apply (Permutation_in _ (Permutation_sym Hp)).
    apply filter_In. split.
    + apply list_elem_of_In, list_elem_of_omap. exists b.
      split; [apply list_elem_of_In; exact Hin|exact He].
    + unfold onDay. apply Z.eqb_refl.
Qed.

(** X4. Inside a day, the events are in the order of their labels: of two
    events of the same day's list, both carry the time stamp of that day,
    and the label of the earlier one does not compare after the label of
    the later one, for a comparison of labels that orders them. A label
    is the name of the bill, a bullet and the amount with two decimals. *)
Theorem day_events_in_label_order (now view : Date) (bills : list (BillListItem Num)) :
  ordersNames localeCompare ->
  0 <= getMonth view <= 11 ->
  forall d es (i j : nat) (a b : BillsCalendar.CalendarEvent Num),
    BillsCalendar.eventsByDay localeCompare now view bills !! d = Some es ->
    (i < j)%nat -> es !! i = Some a -> es !! j = Some b ->
    BillsCalendar.sortTime a = BillsCalendar.sortTime b
    /\ localeCompare (BillsCalendar.label a) (BillsCalendar.label b) <= 0
    /\ BillsCalendar.label a
       = (name (BillsCalendar.bill a) ++ " • $" ++ num_toFixed2 (amount (BillsCalendar.bill a)))%string.
Proof.
  intros [Hanti Htrans] Hm d es i j a b Hes Hij Hi Hj.
  assert (Hof : forall k e, es !! k = Some e ->
             BillsCalendar.sortTime e
             = getTime (mkDate (MakeFullYear (getFullYear view)) (getMonth view) d)
             /\ BillsCalendar.label e
                = (name (BillsCalendar.bill e) ++ " • $"
                   ++ num_toFixed2 (amount (BillsCalendar.bill e)))%string).
  { intros k e Hk.
    assert (Hin : In e es) by (apply list_elem_of_In, list_elem_of_lookup; exists k; exact Hk).
    destruct (eventsByDay_In localeCompare now view bills d es e Hes Hin)
      as (b0 & _ & He & Hd).
    destruct (eventOf_day now view Hm b0 e He) as (_ & Ht & Hl & Hb).
    rewrite Ht, Hd, Hl, Hb. split; reflexivity. }
  destruct (Hof i a Hi) as [Ha Hla]. destruct (Hof j b Hj) as [Hb _].
  split; [congruence|]. split; [|exact Hla].
  destruct (eventsByDay_sorted_filter localeCompare now view bills d es Hes) as [_ ->].
  pose (le := fun x y : BillsCalendar.CalendarEvent Num =>
                BillsCalendar.sortTime x < BillsCalendar.sortTime y
                \/ (BillsCalendar.sortTime x = BillsCalendar.sortTime y
                    /\ localeCompare (BillsCalendar.label x) (BillsCalendar.label y) <= 0)).
  assert (Hsorted : StronglySorted le
            (sort (BillsCalendar.compareEvents localeCompare)
               (List.filter (onDay d) (omap (BillsCalendar.eventOf now view) bills)))).
  { apply sort_sorted.
    - intros x y z [Hxy|[Hxy Lxy]] [Hyz|[Hyz Lyz]]; unfold le.
      + left. lia.
      + left. lia.
      + left. lia.
      + right. split; [lia|]. apply (Htrans _ _ _ Lxy Lyz).
    - intros x y. unfold BillsCalendar.compareEvents, le.
      destruct (Z.eqb_spec (BillsCalendar.sortTime x) (BillsCalendar.sortTime y));
        cbn [negb ext_pos]; intros Hp; apply Z.ltb_ge in Hp; [right; split; lia|left; lia].
    - intros x y. unfold BillsCalendar.compareEvents, le.
      destruct (Z.eqb_spec (BillsCalendar.sortTime x) (BillsCalendar.sortTime y));
        cbn [negb ext_pos]; intros Hp; apply Z.ltb_lt in Hp.
      + right. split; [lia|]. apply Hanti. exact Hp.
      + left. lia. }
  destruct (StronglySorted_lookup _ _ Hsorted i j a b Hij Hi Hj) as [Hlt|[_ Hle]];
    [lia|exact Hle].
Qed.

(** X5. A cell shows at most three chips and counts the rest: the chips
    shown are the first three events of the day's list, the count after
    them is the number of the others, it is positive exactly when the day
    has more than three events, and chips and count together are as many
    as the bills that have an event on that day. A blank cell shows
    nothing. *)
Theorem cell_shows_three_and_counts_the_rest (now view : Date)
    (bills : list (BillListItem Num)) (d : Z) :
  let all := BillsCalendarGrid.dayEvents
               (BillsCalendar.eventsByDay localeCompare now view bills) (Some d) in
  let shown := BillsCalendarGrid.visibleEvents all in
  (length shown <= 3)%nat
  /\ shown ++ drop 3 all = all
  /\ BillsCalendarGrid.hiddenCount all = Z.of_nat (length (drop 3 all))
  /\ (0 < BillsCalendarGrid.hiddenCount all <-> (3 < length all)%nat)
  /\ Z.of_nat (length shown) + BillsCalendarGrid.hiddenCount all
     = Z.of_nat (length (List.filter (onDay d)
                           (omap (BillsCalendar.eventOf now view) bills)))
  /\ BillsCalendarGrid.dayEvents
       (BillsCalendar.eventsByDay localeCompare now view bills) None = [].
Proof.
  cbv zeta. set (all := BillsCalendarGrid.dayEvents _ (Some d)).
  unfold BillsCalendarGrid.hiddenCount, BillsCalendarGrid.visibleEvents.
  rewrite length_take, length_drop.
  assert (Hlen : length all
                 = length (List.filter (onDay d)
                             (omap (BillsCalendar.eventOf now view) bills))).
  { apply Permutation_length. unfold all, BillsCalendarGrid.dayEvents.
    apply eventsByDay_lookup. }
  split; [lia|]. split; [apply take_drop|]. split; [lia|]. split; [lia|].
  split; [lia|reflexivity].
Qed.

End CellClaims.

Lemma events_fall_on_day_cells_witness :
  exists e,
    BillsCalendar.eventOf Samples.march10 MoreSamples.march2024 Samples.plumber = Some e
    /\ In e (BillsCalendarGrid.dayEvents
               (BillsCalendar.eventsByDay byteCompare Samples.march10 MoreSamples.march2024
                  [Samples.rent; Samples.plumber])
               (Some 5)).
Proof.
  eexists. split; [reflexivity|].
  apply (proj2 (events_fall_on_day_cells byteCompare Samples.march10 MoreSamples.march2024
                  [Samples.rent; Samples.plumber] ltac:(simpl; lia)) Samples.plumber).
  - right. left. reflexivity.
  - reflexivity.
Defined.

Lemma day_events_in_label_order_witness :
  byteCompare "Phone • $40.00" "Power • $80.00" <= 0.
Proof.
  pose (early := Samples.mkBill "b11" "Power" 80 None unpaid monthly (Some 1) None false).
  assert (Hes : exists es a b,
             BillsCalendar.eventsByDay byteCompare Samples.march10 MoreSamples.march2024
               [early; Samples.phone] !! 1 = Some es
             /\ es !! 0%nat = Some a /\ es !! 1%nat = Some b
             /\ BillsCalendar.label a = "Phone • $40.00"%string
             /\ BillsCalendar.label b = "Power • $80.00"%string).
  { eexists; eexists; eexists. split; [vm_compute; reflexivity|].
    split; [reflexivity|]. split; [reflexivity|]. split; reflexivity. }
  destruct Hes as (es & a & b & Hes & Ha & Hb & La & Lb).
  destruct (day_events_in_label_order byteCompare Samples.march10 MoreSamples.march2024
              [early; Samples.phone] byteCompare_ordersNames ltac:(simpl; lia)
              1 es 0%nat 1%nat a b Hes ltac:(lia) Ha Hb) as (_ & Hl & _).
  rewrite La, Lb in Hl. exact Hl.
Defined.

(** ** Numbers as texts, and the period of a month *)

Section NumberTexts.

Lemma digitChar_digit (d : Z) :
  0 <= d <= 9 -> isDigit (digitChar d) = true /\ digitValue (digitChar d) = d.
Proof.
  intros Hd.
  assert (Hc : d = 0 \/ d = 1 \/ d = 2 \/ d = 3 \/ d = 4 \/ d = 5 \/ d = 6 \/ d = 7 \/ d = 8
               \/ d = 9) by lia.
  destruct Hc as [->|[->|[->|[->|[->|[->|[->|[->|[->| ->]]]]]]]]]; split; reflexivity.
Qed.

(** Reading the digits [digitsOf] writes gives the number back. *)
Lemma digitsOf_value (fuel : nat) : forall n,
  0 <= n < 2 ^ Z.of_nat fuel ->
  exists p, forall a acc, digitsValue a (digitsOf fuel n acc) = digitsValue (a * p + n) acc.
Proof.
  induction fuel as [|k IH]; intros n Hn.
  - exists 1. intros a acc. simpl in *. f_equal. lia.
  - rewrite Nat2Z.inj_succ, Z.pow_succ_r in Hn by lia.
    cbn [digitsOf]. destruct (Z.ltb_spec n 10) as [Hlt|Hge].
    + exists 10. intros a acc. rewrite Z.mod_small by lia.
      destruct (digitChar_digit n ltac:(lia)) as [Hd Hv].
      cbn [digitsValue]. rewrite Hd, Hv. f_equal. lia.
    + destruct (IH (n / 10)) as [p Hp].
      { split; [apply Z.div_pos; lia|]. apply Z.div_lt_upper_bound; lia. }
      exists (10 * p). intros a acc. rewrite Hp.
      pose proof (Z.mod_pos_bound n 10 ltac:(lia)) as Hb.
      destruct (digitChar_digit (n mod 10) ltac:(lia)) as [Hd Hv].
      cbn [digitsValue]. rewrite Hd, Hv. f_equal.
      pose proof (Z.div_mod n 10 ltac:(lia)). lia.
Qed.

(** [Number(String(n))] is [n]. *)
Lemma Number_numToString (n : Z) : 0 <= n -> Number (numToString n) = Some n.
Proof.
  intros Hn. unfold Number, numToString. destruct (Z.ltb_spec n 0); [lia|].
  destruct (digitsOf_value (S (Z.to_nat (Z.log2 n))) n) as [p Hp].
  { split; [exact Hn|]. rewrite Nat2Z.inj_succ, Z2Nat.id by apply Z.log2_nonneg.
    destruct (Z.eq_dec n 0) as [->|Hz]; [reflexivity|].
    apply Z.log2_spec. lia. }
  rewrite Hp. reflexivity.
Qed.

Lemma numToString_negative (n : Z) :
  n < 0 -> numToString n = String "-" (numToString (- n)).
Proof.
  intros Hn. unfold numToString.
  destruct (Z.ltb_spec n 0); [|lia]. destruct (Z.ltb_spec (- n) 0); [lia|]. reflexivity.
Qed.

Lemma numToString_inj (a b : Z) : numToString a = numToString b -> a = b.
Proof.
  intros H. destruct (Z.lt_ge_cases a 0) as [Ha|Ha]; destruct (Z.lt_ge_cases b 0) as [Hb|Hb].
  - rewrite (numToString_negative a Ha), (numToString_negative b Hb) in H.
    injection H as H. apply (f_equal Number) in H.
    rewrite !Number_numToString in H by lia. injection H as H. lia.
  - rewrite (numToString_negative a Ha) in H. apply (f_equal Number) in H.
    rewrite (Number_numToString b Hb) in H. discriminate H.
  - rewrite (numToString_negative b Hb) in H. apply (f_equal Number) in H.
    rewrite (Number_numToString a Ha) in H. discriminate H.
  - apply (f_equal Number) in H. rewrite !Number_numToString in H by lia.
    injection H as H. exact H.
Qed.

(** The two characters of the month of a period. *)
Lemma month_text (m : Z) :
  0 <= m <= 11 ->
  exists c1 c2, padStart2 (numToString (m + 1)) = String c1 (String c2 EmptyString)
                /\ isDigit c1 = true /\ isDigit c2 = true
                /\ 10 * digitValue c1 + digitValue c2 = m + 1.
Proof.
  intros Hm.
  assert (Hc : m = 0 \/ m = 1 \/ m = 2 \/ m = 3 \/ m = 4 \/ m = 5 \/ m = 6 \/ m = 7 \/ m = 8
               \/ m = 9 \/ m = 10 \/ m = 11) by lia.
  destruct Hc as [->|[->|[->|[->|[->|[->|[->|[->|[->|[->|[->| ->]]]]]]]]]]];
    eexists; eexists; (split; [reflexivity|split; [reflexivity|split; reflexivity]]).
Qed.

Lemma length_append (a b : string) :
  String.length (a ++ b)%string = (String.length a + String.length b)%nat.
Proof. induction a as [|x a IH]; [reflexivity|]. simpl. f_equal. exact IH. Qed.

Lemma append_inj_tail (a b c d : string) :
  String.length c = String.length d -> (a ++ c)%string = (b ++ d)%string -> a = b /\ c = d.
Proof.
  revert b. induction a as [|x a IH]; intros b Hlen H.
  - destruct b as [|y b]; [split; [reflexivity|exact H]|].
    exfalso. apply (f_equal String.length) in H.
    rewrite !length_append in H. simpl in H. lia.
  - destruct b as [|y b].
    + exfalso. apply (f_equal String.length) in H.
      rewrite !length_append in H. simpl in H. lia.
    + simpl in H. injection H as -> H. destruct (IH b Hlen H) as [-> ->]. split; reflexivity.
Qed.

(** Two months have the same period text only when they are the same
    month of the same year. *)
Lemma getYYYYMM_inj (a b : Date) :
  0 <= getMonth a <= 11 -> 0 <= getMonth b <= 11 ->
  getYYYYMM a = getYYYYMM b -> getFullYear a = getFullYear b /\ getMonth a = getMonth b.
Proof.
  intros Ha Hb H. unfold getYYYYMM in H.
  destruct (month_text (getMonth a) Ha) as (a1 & a2 & Ea & _ & _ & Va).
  destruct (month_text (getMonth b) Hb) as (b1 & b2 & Eb & _ & _ & Vb).
  rewrite Ea, Eb in H.
  apply append_inj_tail in H; [|reflexivity].
  destruct H as [Hy Hm]. injection Hm as -> ->.
  split; [apply numToString_inj; exact Hy|lia].
Qed.

End NumberTexts.

(** ** The dashboard and the calendar on the same bill *)

Section RowAndChip.
Context {Num : Type} {numOps : JsNumber Num}.

(** The view the calendar opens on is the first day of the month of
    "now", and its period is the current period of the dashboard. *)
Lemma initialView_now (now : Date) :
  validDate now -> ~ (0 <= getFullYear now <= 99) ->
  BillsCalendar.initialView now = mkDate (getFullYear now) (getMonth now) 1
  /\ getYYYYMM (BillsCalendar.initialView now) = App.currentYYYYMM now
  /\ startOfDay now = now.
Proof.
  intros Hv Hy. destruct Hv as [Hm Hd].
  assert (Hi : BillsCalendar.initialView now = mkDate (getFullYear now) (getMonth now) 1).
  { unfold BillsCalendar.initialView. apply newDate_inside; [exact Hy|exact Hm|].
    pose proof (daysInMonth_bounds (getFullYear now) (getMonth now)). lia. }
  split; [exact Hi|]. split; [rewrite Hi; reflexivity|].
  apply startOfDay_id; [split; assumption|exact Hy].
Qed.

(** X6. In the month of today the dashboard and the calendar say the same
    of a bill: for "now" a date of the calendar in a year outside 0..99,
    the badge of the row of a bill is PAID, OVERDUE or UNPAID exactly as
    the chip of that bill's event, in the view the calendar opens on, is
    paid, overdue or unpaid. *)
Theorem badge_agrees_with_chip (now : Date) (b : BillListItem Num)
    (e : BillsCalendar.CalendarEvent Num) :
  validDate now -> ~ (0 <= getFullYear now <= 99) ->
  BillsCalendar.eventOf now (BillsCalendar.initialView now) b = Some e ->
  AppBillRow.badgeLabel now b
  = match BillsCalendar.status e with
    | chipPaid => "PAID"%string
    | chipOverdue => "OVERDUE"%string
    | chipUnpaid => "UNPAID"%string
    end.
Proof.
  intros Hv Hy. destruct (initialView_now now Hv Hy) as (Hi & Hp & Hs).
  unfold BillsCalendar.eventOf. rewrite Hp, Hs, Hi. cbn [getFullYear getMonth].
  unfold AppBillRow.badgeLabel, App.isOverdue, App.getDerivedStatus, App.resolvedDueDate,
    App.todayStart. rewrite Hs.
  destruct (recurrence b).
  - change (BillsCalendar.getRecurringDueDateInViewedMonth (getFullYear now) (getMonth now)
              (Firestore.dayOfMonth b))
      with (App.getRecurringDueDateInCurrentMonth now (Firestore.dayOfMonth b)).
    destruct (App.getRecurringDueDateInCurrentMonth now (Firestore.dayOfMonth b)) as [due|];
      [|discriminate].
    intros [= <-]. cbn [BillsCalendar.status].
    assert (Hf : BillsCalendar.isMonthInFuture (getFullYear now) (getMonth now)
                   (getFullYear now) (getMonth now) = false).
    { unfold BillsCalendar.isMonthInFuture.
      rewrite !Z.gtb_ltb, !Z.ltb_irrefl, andb_false_r. reflexivity. }
    rewrite Hf. unfold BillsCalendar.chipOf.
    destruct (strictEq (paidForMonth b) (App.currentYYYYMM now));
      cbn [negb andb BillStatus_eqb]; [reflexivity|].
    destruct (getTime (startOfDay due) <? getTime now); reflexivity.
  - destruct (truthy (dueDate b)); cbn [negb]; [|discriminate].
    destruct (match dueDate b with Some s => parseYYYYMMDD s | None => None end) as [due|];
      [|discriminate].
    destruct (negb (getFullYear due =? getFullYear now) || negb (getMonth due =? getMonth now));
      [discriminate|].
    intros [= <-]. cbn [BillsCalendar.status]. unfold BillsCalendar.chipOf.
    destruct (Firestore.status b); cbn [negb andb BillStatus_eqb]; [|reflexivity].
    destruct (getTime (startOfDay due) <? getTime now); reflexivity.
Qed.

(** X7. The period of a month names that month alone, so a monthly bill
    is settled for one month at a time: two displayed months have the
    same period text only if they are the same month of the same year,
    and if the chip of a monthly bill is paid in two displayed months,
    these are the same month. *)
Theorem chip_paid_in_one_month_only (v1 v2 : Date) :
  0 <= getMonth v1 <= 11 -> 0 <= getMonth v2 <= 11 ->
  (getYYYYMM v1 = getYYYYMM v2
   <-> getFullYear v1 = getFullYear v2 /\ getMonth v1 = getMonth v2)
  /\ (forall (now : Date) (b : BillListItem Num) (e1 e2 : BillsCalendar.CalendarEvent Num),
        recurrence b = monthly ->
        BillsCalendar.eventOf now v1 b = Some e1 ->
        BillsCalendar.eventOf now v2 b = Some e2 ->
        BillsCalendar.status e1 = chipPaid -> BillsCalendar.status e2 = chipPaid ->
        getFullYear v1 = getFullYear v2 /\ getMonth v1 = getMonth v2).
Proof.
  intros H1 H2. split.
  - split; [apply getYYYYMM_inj; assumption|].
    intros [Hy Hm]. unfold getYYYYMM. rewrite Hy, Hm. reflexivity.
  - intros now b e1 e2 Hrec He1 He2 Hp1 Hp2.
    apply (proj1 (eventOf_status_paid now v1 b e1 He1) Hrec) in Hp1.
    apply (proj1 (eventOf_status_paid now v2 b e2 He2) Hrec) in Hp2.
    apply getYYYYMM_inj; [exact H1|exact H2|congruence].
Qed.

End RowAndChip.

Lemma badge_agrees_with_chip_witness :
  AppBillRow.badgeLabel Samples.march10 Samples.plumber = "OVERDUE"%string.
Proof.
  assert (He : exists e,
             BillsCalendar.eventOf Samples.march10 (BillsCalendar.initialView Samples.march10)
               Samples.plumber = Some e
             /\ BillsCalendar.status e = chipOverdue).
  { eexists. split; [vm_compute; reflexivity|reflexivity]. }
  destruct He as (e & He & Hs).
  rewrite (badge_agrees_with_chip Samples.march10 Samples.plumber e
             ltac:(split; vm_compute; split; discriminate) ltac:(simpl; lia) He).
  rewrite Hs. reflexivity.
Defined.

Lemma chip_paid_in_one_month_only_witness :
  getYYYYMM MoreSamples.march2024 <> getYYYYMM MoreSamples.april2024.
Proof.
  intros H.
  destruct (proj1 (proj1 (chip_paid_in_one_month_only (Num:=Z) MoreSamples.march2024
                            MoreSamples.april2024 ltac:(simpl; lia) ltac:(simpl; lia))) H)
    as [_ Hm].
  discriminate Hm.
Defined.

(** ** The totals of the dashboard *)

Section MoreTotals.
Context {Num : Type} {numOps : JsNumber Num}.

Lemma totalsStep_paid (now : Date) (t : App.Totals Num) (b : BillListItem Num) :
  App.paidThisMonthTotal (App.totalsStep now t b)
  = if paidThisMonth now b then num_add (App.paidThisMonthTotal t) (amount b)
    else App.paidThisMonthTotal t.
Proof.
  unfold App.totalsStep, paidThisMonth, oneTimeDueThisMonth. cbn [App.paidThisMonthTotal].
  destruct (recurrence b).
  - reflexivity.
  - cbn [negb andb]. unfold App.nowMonth, App.nowYear.
    destruct (dueDate b) as [[|c r]|]; cbn [truthy]; try reflexivity.
    destruct (parseYYYYMMDD (String c r)) as [dt|]; [|reflexivity].
    destruct ((getMonth dt =? getMonth now) && (getFullYear dt =? getFullYear now));
      [|reflexivity].
    destruct (status b); reflexivity.
Qed.

Lemma totalsStep_overdue (now : Date) (t : App.Totals Num) (b : BillListItem Num) :
  App.overdueTotal (App.totalsStep now t b)
  = if App.isOverdue now b then num_add (App.overdueTotal t) (amount b)
    else App.overdueTotal t.
Proof. reflexivity. Qed.

Lemma totals_fold (now : Date) (bills : list (BillListItem Num)) :
  forall t : App.Totals Num,
    App.paidThisMonthTotal (fold_left (App.totalsStep now) bills t)
    = fold_left (fun acc b => if paidThisMonth now b then num_add acc (amount b) else acc)
        bills (App.paidThisMonthTotal t)
    /\ App.overdueTotal (fold_left (App.totalsStep now) bills t)
       = fold_left (fun acc b => if App.isOverdue now b then num_add acc (amount b) else acc)
           bills (App.overdueTotal t).
Proof.
  induction bills as [|b bs IH]; intros t; [split; reflexivity|].
  cbn [fold_left]. destruct (IH (App.totalsStep now t b)) as [Hp Ho].
  rewrite Hp, Ho, totalsStep_paid, totalsStep_overdue. split; reflexivity.
Qed.

Lemma isOverdue_unpaid (now : Date) (b : BillListItem Num) :
  App.isOverdue now b = true -> derivedUnpaid now b = true.
Proof.
  unfold App.isOverdue, derivedUnpaid.
  destruct (BillStatus_eqb _ unpaid); [reflexivity|discriminate].
Qed.

Lemma paidThisMonth_paid (now : Date) (b : BillListItem Num) :
  paidThisMonth now b = true -> derivedPaid now b = true.
Proof.
  unfold paidThisMonth, derivedPaid, App.getDerivedStatus. destruct (recurrence b).
  - intros ->. reflexivity.
  - rewrite andb_true_iff. intros [_ H]. exact H.
Qed.

Lemma derived_paid_or_unpaid (now : Date) (b : BillListItem Num) :
  derivedPaid now b = negb (derivedUnpaid now b).
Proof.
  unfold derivedPaid, derivedUnpaid.
  destruct (App.getDerivedStatus (App.currentYYYYMM now) b); reflexivity.
Qed.

(** X8. The two other totals of the summary are sums over the bill list:
    paid this month is the sum of the amounts of the monthly bills settled
    for the current period and of the one-time bills due this month whose
    stored status is paid; the overdue total is the sum of the amounts of
    the overdue bills. A bill counted as paid is derived paid and a bill
    counted as overdue is derived unpaid, so no bill is in both. *)
Theorem paid_and_overdue_totals (now : Date) (bills : list (BillListItem Num)) :
  App.paidThisMonthTotal (App.totals now bills)
    = sumAmounts (List.filter (paidThisMonth now) bills)
  /\ App.overdueTotal (App.totals now bills)
     = sumAmounts (List.filter (App.isOverdue now) bills)
  /\ (forall b : BillListItem Num,
        paidThisMonth now b = true ->
        App.getDerivedStatus (App.currentYYYYMM now) b = paid)
  /\ (forall b : BillListItem Num,
        App.isOverdue now b = true ->
        App.getDerivedStatus (App.currentYYYYMM now) b = unpaid)
  /\ (forall b : BillListItem Num,
        paidThisMonth now b = true -> App.isOverdue now b = false).
Proof.
  unfold App.totals, sumAmounts.
  destruct (totals_fold now bills
              {| App.dueThisMonthTotal := num_zero; App.paidThisMonthTotal := num_zero;
                 App.overdueTotal := num_zero |}) as [Hp Ho].
  rewrite Hp, Ho. cbn [App.paidThisMonthTotal App.overdueTotal].
  split; [apply fold_left_filter|]. split; [apply fold_left_filter|].
  assert (Hpaid : forall b : BillListItem Num,
             paidThisMonth now b = true ->
             App.getDerivedStatus (App.currentYYYYMM now) b = paid).
  { intros b H. apply paidThisMonth_paid in H. unfold derivedPaid in H.
    apply BillStatus_eqb_eq in H. exact H. }
  assert (Hover : forall b : BillListItem Num,
             App.isOverdue now b = true ->
             App.getDerivedStatus (App.currentYYYYMM now) b = unpaid).
  { intros b H. apply isOverdue_unpaid in H. unfold derivedUnpaid in H.
    apply BillStatus_eqb_eq in H. exact H. }
  split; [exact Hpaid|]. split; [exact Hover|].
  intros b H. destruct (App.isOverdue now b) eqn:E; [|reflexivity].
  apply Hpaid in H. apply Hover in E. congruence.
Qed.

End MoreTotals.

Section OrderedTotals.
Context {Num : Type} {numOps : JsNumber Num}.
Variable le : Num -> Num -> Prop.
Hypothesis le_refl : forall a, le a a.
Hypothesis le_trans : forall a b c, le a b -> le b c -> le a c.
Hypothesis add_monotone : forall a b c, le a b -> le (num_add a c) (num_add b c).
Hypothesis add_grows : forall a c, le num_zero c -> le a (num_add a c).

Lemma totalsStep_keeps_order (now : Date) (t : App.Totals Num) (b : BillListItem Num) :
  le num_zero (amount b) ->
  (recurrence b = monthly -> dayOfMonth b ≫= num_integer <> None) ->
  le (App.paidThisMonthTotal t) (App.dueThisMonthTotal t) ->
  le (App.paidThisMonthTotal (App.totalsStep now t b))
     (App.dueThisMonthTotal (App.totalsStep now t b)).
Proof.
  intros Ha Hday Hle. rewrite totalsStep_paid, totalsStep_due.
  unfold paidThisMonth, dueThisMonth. destruct (recurrence b).
  - destruct (dayOfMonth b ≫= num_integer); [|exfalso; apply Hday; reflexivity].
    destruct (strictEq _ _).
    + apply add_monotone. exact Hle.
    + apply (le_trans _ _ _ Hle). apply add_grows. exact Ha.
  - destruct (oneTimeDueThisMonth now b); cbn [andb]; [|exact Hle].
    destruct (BillStatus_eqb (status b) paid).
    + apply add_monotone. exact Hle.
    + apply (le_trans _ _ _ Hle). apply add_grows. exact Ha.
Qed.

(** X9. Paid this month never exceeds due this month, whenever no amount
    is negative and every monthly bill has a day of month that is an
    integer: for an order of the numbers that addition respects (as that
    of the floating-point numbers does), the paid total is at most the due
    total. *)
Theorem paid_is_at_most_due (now : Date) (bills : list (BillListItem Num)) :
  (forall b, In b bills -> le num_zero (amount b)) ->
  (forall b, In b bills -> recurrence b = monthly -> dayOfMonth b ≫= num_integer <> None) ->
  le (App.paidThisMonthTotal (App.totals now bills))
     (App.dueThisMonthTotal (App.totals now bills)).
Proof.
  unfold App.totals.
  assert (Hgen : forall (l : list (BillListItem Num)) (t : App.Totals Num),
             (forall b, In b l -> le num_zero (amount b)) ->
             (forall b, In b l -> recurrence b = monthly ->
                        dayOfMonth b ≫= num_integer <> None) ->
             le (App.paidThisMonthTotal t) (App.dueThisMonthTotal t) ->
             le (App.paidThisMonthTotal (fold_left (App.totalsStep now) l t))
                (App.dueThisMonthTotal (fold_left (App.totalsStep now) l t))).
  { induction l as [|b l IH]; intros t Ha Hd Hle; [exact Hle|].
    cbn [fold_left]. apply IH.
    - intros b' Hin. apply Ha. right. exact Hin.
    - intros b' Hin. apply Hd. right. exact Hin.
    - apply totalsStep_keeps_order; [apply Ha; left; reflexivity| |exact Hle].
      apply Hd. left. reflexivity. }
  intros Ha Hd. apply Hgen; [exact Ha|exact Hd|]. apply le_refl.
Qed.

End OrderedTotals.

Lemma paid_is_at_most_due_witness :
  App.paidThisMonthTotal (App.totals Samples.march10 [Samples.rent; Samples.power; Samples.plumber])
  <= App.dueThisMonthTotal (App.totals Samples.march10 [Samples.rent; Samples.power; Samples.plumber]).
Proof.
  apply (paid_is_at_most_due (numOps:=Z_JsNumber) Z.le Z.le_refl Z.le_trans
           ltac:(intros a b c H; simpl; lia) ltac:(intros a c H; simpl in *; lia)
           Samples.march10 [Samples.rent; Samples.power; Samples.plumber]).
  - intros b [<-|[<-|[<-|[]]]]; simpl; lia.
  - intros b [<-|[<-|[<-|[]]]] Hrec; try discriminate Hrec; vm_compute; discriminate.
Defined.

Section EarlierTotals.
Context {Num : Type} {numOps : JsNumber Num}.
Variable localeCompare : string -> string -> Z.

Lemma filter_split_Permutation {A : Type} (p : A -> bool) (l : list A) :
  Permutation (List.filter p l ++ List.filter (fun x => negb (p x)) l) l.
Proof.
  induction l as [|x l IH]; [reflexivity|]. cbn [List.filter]. destruct (p x); cbn [negb].
  - cbn [app]. constructor. exact IH.
  - apply Permutation_sym, Permutation_cons_app, Permutation_sym. exact IH.
Qed.

(** X10. The totals of the earlier summary split the bills in two: the
    unpaid total is the sum, over the sorted view, of the bills derived
    unpaid and the paid total that of the bills derived paid; every bill
    of the list is in exactly one of the two groups; and the overdue
    total is the sum over the overdue bills, each of which is in the
    unpaid group. *)
Theorem earlier_totals_split (now : Date) (bills : list (BillListItem Num)) :
  let sorted := App.sortedBills localeCompare now bills in
  AppEarlierSummary.unpaidTotal localeCompare now bills
    = sumAmounts (List.filter (derivedUnpaid now) sorted)
  /\ AppEarlierSummary.paidTotal localeCompare now bills
     = sumAmounts (List.filter (derivedPaid now) sorted)
  /\ AppEarlierSummary.overdueTotal localeCompare now bills
     = sumAmounts (List.filter (App.isOverdue now) sorted)
  /\ Permutation
       (List.filter (derivedUnpaid now) sorted ++ List.filter (derivedPaid now) sorted) bills
  /\ (forall b : BillListItem Num, derivedUnpaid now b = true -> derivedPaid now b = false)
  /\ (forall b, In b (List.filter (App.isOverdue now) sorted)
                -> In b (List.filter (derivedUnpaid now) sorted)).
Proof.
  cbv zeta.
  split; [apply fold_left_filter|]. split; [apply fold_left_filter|].
  split; [apply fold_left_filter|]. split; [|split].
  - transitivity (App.sortedBills localeCompare now bills); [|apply sort_Permutation].
    rewrite (List.filter_ext (derivedPaid now) (fun b => negb (derivedUnpaid now b)))
      by (intros b; apply derived_paid_or_unpaid).
    apply filter_split_Permutation.
  - intros b H. rewrite derived_paid_or_unpaid, H. reflexivity.
  - intros b Hin. apply filter_In in Hin. destruct Hin as [Hin Ho].
    apply filter_In. split; [exact Hin|]. apply isOverdue_unpaid. exact Ho.
Qed.

End EarlierTotals.

(** ** Documents written and read back *)

Section DocFacts.
Context {Num : Type} {numOps : JsNumber Num}.

Lemma field_insert (m : gmap string (JsValue Num)) (k k' : string) (v : JsValue Num) :
  field (<[k := v]> m) k' = if String.eqb k k' then v else field m k'.
Proof.
  unfold field. destruct (String.eqb_spec k k') as [->|Hne].
  - rewrite lookup_insert_eq. reflexivity.
  - rewrite lookup_insert_ne by exact Hne. reflexivity.
Qed.

Lemma field_empty (k : string) : field (∅ : gmap string (JsValue Num)) k = JUndefined.
Proof. reflexivity. Qed.

Lemma field_union (m1 m2 : gmap string (JsValue Num)) (k : string) :
  field (m1 ∪ m2) k = match m1 !! k with Some v => v | None => field m2 k end.
Proof.
  unfold field. rewrite lookup_union. destruct (m1 !! k), (m2 !! k); reflexivity.
Qed.

Lemma union_lookup (m1 m2 : gmap string (JsValue Num)) (k : string) :
  (m1 ∪ m2) !! k = match m1 !! k with Some v => Some v | None => m2 !! k end.
Proof. rewrite lookup_union. destruct (m1 !! k), (m2 !! k); reflexivity. Qed.

(** Writing a field a document already holds with that value, merged,
    leaves the document as it is. *)
Lemma merge_same_field (k : string) (v : JsValue Num) (data : gmap string (JsValue Num)) :
  data !! k = Some v -> <[k := v]> ∅ ∪ data = data.
Proof.
  intros H. rewrite <- insert_union_l, (left_id_L ∅ (∪)). apply insert_id. exact H.
Qed.

End DocFacts.

Section DocClaims.
Context {Num : Type} {numOps : JsNumber Num}.

Import FirestoreDocs.

(** X12. A bill that [addBill] has written is read back by the feed as
    the bill given: under the new identifier, with the name and the
    amount given, unpaid and settled for no period, so derived unpaid for
    every period; a monthly bill with its day of month and no due date, a
    one-time bill with the due date trimmed, or none when that is blank.
    No other document of the database is touched. *)
Theorem added_bill_reads_back (newId familyId uid : string) (bill : BillInput Num)
    (db : Db Num) :
  fst (addBill newId familyId uid bill db) = Resolved tt ->
  exists item,
    billItem familyId newId (snd (addBill newId familyId uid bill db)) = Some item
    /\ id item = newId
    /\ status item = unpaid /\ paidForMonth item = None
    /\ (forall period, App.getDerivedStatus period item = unpaid)
    /\ match bill with
       | RecurringBillInput name amount dayOfMonth =>
           Firestore.name item = name /\ Firestore.amount item = amount
           /\ recurrence item = monthly /\ Firestore.dayOfMonth item = Some dayOfMonth
           /\ Firestore.dueDate item = None
       | OneTimeBillInput name amount dueDate =>
           Firestore.name item = name /\ Firestore.amount item = amount
           /\ recurrence item = oneTime /\ Firestore.dayOfMonth item = None
           /\ Firestore.dueDate item
              = match trim dueDate with EmptyString => None | t => Some t end
       end
    /\ (forall path, path <> billsRef familyId ++ [newId] ->
          snd (addBill newId familyId uid bill db) !! path = db !! path).
Proof.
  intros Hok. destruct bill as [name amount dueDate|name amount dayOfMonth].
  - unfold addBill. cbv zeta. cbn [snd]. unfold billItem, addDoc.
    rewrite lookup_insert_eq. cbn [fmap option_fmap option_map].
    eexists. split; [reflexivity|].
    unfold listenToBills_item. rewrite !field_insert, !field_empty.
    cbn [String.eqb Ascii.eqb Bool.eqb isStr].
    cbn [id Firestore.status paidForMonth Firestore.name Firestore.amount recurrence
         Firestore.dayOfMonth Firestore.dueDate].
    split; [reflexivity|]. split; [reflexivity|]. split; [reflexivity|].
    split; [intros period; reflexivity|]. split.
    + repeat split. destruct (trim dueDate); reflexivity.
    + intros path Hp. apply lookup_insert_ne. congruence.
  - revert Hok. unfold addBill. destruct (num_integer dayOfMonth) as [d|] eqn:Hd;
      [|discriminate].
    rewrite Z.gtb_ltb.
    destruct (Z.ltb_spec d 1); destruct (Z.ltb_spec 31 d); cbn [orb fst]; try discriminate.
    intros _. cbv zeta. cbn [snd]. unfold billItem, addDoc.
    rewrite lookup_insert_eq. cbn [fmap option_fmap option_map].
    eexists. split; [reflexivity|].
    unfold listenToBills_item. rewrite !field_insert, !field_empty.
    cbn [String.eqb Ascii.eqb Bool.eqb isStr]. rewrite Hd.
    destruct (Z.leb_spec 1 d); [|lia]. destruct (Z.leb_spec d 31); [|lia]. cbn [andb].
    cbn [id Firestore.status paidForMonth Firestore.name Firestore.amount recurrence
         Firestore.dayOfMonth Firestore.dueDate].
    split; [reflexivity|]. split; [reflexivity|]. split; [reflexivity|].
    split; [intros period; reflexivity|]. split.
    + repeat split.
    + intros path Hp. apply lookup_insert_ne. congruence.
Qed.

End DocClaims.

Lemma added_bill_reads_back_witness :
  exists item,
    FirestoreDocs.billItem "f1" "n1"
      (snd (FirestoreDocs.addBill (Num:=Z) "n1" "f1" "u1"
              (FirestoreDocs.OneTimeBillInput "Plumber" 300 " 2024-03-05 ") ∅)) = Some item
    /\ Firestore.dueDate item = Some "2024-03-05"%string
    /\ App.isOverdue Samples.march10 item = true.
Proof.
  destruct (added_bill_reads_back (Num:=Z) "n1" "f1" "u1"
              (FirestoreDocs.OneTimeBillInput "Plumber" 300 " 2024-03-05 ") ∅ eq_refl)
    as (item & Hitem & Hid & Hst & Hpaid & _ & (Hname & Hamount & Hrec & Hday & Hdue) & _).
  exists item. split; [exact Hitem|]. split; [exact Hdue|].
  unfold App.isOverdue, App.getDerivedStatus, App.resolvedDueDate.
  rewrite Hrec, Hst, Hdue. reflexivity.
Defined.

Section UserDocClaims.
Context {Num : Type} {numOps : JsNumber Num}.

Import FirestoreDocs.

Lemma setDocMerge_lookup (ref path : list string) (fields : gmap string (JsValue Num))
    (db : Db Num) :
  setDocMerge ref fields db !! path
  = if decide (ref = path) then Some (fields ∪ default ∅ (db !! ref)) else db !! path.
Proof.
  unfold setDocMerge. destruct (decide (ref = path)) as [->|Hne].
  - apply lookup_insert_eq.
  - apply lookup_insert_ne. exact Hne.
Qed.

(** What [ensureUserDoc] leaves of the user document. *)
Lemma ensureUserDoc_lookup (uid : string) (email : option string) (db : Db Num) :
  exists data',
    ensureUserDoc uid email db !! userRef uid = Some data'
    /\ data' !! "email"%string = Some (stringOrNull email)
    /\ field data' "createdAt"
       = (if isNullish (field (default ∅ (db !! userRef uid)) "createdAt")
          then JServerTimestamp
          else field (default ∅ (db !! userRef uid)) "createdAt")
    /\ (forall k : string, k <> "email"%string -> k <> "createdAt"%string ->
          data' !! k = default ∅ (db !! userRef uid) !! k)
    /\ (forall path, path <> userRef uid ->
          ensureUserDoc uid email db !! path = db !! path).
Proof.
  unfold ensureUserDoc. cbv zeta.
  destruct (db !! userRef uid) as [data|] eqn:Hdb.
  - change (default ∅ (Some data)) with data.
    destruct (isNullish (field data "createdAt")) eqn:Hnull.
    + eexists. split; [unfold setDocMerge; rewrite lookup_insert_eq, Hdb; reflexivity|].
      change (default ∅ (Some data)) with data. split; [|split; [|split]].
      * rewrite union_lookup, lookup_insert_eq. reflexivity.
      * rewrite field_union, lookup_insert_ne, lookup_insert_eq by discriminate. reflexivity.
      * intros k He Hc. rewrite union_lookup, !lookup_insert_ne, lookup_empty by congruence.
        reflexivity.
      * intros path Hp. unfold setDocMerge. apply lookup_insert_ne. congruence.
    + eexists. split; [unfold setDocMerge; rewrite lookup_insert_eq, Hdb; reflexivity|].
      change (default ∅ (Some data)) with data. split; [|split; [|split]].
      * rewrite union_lookup, lookup_insert_eq. reflexivity.
      * rewrite field_union, lookup_insert_ne, lookup_empty by discriminate. reflexivity.
      * intros k He Hc. rewrite union_lookup, !lookup_insert_ne, lookup_empty by congruence.
        reflexivity.
      * intros path Hp. unfold setDocMerge. apply lookup_insert_ne. congruence.
  - change (default ∅ None) with (∅ : gmap string (JsValue Num)).
    eexists. split; [unfold setDocMerge; rewrite lookup_insert_eq, Hdb; reflexivity|].
    change (default ∅ None) with (∅ : gmap string (JsValue Num)). split; [|split; [|split]].
    + rewrite union_lookup, lookup_insert_eq. reflexivity.
    + rewrite field_union, lookup_insert_ne, lookup_insert_eq by discriminate. reflexivity.
    + intros k He Hc. rewrite union_lookup, !lookup_insert_ne, lookup_empty by congruence.
      reflexivity.
    + intros path Hp. unfold setDocMerge. apply lookup_insert_ne. congruence.
Qed.

(** X13. [ensureUserDoc] completes the profile and overwrites nothing but
    the e-mail address: afterwards the user document exists and holds the
    address given; its [createdAt] is the one it had when that was
    neither missing nor [null], and the server time stamp otherwise;
    every other field of the document and every other document is as it
    was; and running it again with the same address changes nothing. *)
Theorem ensureUserDoc_completes_the_profile (uid : string) (email : option string)
    (db : Db Num) :
  let before := default ∅ (db !! userRef uid) in
  exists after,
    ensureUserDoc uid email db !! userRef uid = Some after
    /\ field after "email" = stringOrNull email
    /\ field after "createdAt"
       = (if isNullish (field before "createdAt") then JServerTimestamp
          else field before "createdAt")
    /\ (forall k : string, k <> "email"%string -> k <> "createdAt"%string ->
          after !! k = before !! k)
    /\ (forall path, path <> userRef uid ->
          ensureUserDoc uid email db !! path = db !! path)
    /\ ensureUserDoc uid email (ensureUserDoc uid email db) = ensureUserDoc uid email db.
Proof.
  cbv zeta.
  destruct (ensureUserDoc_lookup uid email db) as (after & Hafter & He & Hc & Hk & Hp).
  exists after. split; [exact Hafter|]. split; [unfold field; rewrite He; reflexivity|].
  split; [exact Hc|]. split; [exact Hk|]. split; [exact Hp|].
  assert (Hnn : isNullish (field after "createdAt") = false).
  { rewrite Hc. destruct (isNullish (field (default ∅ (db !! userRef uid)) "createdAt")) eqn:E;
      [reflexivity|exact E]. }
  unfold ensureUserDoc at 1. cbv zeta. rewrite Hafter, Hnn.
  unfold setDocMerge. rewrite Hafter. change (default ∅ (Some after)) with after.
  rewrite (merge_same_field _ _ _ He). apply insert_id. exact Hafter.
Qed.

(** X14. Completing the profile never moves a user to another family:
    the family identifier the listener reports for any user is the same
    after [ensureUserDoc] as before. *)
Theorem ensureUserDoc_keeps_the_family (uid uid' : string) (email : option string)
    (db : Db Num) :
  listenToUserFamilyId uid' (ensureUserDoc uid email db) = listenToUserFamilyId uid' db.
Proof.
  destruct (ensureUserDoc_lookup uid email db) as (after & Hafter & _ & _ & Hk & Hp).
  unfold listenToUserFamilyId. destruct (decide (userRef uid' = userRef uid)) as [E|Hne].
  - rewrite E, Hafter. unfold field. rewrite Hk by discriminate.
    destruct (db !! userRef uid); reflexivity.
  - rewrite Hp by exact Hne. reflexivity.
Qed.

(** X15. [joinFamily] joins an existing family or nothing: when the
    family document is missing it throws and leaves the database as it
    was; when it is there it resolves with the identifier given, the
    listener then reports that family for the user, the member document
    says "member", the user document keeps its other fields, and no
    other document changes. [createFamilyForUser] makes the family
    document, the member document with the role "owner" and the user's
    family identifier all name the new family, which the listener then
    reports. *)
Theorem joinFamily_joins_or_leaves_alone (uid familyId newId : string)
    (email : option string) (db : Db Num) :
  (db !! familyRef familyId = None ->
   joinFamily uid email familyId db = (Threw "Family not found", db))
  /\ (is_Some (db !! familyRef familyId) ->
      fst (joinFamily uid email familyId db) = Resolved familyId
      /\ listenToUserFamilyId uid (snd (joinFamily uid email familyId db)) = Some familyId
      /\ field (default ∅ (snd (joinFamily uid email familyId db) !! memberRef familyId uid))
           "role" = JStr "member"
      /\ (forall k : string, k <> "familyId"%string -> k <> "email"%string ->
            default ∅ (snd (joinFamily uid email familyId db) !! userRef uid) !! k
            = default ∅ (db !! userRef uid) !! k)
      /\ (forall path, path <> userRef uid -> path <> memberRef familyId uid ->
            snd (joinFamily uid email familyId db) !! path = db !! path))
  /\ (fst (createFamilyForUser newId uid email db) = newId
      /\ listenToUserFamilyId uid (snd (createFamilyForUser newId uid email db)) = Some newId
      /\ is_Some (snd (createFamilyForUser newId uid email db) !! familyRef newId)
      /\ field (default ∅ (snd (createFamilyForUser newId uid email db)
                            !! memberRef newId uid)) "role" = JStr "owner"
      /\ (forall path, path <> userRef uid -> path <> memberRef newId uid ->
            path <> familyRef newId ->
            snd (createFamilyForUser newId uid email db) !! path = db !! path)).
Proof.
  split; [|split].
  - intros Hnone. unfold joinFamily. rewrite Hnone. reflexivity.
  - intros [fam Hfam]. unfold joinFamily. rewrite Hfam. cbv zeta. cbn [fst snd].
    split; [reflexivity|]. split; [|split; [|split]].
    + unfold listenToUserFamilyId. rewrite setDocMerge_lookup.
      destruct (decide _) as [_|Hne]; [|contradiction].
      rewrite field_union, lookup_insert_eq. reflexivity.
    + rewrite setDocMerge_lookup. destruct (decide _) as [E|_]; [discriminate E|].
      unfold setDoc. rewrite lookup_insert_eq. change (default ∅ (Some ?m)) with m.
      rewrite field_insert. reflexivity.
    + intros k Hf He. rewrite setDocMerge_lookup.
      destruct (decide _) as [_|Hne]; [|contradiction].
      change (default ∅ (Some ?m)) with m.
      rewrite union_lookup, !lookup_insert_ne, lookup_empty by congruence.
      unfold setDoc. rewrite lookup_insert_ne by discriminate. reflexivity.
    + intros path Hu Hm. rewrite setDocMerge_lookup.
      destruct (decide _) as [E|_]; [congruence|].
      unfold setDoc. apply lookup_insert_ne. congruence.
  - unfold createFamilyForUser. cbv zeta. cbn [fst snd].
    split; [reflexivity|]. split; [|split; [|split]].
    + unfold listenToUserFamilyId. rewrite setDocMerge_lookup.
      destruct (decide _) as [_|Hne]; [|contradiction].
      rewrite field_union, lookup_insert_eq. reflexivity.
    + rewrite setDocMerge_lookup. destruct (decide _) as [E|_]; [discriminate E|].
      unfold setDoc. rewrite lookup_insert_ne by discriminate.
      rewrite lookup_insert_eq. eexists. reflexivity.
    + rewrite setDocMerge_lookup. destruct (decide _) as [E|_]; [discriminate E|].
      unfold setDoc. rewrite lookup_insert_eq. change (default ∅ (Some ?m)) with m.
      rewrite field_insert. reflexivity.
    + intros path Hu Hm Hf. rewrite setDocMerge_lookup.
      destruct (decide _) as [E|_]; [congruence|].
      unfold setDoc. rewrite !lookup_insert_ne by congruence. reflexivity.
Qed.

End UserDocClaims.
(** ** Trimmed texts *)

Section MoreTrimFacts.

Lemma append_cons (c : ascii) (r t : string) :
  (String c r ++ t)%string = String c (r ++ t).
Proof. reflexivity. Qed.

Lemma append_empty (t : string) : (EmptyString ++ t)%string = t.
Proof. reflexivity. Qed.

Lemma afterWhiteSpace_shorter (s r : string) :
  afterWhiteSpace s = Some r -> (String.length r < String.length s)%nat.
Proof.
  destruct s as [|c1 [|c2 [|c3 t]]]; cbn [afterWhiteSpace String.length].
  - discriminate.
  - destruct (oneByteWhiteSpace c1); [|discriminate]. intros [= <-]. cbn. lia.
  - destruct (oneByteWhiteSpace c1); [intros [= <-]; cbn; lia|].
    destruct (twoByteWhiteSpace c1 c2); [|discriminate]. intros [= <-]. cbn. lia.
  - destruct (oneByteWhiteSpace c1); [intros [= <-]; cbn; lia|].
    destruct (twoByteWhiteSpace c1 c2); [intros [= <-]; cbn; lia|].
    destruct (threeByteWhiteSpace c1 c2 c3); [|discriminate]. intros [= <-]. lia.
Qed.

Lemma afterWhiteSpace_app (s r t : string) :
  afterWhiteSpace s = Some r -> afterWhiteSpace (s ++ t) = Some (r ++ t)%string.
Proof.
  destruct s as [|c1 [|c2 [|c3 u]]]; rewrite ?append_cons, ?append_empty;
    cbn [afterWhiteSpace].
  - discriminate.
  - destruct (oneByteWhiteSpace c1); [|discriminate]. intros [= <-]. reflexivity.
  - destruct (oneByteWhiteSpace c1); [intros [= <-]; reflexivity|].
    destruct (twoByteWhiteSpace c1 c2); [|discriminate]. intros [= <-]. reflexivity.
  - destruct (oneByteWhiteSpace c1); [intros [= <-]; reflexivity|].
    destruct (twoByteWhiteSpace c1 c2); [intros [= <-]; reflexivity|].
    destruct (threeByteWhiteSpace c1 c2 c3); [|discriminate]. intros [= <-]. reflexivity.
Qed.

(** White space starts with a byte below 128 or from 194 on, never with
    the byte that continues a character. *)
Lemma afterWhiteSpace_head (c : ascii) (r t : string) :
  afterWhiteSpace (String c r) = Some t -> byteCode c < 128 \/ 194 <= byteCode c.
Proof.
  cbn [afterWhiteSpace]. destruct (oneByteWhiteSpace c) eqn:H1.
  - intros _. unfold oneByteWhiteSpace in H1. cbv zeta in H1. left.
    apply orb_true_iff in H1. destruct H1 as [H1|H1].
    + apply andb_true_iff in H1. destruct H1 as [_ H1]. apply Z.leb_le in H1. lia.
    + apply Z.eqb_eq in H1. lia.
  - destruct r as [|c2 r2]; [discriminate|].
    destruct (twoByteWhiteSpace c c2) eqn:H2.
    + intros _. unfold twoByteWhiteSpace in H2. apply andb_true_iff in H2.
      destruct H2 as [H2 _]. apply Z.eqb_eq in H2. lia.
    + destruct r2 as [|c3 r3]; [discriminate|].
      destruct (threeByteWhiteSpace c c2 c3) eqn:H3; [|discriminate].
      intros _. unfold threeByteWhiteSpace in H3. cbv zeta in H3.
      destruct (Z.eqb_spec (byteCode c) 225); [lia|].
      destruct (Z.eqb_spec (byteCode c) 226); [lia|].
      destruct (Z.eqb_spec (byteCode c) 227); [lia|].
      destruct (Z.eqb_spec (byteCode c) 239); [lia|]. discriminate H3.
Qed.

Lemma allWhiteSpace_step (s : string) :
  allWhiteSpace s = match s with
                    | EmptyString => true
                    | String _ _ => match afterWhiteSpace s with
                                    | Some r => allWhiteSpace r
                                    | None => false
                                    end
                    end.
Proof.
  destruct s as [|c r]; [reflexivity|]. unfold allWhiteSpace at 1.
  rewrite trimStart_step. destruct (afterWhiteSpace (String c r)); reflexivity.
Qed.

Lemma allWhiteSpace_head (c : ascii) (r : string) :
  allWhiteSpace (String c r) = true -> byteCode c < 128 \/ 194 <= byteCode c.
Proof.
  rewrite allWhiteSpace_step. destruct (afterWhiteSpace (String c r)) as [t|] eqn:E;
    [|discriminate].
  intros _. exact (afterWhiteSpace_head c r t E).
Qed.

(** White space in front of a text that is white space only: no
    character lies across the place where the two are joined. *)
Lemma afterWhiteSpace_app_inv (x w y : string) :
  allWhiteSpace w = true -> afterWhiteSpace (x ++ w) = Some y ->
  x = EmptyString \/ exists x', afterWhiteSpace x = Some x' /\ y = (x' ++ w)%string.
Proof.
  intros Hw.
  assert (Hcont : forall c r, w = String c r -> 128 <= byteCode c < 194 -> False).
  { intros c r -> Hc. pose proof (allWhiteSpace_head c r Hw). lia. }
  destruct x as [|c1 [|c2 [|c3 u]]]; [left; reflexivity| | |]; intros Hy; right;
    rewrite ?append_cons, ?append_empty in Hy; cbn [afterWhiteSpace] in Hy |- *.
  - destruct (oneByteWhiteSpace c1); [injection Hy as <-; eexists; split; reflexivity|].
    exfalso. destruct w as [|c2 r2]; [discriminate|].
    destruct (twoByteWhiteSpace c1 c2) eqn:H2.
    + unfold twoByteWhiteSpace in H2. apply andb_true_iff in H2. destruct H2 as [_ H2].
      apply Z.eqb_eq in H2. apply (Hcont c2 r2 eq_refl). lia.
    + destruct r2 as [|c3 r3]; [discriminate|].
      destruct (threeByteWhiteSpace c1 c2 c3) eqn:H3; [|discriminate].
      apply (Hcont c2 (String c3 r3) eq_refl).
      unfold threeByteWhiteSpace in H3. cbv zeta in H3.
      destruct (Z.eqb_spec (byteCode c2) 154); [lia|].
      destruct (Z.eqb_spec (byteCode c2) 128); [lia|].
      destruct (Z.eqb_spec (byteCode c2) 129); [lia|].
      destruct (Z.eqb_spec (byteCode c2) 187); [lia|].
      rewrite !andb_false_r in H3. cbn in H3. discriminate H3.
  - destruct (oneByteWhiteSpace c1); [injection Hy as <-; eexists; split; reflexivity|].
    destruct (twoByteWhiteSpace c1 c2); [injection Hy as <-; eexists; split; reflexivity|].
    exfalso. destruct w as [|c3 r3]; [discriminate|].
    destruct (threeByteWhiteSpace c1 c2 c3) eqn:H3; [|discriminate].
    apply (Hcont c3 r3 eq_refl).
    unfold threeByteWhiteSpace in H3. cbv zeta in H3.
    destruct (Z.eqb_spec (byteCode c3) 128); [lia|].
    destruct (Z.eqb_spec (byteCode c3) 168); [lia|].
    destruct (Z.eqb_spec (byteCode c3) 169); [lia|].
    destruct (Z.eqb_spec (byteCode c3) 175); [lia|].
    destruct (Z.eqb_spec (byteCode c3) 159); [lia|].
    destruct (Z.eqb_spec (byteCode c3) 191); [lia|].
    destruct (Z.leb_spec 128 (byteCode c3)); destruct (Z.leb_spec (byteCode c3) 138);
      try lia; rewrite ?andb_false_r in H3; cbn in H3; rewrite ?andb_false_r in H3;
      discriminate H3.
  - destruct (oneByteWhiteSpace c1); [injection Hy as <-; eexists; split; reflexivity|].
    destruct (twoByteWhiteSpace c1 c2); [injection Hy as <-; eexists; split; reflexivity|].
    destruct (threeByteWhiteSpace c1 c2 c3); [|discriminate].
    injection Hy as <-. eexists. split; reflexivity.
Qed.

Lemma trimStart_padding (w s : string) :
  allWhiteSpace w = true -> trimStart (w ++ s) = trimStart s.
Proof.
  remember (String.length w) as n eqn:Hn. revert w Hn.
  induction n as [n IH] using lt_wf_ind. intros w Hn Hw.
  destruct w as [|c r]; [reflexivity|].
  rewrite allWhiteSpace_step in Hw.
  destruct (afterWhiteSpace (String c r)) as [t|] eqn:E; [|discriminate].
  rewrite trimStart_step, (afterWhiteSpace_app _ _ s E).
  apply (IH (String.length t)); [|reflexivity|exact Hw].
  rewrite Hn. exact (afterWhiteSpace_shorter _ _ E).
Qed.

(** What [trimStart] leaves does not start with white space. *)
Lemma trimStart_head (s : string) : afterWhiteSpace (trimStart s) = None.
Proof.
  remember (String.length s) as n eqn:Hn. revert s Hn.
  induction n as [n IH] using lt_wf_ind. intros s Hn.
  rewrite trimStart_step. destruct (afterWhiteSpace s) as [t|] eqn:E; [|exact E].
  apply (IH (String.length t)); [|reflexivity].
  rewrite Hn. exact (afterWhiteSpace_shorter _ _ E).
Qed.

Lemma trimStart_fixed (s : string) : afterWhiteSpace s = None -> trimStart s = s.
Proof. intros E. rewrite trimStart_step, E. reflexivity. Qed.

Lemma trimStart_blank (w : string) : allWhiteSpace w = true -> trimStart w = EmptyString.
Proof. unfold allWhiteSpace. destruct (trimStart w); [reflexivity|discriminate]. Qed.

Lemma trimEnd_blank (w : string) : allWhiteSpace w = true -> trimEnd w = EmptyString.
Proof. destruct w as [|c r]; [reflexivity|]. intros Hw. cbn [trimEnd]. rewrite Hw. reflexivity. Qed.

Lemma allWhiteSpace_app (a b : string) :
  allWhiteSpace a = true -> allWhiteSpace (a ++ b) = allWhiteSpace b.
Proof. intros Ha. unfold allWhiteSpace. rewrite trimStart_padding by exact Ha. reflexivity. Qed.

Lemma allWhiteSpace_app_inv (x w : string) :
  allWhiteSpace w = true -> allWhiteSpace (x ++ w) = true -> allWhiteSpace x = true.
Proof.
  intros Hw. remember (String.length x) as n eqn:Hn. revert x Hn.
  induction n as [n IH] using lt_wf_ind. intros x Hn Hx.
  destruct x as [|c r]; [reflexivity|].
  rewrite allWhiteSpace_step in Hx. change (String c r ++ w)%string with (String c (r ++ w)) in Hx.
  change (String c (r ++ w)) with (String c r ++ w)%string in Hx.
  destruct (afterWhiteSpace (String c r ++ w)) as [y|] eqn:E.
  2:{ change (String c r ++ w)%string with (String c (r ++ w)) in Hx. discriminate Hx. }
  change (String c r ++ w)%string with (String c (r ++ w)) in Hx.
  destruct (afterWhiteSpace_app_inv _ _ _ Hw E) as [Hnil|(x' & Ex & ->)]; [discriminate|].
  rewrite allWhiteSpace_step, Ex.
  apply (IH (String.length x')); [|reflexivity|exact Hx].
  rewrite Hn. exact (afterWhiteSpace_shorter _ _ Ex).
Qed.

(** What [trimEnd] cuts off is white space only. *)
Lemma trimEnd_prefix (s : string) :
  exists w, s = (trimEnd s ++ w)%string /\ allWhiteSpace w = true.
Proof.
  induction s as [|c r (w & Hr & Hw)]; [exists EmptyString; split; reflexivity|].
  cbn [trimEnd]. destruct (allWhiteSpace (String c r)) eqn:E.
  - exists (String c r). split; [reflexivity|exact E].
  - exists w. split; [|exact Hw]. rewrite append_cons, <- Hr. reflexivity.
Qed.

Lemma trimEnd_padding (s w : string) :
  allWhiteSpace w = true -> trimEnd (s ++ w) = trimEnd s.
Proof.
  intros Hw. induction s as [|c s IH].
  - change (EmptyString ++ w)%string with w. rewrite (trimEnd_blank w Hw). reflexivity.
  - change (String c s ++ w)%string with (String c (s ++ w)). cbn [trimEnd].
    rewrite IH. change (String c (s ++ w)) with (String c s ++ w)%string.
    destruct (allWhiteSpace (String c s)) eqn:E.
    + rewrite (allWhiteSpace_app _ w E), Hw. reflexivity.
    + destruct (allWhiteSpace (String c s ++ w)) eqn:E'; [|reflexivity].
      rewrite (allWhiteSpace_app_inv _ _ Hw E') in E. discriminate E.
Qed.

Lemma trimEnd_idempotent (s : string) : trimEnd (trimEnd s) = trimEnd s.
Proof.
  destruct (trimEnd_prefix s) as (w & Hs & Hw).
  rewrite Hs at 2. rewrite (trimEnd_padding _ _ Hw). reflexivity.
Qed.

Lemma trim_fixed (s : string) :
  trimStart (trim s) = trim s /\ trimEnd (trim s) = trim s /\ trim (trim s) = trim s.
Proof.
  assert (Hs : trimStart (trim s) = trim s).
  { unfold trim. apply trimStart_fixed.
    destruct (trimEnd_prefix (trimStart s)) as (w & Ht & Hw).
    destruct (afterWhiteSpace (trimEnd (trimStart s))) as [y|] eqn:E; [|reflexivity].
    pose proof (afterWhiteSpace_app _ _ w E) as E'. rewrite <- Ht, trimStart_head in E'.
    discriminate E'. }
  assert (He : trimEnd (trim s) = trim s) by apply trimEnd_idempotent.
  split; [exact Hs|]. split; [exact He|].
  unfold trim at 1. rewrite Hs. exact He.
Qed.

(** White space around a trimmed text is trimmed away again. *)
Lemma trim_padding (w1 w2 s : string) :
  allWhiteSpace w1 = true -> allWhiteSpace w2 = true ->
  trim (w1 ++ trim s ++ w2) = trim s.
Proof.
  intros H1 H2. destruct (trim_fixed s) as (Hs & He & _).
  unfold trim at 1. rewrite trimStart_padding by exact H1.
  assert (Ht : trimStart (trim s ++ w2) = (trim s ++ w2)%string \/ trim s = EmptyString).
  { destruct (trim s) as [|c r] eqn:Et; [right; reflexivity|left].
    apply trimStart_fixed.
    destruct (afterWhiteSpace (String c r ++ w2)) as [y|] eqn:E; [|reflexivity].
    destruct (afterWhiteSpace_app_inv _ _ _ H2 E) as [Hnil|(x' & Ex & _)]; [discriminate|].
    pose proof (trimStart_head (String c r)) as Hh. rewrite Hs in Hh.
    rewrite Hh in Ex. discriminate Ex. }
  destruct Ht as [Ht|Ht].
  - rewrite Ht, trimEnd_padding by exact H2. exact He.
  - rewrite Ht. change (EmptyString ++ w2)%string with w2.
    rewrite (trimStart_blank w2 H2). reflexivity.
Qed.

(** The white space of more than one byte is trimmed as that of one. *)
Lemma trim_no_break_space :
  trim (String (ascii_of_N 194) (String (ascii_of_N 160) EmptyString)) = EmptyString
  /\ trim (String (ascii_of_N 239) (String (ascii_of_N 187) (String (ascii_of_N 191) "a b ")))
     = "a b"%string.
Proof. split; reflexivity. Qed.

End MoreTrimFacts.

(** ** Joining a family, and the identifier the account menu copies *)

Section JoinClaims.
Context {Num : Type} {numOps : JsNumber Num}.

Import FirestoreDocs.

(** The state and the database after a family was found and joined. *)
Lemma handleJoinFamily_found (user : AppForms.User) (s : AppForms.FamilySetup)
    (db : Db Num) :
  trim (AppForms.joinFamilyId s) <> EmptyString ->
  is_Some (db !! familyRef (trim (AppForms.joinFamilyId s))) ->
  AppForms.handleJoinFamily storeCompletes storeCompletes (Some user) s db
  = ({| AppForms.familyId := Some (trim (AppForms.joinFamilyId s));
        AppForms.createdFamilyId := None;
        AppForms.joinFamilyId := EmptyString;
        AppForms.familyError := None;
        AppForms.familyBusy := false |},
     snd (joinFamily (AppForms.uid user) (AppForms.email user)
            (trim (AppForms.joinFamilyId s)) db)).
Proof.
  unfold AppForms.handleJoinFamily.
  destruct (trim (AppForms.joinFamilyId s)) as [|c r] eqn:Et; [contradiction|].
  intros _ [fam Hfam]. unfold joinFamily. rewrite Hfam. reflexivity.
Qed.

(** X16. [handleJoinFamily] joins under the identifier typed, with the
    white space around it trimmed, or leaves everything but the error as
    it was. Signed out, it does nothing. With a blank identifier it sets
    the error "Enter a family ID" and changes nothing else. Otherwise,
    when the store rejects the read of the family document, when no
    family has the trimmed identifier, or when the store rejects the
    commit, the family, the field and the database stay as they were and
    the error is, in turn, the message of the rejection ("Failed to join
    family" for one that is not an error), "Family not found", and the
    message of the rejection again. When the store completes both and a
    family has the identifier, the state takes that identifier as the
    family, with no error and the field emptied, the database is the one
    [joinFamily] leaves, and the listener on the user document reports
    the same family. *)
Theorem handleJoinFamily_trims_and_joins (read commit : Store) (user : AppForms.User)
    (s : AppForms.FamilySetup) (db : Db Num) :
  let typed := trim (AppForms.joinFamilyId s) in
  let after := AppForms.handleJoinFamily read commit (Some user) s db in
  let kept (message : string) :=
    {| AppForms.familyId := AppForms.familyId s;
       AppForms.createdFamilyId := AppForms.createdFamilyId s;
       AppForms.joinFamilyId := AppForms.joinFamilyId s;
       AppForms.familyError := Some message;
       AppForms.familyBusy := false |} in
  AppForms.handleJoinFamily read commit None s db = (s, db)
  /\ (typed = EmptyString ->
      after
      = ({| AppForms.familyId := AppForms.familyId s;
            AppForms.createdFamilyId := AppForms.createdFamilyId s;
            AppForms.joinFamilyId := AppForms.joinFamilyId s;
            AppForms.familyError := Some "Enter a family ID"%string;
            AppForms.familyBusy := AppForms.familyBusy s |}, db))
  /\ (typed <> EmptyString ->
      forall reason, read = storeRejects reason ->
      after = (kept (messageOf reason "Failed to join family"), db))
  /\ (typed <> EmptyString -> read = storeCompletes -> db !! familyRef typed = None ->
      after = (kept "Family not found"%string, db))
  /\ (typed <> EmptyString -> read = storeCompletes -> is_Some (db !! familyRef typed) ->
      forall reason, commit = storeRejects reason ->
      after = (kept (messageOf reason "Failed to join family"), db))
  /\ (typed <> EmptyString -> read = storeCompletes -> is_Some (db !! familyRef typed) ->
      commit = storeCompletes ->
      after
      = ({| AppForms.familyId := Some typed;
            AppForms.createdFamilyId := None;
            AppForms.joinFamilyId := EmptyString;
            AppForms.familyError := None;
            AppForms.familyBusy := false |},
         snd (joinFamily (AppForms.uid user) (AppForms.email user) typed db))
      /\ listenToUserFamilyId (AppForms.uid user) (snd after) = Some typed).
Proof.
  cbv zeta. split; [reflexivity|]. unfold AppForms.handleJoinFamily.
  destruct (trim (AppForms.joinFamilyId s)) as [|c r] eqn:Et.
  - split; [intros _; reflexivity|].
    split; [|split; [|split]]; intros H; exfalso; apply H; reflexivity.
  - split; [discriminate|]. split; [|split; [|split]].
    + intros _ reason ->. reflexivity.
    + intros _ -> Hnone. unfold joinFamily. rewrite Hnone. reflexivity.
    + intros _ -> [fam Hfam] reason ->. unfold joinFamily. rewrite Hfam. reflexivity.
    + intros _ -> [fam Hfam] ->. unfold joinFamily. rewrite Hfam. cbv zeta.
      split; [reflexivity|]. cbn [snd].
      unfold listenToUserFamilyId. rewrite setDocMerge_lookup.
      destruct (decide _) as [_|Hne]; [|contradiction].
      rewrite field_union, lookup_insert_eq. reflexivity.
Qed.

(** X17. The account menu copies the family identifier trimmed, or
    nothing. For a blank identifier [handleCopyFamilyId] asks nothing of
    the browser and says that there is nothing to copy. Otherwise every
    text it offers, to the clipboard or in the prompt, is the identifier
    with the white space around it removed: not empty, and with none left
    to trim; the clipboard is written at most once and the prompt is
    shown exactly when the clipboard is missing or rejects the write; a
    notice is always set. Pasted into the join field with any white space
    around it, the copied text joins the family it names, when there is
    such a family and the store completes the requests of the join. *)
Theorem copied_family_id_is_trimmed (familyId : string) (clipboard : AvatarMenu.Clipboard) :
  let asked := fst (AvatarMenu.handleCopyFamilyId familyId clipboard) in
  let notice := snd (AvatarMenu.handleCopyFamilyId familyId clipboard) in
  (trim familyId = EmptyString ->
   asked = [] /\ notice = "No family ID available to copy."%string)
  /\ Forall (fun e => AvatarMenu.offered e = trim familyId
                      /\ AvatarMenu.offered e <> EmptyString
                      /\ trim (AvatarMenu.offered e) = AvatarMenu.offered e) asked
  /\ (trim familyId <> EmptyString ->
      asked = match clipboard with
              | AvatarMenu.clipboardResolves => [AvatarMenu.WriteText (trim familyId)]
              | AvatarMenu.clipboardMissing =>
                  [AvatarMenu.Prompt "Copy Family ID" (trim familyId)]
              | AvatarMenu.clipboardRejects =>
                  [AvatarMenu.WriteText (trim familyId);
                   AvatarMenu.Prompt "Copy Family ID" (trim familyId)]
              end)
  /\ notice <> EmptyString
  /\ (forall (e : AvatarMenu.CopyEffect) (w1 w2 : string) (user : AppForms.User)
             (s : AppForms.FamilySetup) (db : Db Num),
        In e asked ->
        allWhiteSpace w1 = true -> allWhiteSpace w2 = true ->
        AppForms.joinFamilyId s = (w1 ++ AvatarMenu.offered e ++ w2)%string ->
        is_Some (db !! familyRef (trim familyId)) ->
        AppForms.familyId
          (fst (AppForms.handleJoinFamily storeCompletes storeCompletes (Some user) s db))
        = Some (trim familyId)).
Proof.
  cbv zeta. destruct (trim_fixed familyId) as (_ & _ & Hfix).
  assert (Hall : Forall (fun e => AvatarMenu.offered e = trim familyId
                                  /\ AvatarMenu.offered e <> EmptyString
                                  /\ trim (AvatarMenu.offered e) = AvatarMenu.offered e)
                   (fst (AvatarMenu.handleCopyFamilyId familyId clipboard))).
  { unfold AvatarMenu.handleCopyFamilyId. cbv zeta.
    destruct (trim familyId) as [|c r] eqn:Et; [constructor|].
    destruct clipboard; cbn [fst]; repeat constructor;
      cbn [AvatarMenu.offered]; solve [reflexivity | discriminate | exact Hfix]. }
  split; [|split; [exact Hall|split; [|split]]].
  - intros Et. unfold AvatarMenu.handleCopyFamilyId. cbv zeta. rewrite Et.
    split; reflexivity.
  - intros Hne. unfold AvatarMenu.handleCopyFamilyId. cbv zeta.
    destruct (trim familyId) as [|c r]; [contradiction|].
    destruct clipboard; reflexivity.
  - unfold AvatarMenu.handleCopyFamilyId. cbv zeta.
    destruct (trim familyId) as [|c r]; [discriminate|].
    destruct clipboard; discriminate.
  - intros e w1 w2 user s db Hin H1 H2 Hs Hfam.
    rewrite List.Forall_forall in Hall. destruct (Hall e Hin) as (He & Hne & _).
    assert (Htyped : trim (AppForms.joinFamilyId s) = trim familyId).
    { rewrite Hs, He. apply trim_padding; assumption. }
    rewrite handleJoinFamily_found; [rewrite Htyped; reflexivity| |].
    + rewrite Htyped, <- He. exact Hne.
    + rewrite Htyped. exact Hfam.
Qed.

End JoinClaims.

(** ** The form that adds a bill *)

Section AddBillFacts.
Context {Num : Type} {numOps : JsNumber Num}.

Import FirestoreDocs.

(** The values of the day select are the numbers 1 to 31, and
    [Number.parseInt] reads each back. *)
Lemma dayOptions_parse (v : string) :
  In v AddBillForm.dayOptions ->
  exists d, 1 <= d <= 31 /\ v = numToString d /\ parseInt10 v = Some d.
Proof.
  intros H. vm_compute in H.
  repeat (destruct H as [<-|H];
          [eexists; split; [|split]; cycle 2; [vm_compute; reflexivity|lia|reflexivity]|]).
  contradiction.
Qed.

(** What the feed reads of a monthly bill that [addBill] accepted. *)
Lemma recurring_bill_item (newId familyId uid name : string) (amount dayOfMonth : Num)
    (d : Z) (db : Db Num) :
  num_integer dayOfMonth = Some d -> 1 <= d <= 31 ->
  fst (addBill newId familyId uid (RecurringBillInput name amount dayOfMonth) db)
  = Resolved tt
  /\ billItem familyId newId
       (snd (addBill newId familyId uid (RecurringBillInput name amount dayOfMonth) db))
     = Some {| id := newId; Firestore.name := name; Firestore.amount := amount;
               dueDate := None; status := unpaid; recurrence := monthly;
               Firestore.dayOfMonth := Some dayOfMonth; paidForMonth := None;
               autopay := false |}.
Proof.
  intros Hd Hr. unfold addBill. rewrite Hd, Z.gtb_ltb.
  destruct (Z.ltb_spec d 1); [lia|]. destruct (Z.ltb_spec 31 d); [lia|].
  cbn [orb fst snd]. split; [reflexivity|]. cbv zeta. unfold billItem, addDoc.
  rewrite lookup_insert_eq. cbn [fmap option_fmap option_map].
  unfold listenToBills_item. rewrite !field_insert, !field_empty.
  cbn [String.eqb Ascii.eqb Bool.eqb isStr]. rewrite Hd.
  destruct (Z.leb_spec 1 d); [|lia]. destruct (Z.leb_spec d 31); [|lia]. reflexivity.
Qed.

Lemma oneTime_bill_item (newId familyId uid name dueDate : string) (amount : Num)
    (db : Db Num) :
  fst (addBill newId familyId uid (OneTimeBillInput name amount dueDate) db) = Resolved tt
  /\ billItem familyId newId
       (snd (addBill newId familyId uid (OneTimeBillInput name amount dueDate) db))
     = Some {| id := newId; Firestore.name := name; Firestore.amount := amount;
               dueDate := match trim dueDate with EmptyString => None | t => Some t end;
               status := unpaid; recurrence := oneTime;
               Firestore.dayOfMonth := None; paidForMonth := None; autopay := false |}.
Proof.
  unfold addBill. cbn [fst snd]. split; [reflexivity|]. cbv zeta. unfold billItem, addDoc.
  rewrite lookup_insert_eq. cbn [fmap option_fmap option_map].
  unfold listenToBills_item. rewrite !field_insert, !field_empty.
  cbn [String.eqb Ascii.eqb Bool.eqb isStr]. destruct (trim dueDate); reflexivity.
Qed.

Lemma truthy_nonempty (s : string) : s <> EmptyString -> truthy (Some s) = true.
Proof. destruct s; [contradiction|reflexivity]. Qed.

End AddBillFacts.

Section AddBillClaims.
Context {Num : Type} {numOps : JsNumber Num}.
Variable toFiniteNumber : string -> option Num.
Variable ofInteger : Z -> Num.
Hypothesis ofInteger_integer : forall z, num_integer (ofInteger z) = Some z.

Import FirestoreDocs.

#[local] Abbreviation handleAddBill := (AppForms.handleAddBill toFiniteNumber ofInteger).

(** X18. Every day the form offers is a day the handler and the store
    layer accept. The options of the day select are the texts of the
    numbers 1 to 31. For a signed-in user with a family, a name that is
    not blank and an amount that is a finite number, submitting a monthly
    bill with any of these options passes every check: when the store
    completes the write, the bill is added, the form is emptied, and the
    feed reads the new document back as a monthly bill due on that day,
    with the name trimmed and the amount given; when the store rejects
    the write, the database is as it was and the form keeps what was
    typed, with the message of the rejection ("Failed to add bill" for
    one that is not an error). *)
Theorem every_day_option_is_accepted (store : Store) (newId familyId : string)
    (user : AppForms.User) (form : AppForms.BillForm) (db : Db Num) (amount : Num)
    (v : string) :
  In v AddBillForm.dayOptions ->
  familyId <> EmptyString ->
  AppForms.billType form = AppForms.monthlyType ->
  AppForms.billDayOfMonth form = v ->
  trim (AppForms.billName form) <> EmptyString ->
  toFiniteNumber (AppForms.billAmount form) = Some amount ->
  exists d,
    1 <= d <= 31 /\ v = numToString d
    /\ (store = storeCompletes ->
        fst (handleAddBill store newId (Some user) (Some familyId) form db)
        = AppForms.clearBill form
        /\ billItem familyId newId
             (snd (handleAddBill store newId (Some user) (Some familyId) form db))
           = Some {| id := newId; Firestore.name := trim (AppForms.billName form);
                     Firestore.amount := amount; dueDate := None; status := unpaid;
                     recurrence := monthly; Firestore.dayOfMonth := Some (ofInteger d);
                     paidForMonth := None; autopay := false |})
    /\ (forall reason, store = storeRejects reason ->
        handleAddBill store newId (Some user) (Some familyId) form db
        = (AppForms.failBill (messageOf reason "Failed to add bill") form, db)).
Proof.
  intros Hv Hfam Htype Hday Hname Hamount.
  destruct (dayOptions_parse v Hv) as (d & Hd & Hvd & Hparse).
  exists d. split; [exact Hd|]. split; [exact Hvd|].
  destruct (recurring_bill_item newId familyId (AppForms.uid user)
              (trim (AppForms.billName form)) amount (ofInteger d) d db
              (ofInteger_integer d) Hd) as [Hok Hitem].
  unfold AppForms.handleAddBill.
  rewrite (truthy_nonempty familyId Hfam). cbn [negb].
  change (default EmptyString (Some familyId)) with familyId. cbv zeta.
  destruct (trim (AppForms.billName form)) as [|c r] eqn:En; [contradiction|].
  rewrite Hamount, Htype, Hday, Hparse, Z.gtb_ltb.
  destruct (Z.ltb_spec d 1); [lia|]. destruct (Z.ltb_spec 31 d); [lia|]. cbn [orb].
  destruct (addBill newId familyId (AppForms.uid user)
              (RecurringBillInput (String c r) amount (ofInteger d)) db) as [[[]|msg] db'];
    [|discriminate Hok].
  cbn [fst snd] in *. split.
  - intros ->. split; [reflexivity|exact Hitem].
  - intros reason ->. reflexivity.
Qed.

(** X19. [handleAddBill] either adds the bill or keeps what was typed.
    Signed out, or without a family, it does nothing. Otherwise either
    the store has completed the write, the feed reads the bill back under
    the new identifier and the form is emptied with no error; or the
    database is as it was, the fields of the form are as typed, and the
    error is one of the three messages of the handler (that of the name,
    of the amount or of the day of month) or, the store having rejected
    the write, the message of the rejection ("Failed to add bill" for one
    that is not an error). The error of the day check of the store layer
    is never the one thrown, the handler having checked the day first. *)
Theorem handleAddBill_adds_or_keeps (store : Store) (newId familyId : string)
    (user : AppForms.User) (form : AppForms.BillForm) (db : Db Num) :
  familyId <> EmptyString ->
  let after := handleAddBill store newId (Some user) (Some familyId) form db in
  (forall fam, handleAddBill store newId None fam form db = (form, db))
  /\ handleAddBill store newId (Some user) None form db = (form, db)
  /\ handleAddBill store newId (Some user) (Some EmptyString) form db = (form, db)
  /\ ((store = storeCompletes
       /\ fst after = AppForms.clearBill form
       /\ is_Some (billItem familyId newId (snd after)))
      \/ (snd after = db
          /\ exists message,
               (In message ["Bill name is required"; "Amount must be a valid number";
                            "Day of month must be between 1 and 31"]%string
                \/ exists reason, store = storeRejects reason
                                  /\ message = messageOf reason "Failed to add bill")
               /\ AppForms.billError (fst after) = Some message
               /\ AppForms.billName (fst after) = AppForms.billName form
               /\ AppForms.billAmount (fst after) = AppForms.billAmount form
               /\ AppForms.billType (fst after) = AppForms.billType form
               /\ AppForms.billDueDate (fst after) = AppForms.billDueDate form
               /\ AppForms.billDayOfMonth (fst after) = AppForms.billDayOfMonth form)).
Proof.
  intros Hfam. cbv zeta.
  split; [reflexivity|]. split; [reflexivity|]. split; [reflexivity|].
  unfold AppForms.handleAddBill.
  rewrite (truthy_nonempty familyId Hfam). cbn [negb].
  change (default EmptyString (Some familyId)) with familyId. cbv zeta.
  destruct (trim (AppForms.billName form)) as [|c r] eqn:En.
  { right. split; [reflexivity|]. exists "Bill name is required"%string.
    split; [left; left; reflexivity|]. repeat split. }
  destruct (toFiniteNumber (AppForms.billAmount form)) as [amount|].
  2:{ right. split; [reflexivity|]. exists "Amount must be a valid number"%string.
      split; [left; right; left; reflexivity|]. repeat split. }
  destruct (AppForms.billType form) eqn:Etype.
  - destruct (oneTime_bill_item newId familyId (AppForms.uid user) (String c r)
                (trim (AppForms.billDueDate form)) amount db) as [Hok Hitem].
    destruct (addBill newId familyId (AppForms.uid user)
                (OneTimeBillInput (String c r) amount (trim (AppForms.billDueDate form))) db)
      as [[[]|msg] db']; [|discriminate Hok].
    cbn [fst snd] in *. destruct store as [|reason].
    + left. split; [reflexivity|]. split; [reflexivity|]. cbn [snd].
      rewrite Hitem. eexists. reflexivity.
    + right. split; [reflexivity|]. eexists.
      split; [right; exists reason; split; reflexivity|]. repeat split; exact Etype.
  - destruct (parseInt10 (AppForms.billDayOfMonth form)) as [d|].
    2:{ right. split; [reflexivity|]. exists "Day of month must be between 1 and 31"%string.
        split; [left; right; right; left; reflexivity|]. repeat split; exact Etype. }
    rewrite Z.gtb_ltb.
    destruct (Z.ltb_spec d 1); [|destruct (Z.ltb_spec 31 d)]; cbn [orb].
    + right. split; [reflexivity|]. exists "Day of month must be between 1 and 31"%string.
      split; [left; right; right; left; reflexivity|]. repeat split; exact Etype.
    + right. split; [reflexivity|]. exists "Day of month must be between 1 and 31"%string.
      split; [left; right; right; left; reflexivity|]. repeat split; exact Etype.
    + destruct (recurring_bill_item newId familyId (AppForms.uid user) (String c r) amount
                  (ofInteger d) d db (ofInteger_integer d) ltac:(lia)) as [Hok Hitem].
      destruct (addBill newId familyId (AppForms.uid user)
                  (RecurringBillInput (String c r) amount (ofInteger d)) db)
        as [[[]|msg] db']; [|discriminate Hok].
      cbn [fst snd] in *. destruct store as [|reason].
      * left. split; [reflexivity|]. split; [reflexivity|]. cbn [snd].
        rewrite Hitem. eexists. reflexivity.
      * right. split; [reflexivity|]. eexists.
        split; [right; exists reason; split; reflexivity|]. repeat split; exact Etype.
Qed.

End AddBillClaims.

Lemma every_day_option_is_accepted_witness :
  FirestoreDocs.billItem "f1" "n1"
    (snd (AppForms.handleAddBill (Num:=Z) Number (fun z => z) FirestoreDocs.storeCompletes "n1"
            (Some {| AppForms.uid := "u1"; AppForms.email := None |}) (Some "f1"%string)
            {| AppForms.billName := " Rent "; AppForms.billAmount := "1200";
               AppForms.billType := AppForms.monthlyType; AppForms.billDueDate := "";
               AppForms.billDayOfMonth := "31"; AppForms.billError := None;
               AppForms.billBusy := false |} ∅))
  = Some (Samples.mkBill "n1" "Rent" 1200 None unpaid monthly (Some 31) None false).
Proof.
  destruct (every_day_option_is_accepted (numOps:=Z_JsNumber) Number (fun z => z)
              (fun z => eq_refl) FirestoreDocs.storeCompletes "n1" "f1"
              {| AppForms.uid := "u1"; AppForms.email := None |}
              {| AppForms.billName := " Rent "; AppForms.billAmount := "1200";
                 AppForms.billType := AppForms.monthlyType; AppForms.billDueDate := "";
                 AppForms.billDayOfMonth := "31"; AppForms.billError := None;
                 AppForms.billBusy := false |} ∅ 1200 "31"
              ltac:(vm_compute; tauto) ltac:(discriminate) eq_refl eq_refl
              ltac:(vm_compute; discriminate) eq_refl)
    as (d & Hd & Hv & Hdone & _).
  destruct (Hdone eq_refl) as [_ Hitem].
  change "31"%string with (numToString 31) in Hv.
  apply numToString_inj in Hv. subst d. rewrite Hitem. reflexivity.
Defined.

Lemma handleAddBill_adds_or_keeps_witness :
  AppForms.billError
    (fst (AppForms.handleAddBill (Num:=Z) Number (fun z => z)
            (FirestoreDocs.storeRejects (FirestoreDocs.ErrorWith "permission-denied")) "n1"
            (Some {| AppForms.uid := "u1"; AppForms.email := None |}) (Some "f1"%string)
            {| AppForms.billName := "Rent"; AppForms.billAmount := "1200";
               AppForms.billType := AppForms.monthlyType; AppForms.billDueDate := "";
               AppForms.billDayOfMonth := "31"; AppForms.billError := None;
               AppForms.billBusy := false |} ∅))
  <> None.
Proof.
  destruct (proj2 (proj2 (proj2 (handleAddBill_adds_or_keeps (numOps:=Z_JsNumber) Number
              (fun z => z) (fun z => eq_refl)
              (FirestoreDocs.storeRejects (FirestoreDocs.ErrorWith "permission-denied"))
              "n1" "f1"
              {| AppForms.uid := "u1"; AppForms.email := None |}
              {| AppForms.billName := "Rent"; AppForms.billAmount := "1200";
                 AppForms.billType := AppForms.monthlyType; AppForms.billDueDate := "";
                 AppForms.billDayOfMonth := "31"; AppForms.billError := None;
                 AppForms.billBusy := false |} ∅ ltac:(discriminate)))))
    as [[Hdone _]|[_ (message & _ & Herr & _)]].
  - discriminate Hdone.
  - rewrite Herr. discriminate.
Defined.

(** ** The digits of the account *)

Section AccountDigits.

Lemma removeNonDigits_allDigits (s : string) : allDigits (removeNonDigits s) = true.
Proof.
  induction s as [|c r IH]; [reflexivity|]. cbn [removeNonDigits].
  destruct (isDigit c) eqn:E; [|exact IH]. cbn [allDigits]. rewrite E, IH. reflexivity.
Qed.

Lemma removeNonDigits_fixed (s : string) : allDigits s = true -> removeNonDigits s = s.
Proof.
  induction s as [|c r IH]; [reflexivity|]. cbn [allDigits removeNonDigits].
  rewrite andb_true_iff. intros [Hc Hr]. rewrite Hc, (IH Hr). reflexivity.
Qed.

Lemma substring_allDigits (n : nat) : forall s,
  allDigits s = true -> allDigits (substring 0 n s) = true.
Proof.
  induction n as [|n IH]; intros [|c r]; try reflexivity.
  cbn [allDigits substring]. rewrite !andb_true_iff. intros [Hc Hr].
  split; [exact Hc|apply IH; exact Hr].
Qed.

Lemma substring_length (n : nat) : forall s,
  String.length (substring 0 n s) = Nat.min n (String.length s).
Proof.
  induction n as [|n IH]; intros [|c r]; try reflexivity.
  cbn [substring String.length]. rewrite IH. reflexivity.
Qed.

Lemma substring_short (n : nat) : forall s,
  (String.length s <= n)%nat -> substring 0 n s = s.
Proof.
  induction n as [|n IH]; intros [|c r] Hl; try reflexivity.
  - cbn in Hl. lia.
  - cbn [substring]. rewrite IH; [reflexivity|]. cbn in Hl. lia.
Qed.

Lemma matchesFourDigits_iff (s : string) :
  matchesFourDigits s = true <-> allDigits s = true /\ String.length s = 4%nat.
Proof.
  destruct s as [|a [|b [|c [|d [|e r]]]]]; cbn [matchesFourDigits allDigits String.length];
    rewrite ?andb_true_iff, ?andb_true_r; try (split; [discriminate|intros [_ [=]]]).
  tauto.
Qed.

End AccountDigits.

(** X20. The account digits end up as four digits or as nothing. Whatever
    is typed, the field keeps only decimal digits, at most four of them,
    and typing what it keeps changes nothing. Whatever the field holds,
    the handler accepts it exactly when it holds no digit or four; what it
    then passes on is [null] in the first case and otherwise the four
    digits, which pass the test the bill list makes before it shows
    them. *)
Theorem account_digits_are_four_or_none (typed accountLast4 : string) :
  let kept := AddBillForm.onAccountLast4Change typed in
  allDigits kept = true
  /\ (String.length kept <= 4)%nat
  /\ AddBillForm.onAccountLast4Change kept = kept
  /\ (AppForms.accountLast4Error accountLast4 = None
      <-> String.length (removeNonDigits accountLast4) = 0%nat
          \/ String.length (removeNonDigits accountLast4) = 4%nat)
  /\ (AppForms.accountLast4Error accountLast4 <> None ->
      AppForms.accountLast4Error accountLast4
      = Some "Account Last 4 must be exactly 4 digits"%string)
  /\ (AppForms.accountLast4Error accountLast4 = None ->
      match AppForms.normalizedLast4OrNull accountLast4 with
      | Some digits =>
          digits = removeNonDigits accountLast4
          /\ AppForms.hasAccountLast4Meta (Some digits) = true
      | None => removeNonDigits accountLast4 = EmptyString
      end)
  /\ (AppForms.accountLast4Error kept = None
      <-> String.length kept = 0%nat \/ String.length kept = 4%nat).
Proof.
  cbv zeta.
  assert (Hd : allDigits (AddBillForm.onAccountLast4Change typed) = true).
  { unfold AddBillForm.onAccountLast4Change. apply substring_allDigits.
    apply removeNonDigits_allDigits. }
  assert (Hl : (String.length (AddBillForm.onAccountLast4Change typed) <= 4)%nat).
  { unfold AddBillForm.onAccountLast4Change. rewrite substring_length. lia. }
  assert (Herr : forall a,
             AppForms.accountLast4Error a = None
             <-> String.length (removeNonDigits a) = 0%nat
                 \/ String.length (removeNonDigits a) = 4%nat).
  { intros a. unfold AppForms.accountLast4Error, AppForms.normalizedLast4OrNull. cbv zeta.
    destruct (Nat.eqb_spec (String.length (removeNonDigits a)) 0) as [E0|N0].
    - split; [intros _; left; exact E0|reflexivity].
    - destruct (Nat.eqb_spec (String.length (removeNonDigits a)) 4) as [E4|N4]; cbn [negb].
      + split; [intros _; right; exact E4|reflexivity].
      + split; [discriminate|]. intros [H|H]; contradiction. }
  split; [exact Hd|]. split; [exact Hl|]. split; [|split; [apply Herr|split; [|split]]].
  - unfold AddBillForm.onAccountLast4Change at 1.
    rewrite (removeNonDigits_fixed _ Hd). apply substring_short. exact Hl.
  - unfold AppForms.accountLast4Error.
    destruct (AppForms.normalizedLast4OrNull accountLast4) as [digits|];
      [|intros H; exfalso; apply H; reflexivity].
    destruct (negb (String.length digits =? 4)%nat);
      [reflexivity|intros H; exfalso; apply H; reflexivity].
  - intros Hnone. apply Herr in Hnone.
    unfold AppForms.normalizedLast4OrNull. cbv zeta.
    destruct (Nat.eqb_spec (String.length (removeNonDigits accountLast4)) 0) as [E0|N0].
    + destruct (removeNonDigits accountLast4); [reflexivity|discriminate E0].
    + split; [reflexivity|]. cbn [AppForms.hasAccountLast4Meta].
      apply matchesFourDigits_iff. split; [apply removeNonDigits_allDigits|].
      destruct Hnone as [H|H]; [contradiction|exact H].
  - rewrite Herr, (removeNonDigits_fixed _ Hd). reflexivity.
Qed.

(** ** Selecting and deleting bills *)

Section SelectionClaims.
Context {Num : Type} {numOps : JsNumber Num}.

Import FirestoreDocs.

Lemma prune_fold (valid selected : gset string) :
  let r := set_fold (fun id '(next, changed) =>
                       if bool_decide (id ∈ valid)
                       then ({[id]} ∪ next, changed)
                       else (next, true))
                    ((∅ : gset string), false) selected in
  fst r = selected ∩ valid /\ (snd r = false -> selected ⊆ valid).
Proof.
  cbv zeta.
  apply (set_fold_ind_L
           (fun (r : gset string * bool) (X : gset string) =>
              fst r = X ∩ valid /\ (snd r = false -> X ⊆ valid))).
  - split; [cbn; symmetry; apply (left_absorb_L ∅ (∩))|intros _; apply empty_subseteq].
  - intros x X [next changed] Hx [Hn Hc]. cbn [fst snd] in *.
    destruct (bool_decide (x ∈ valid)) eqn:E; cbn [fst snd].
    + apply bool_decide_eq_true in E. split.
      * rewrite Hn. apply set_eq. intros y.
        rewrite !elem_of_union, !elem_of_intersection, elem_of_union, elem_of_singleton.
        split; [intros [->|[? ?]]; auto|intros [[->|?] ?]; auto].
      * intros Hf. specialize (Hc Hf). apply union_subseteq. split; [|exact Hc].
        apply singleton_subseteq_l. exact E.
    + apply bool_decide_eq_false in E. split; [|discriminate].
      rewrite Hn. apply set_eq. intros y.
      rewrite !elem_of_intersection, elem_of_union, elem_of_singleton.
      split; [intros [? ?]; auto|intros [[->|?] ?]; [contradiction|auto]].
Qed.

(** X21. When the bill list changes, the selection loses exactly the
    identifiers that are no longer in the list: what is left is the
    selection cut down to the identifiers of the bills, so a bill stays
    selected exactly when it was selected and is still listed; a
    selection that is all in the list is left as it is, and pruning
    twice is pruning once. *)
Theorem pruned_selection_is_within_the_list (bills : list (BillListItem Num))
    (selected : gset string) :
  AppSelection.pruneSelectedBillIds bills selected
  = selected ∩ list_to_set (map id bills)
  /\ (forall billId : string,
        billId ∈ AppSelection.pruneSelectedBillIds bills selected
        <-> billId ∈ selected /\ exists b, In b bills /\ id b = billId)
  /\ (selected ⊆ list_to_set (map id bills) ->
      AppSelection.pruneSelectedBillIds bills selected = selected)
  /\ AppSelection.pruneSelectedBillIds bills
       (AppSelection.pruneSelectedBillIds bills selected)
     = AppSelection.pruneSelectedBillIds bills selected.
Proof.
  assert (Heq : forall X : gset string,
             AppSelection.pruneSelectedBillIds bills X = X ∩ list_to_set (map id bills)).
  { intros X. unfold AppSelection.pruneSelectedBillIds.
    destruct (Nat.eqb_spec (size X) 0) as [E|_].
    - apply size_empty_inv in E. apply leibniz_equiv in E. rewrite E.
      symmetry. apply (left_absorb_L ∅ (∩)).
    - cbv zeta. pose proof (prune_fold (list_to_set (map id bills)) X) as Hf.
      cbv zeta in Hf.
      destruct (set_fold _ _ X) as [next changed]. cbn [fst snd] in Hf.
      destruct Hf as [Hn Hc]. destruct changed; [exact Hn|].
      symmetry. apply subseteq_intersection_1_L. apply Hc. reflexivity. }
  split; [apply Heq|]. split; [|split].
  - intros billId. rewrite Heq, elem_of_intersection, elem_of_list_to_set.
    split; intros [Hs Hb]; (split; [exact Hs|]).
    + apply list_elem_of_In, in_map_iff in Hb. destruct Hb as (b & Hb & Hin).
      exists b. split; assumption.
    + destruct Hb as (b & Hin & Hb). apply list_elem_of_In, in_map_iff.
      exists b. split; assumption.
  - intros Hsub. rewrite Heq. apply subseteq_intersection_1_L. exact Hsub.
  - rewrite !Heq. apply set_eq. intros y. rewrite !elem_of_intersection. tauto.
Qed.

(** The deletions that the store completes, one after the other. *)
#[local] Abbreviation deleteAccepted answer collection :=
  (fun (db : Db Num) (billId : string) =>
     match answer billId : Store with
     | storeCompletes => deleteDoc (collection ++ [billId]) db
     | storeRejects _ => db
     end).

Lemma delete_fold_other (answer : string -> Store) (collection : list string)
    (ids : list string) :
  forall (db : Db Num) (path : list string),
    (forall billId, billId ∈ ids -> answer billId = storeCompletes ->
                    path <> collection ++ [billId]) ->
    fold_left (deleteAccepted answer collection) ids db !! path = db !! path.
Proof.
  induction ids as [|i ids IH]; intros db path Hp; [reflexivity|].
  cbn [fold_left]. rewrite IH.
  - destruct (answer i) eqn:Ei; [|reflexivity].
    unfold deleteDoc. apply lookup_delete_ne. intros E. symmetry in E. revert E.
    apply Hp; [apply elem_of_cons; left; reflexivity|exact Ei].
  - intros billId Hin. apply Hp. apply elem_of_cons. right. exact Hin.
Qed.

Lemma delete_fold_gone (answer : string -> Store) (collection : list string)
    (ids : list string) :
  forall (db : Db Num) (path : list string),
    db !! path = None ->
    fold_left (deleteAccepted answer collection) ids db !! path = None.
Proof.
  induction ids as [|i ids IH]; intros db path Hnone; [exact Hnone|].
  cbn [fold_left]. apply IH. destruct (answer i); [|exact Hnone]. unfold deleteDoc.
  destruct (decide (collection ++ [i] = path)) as [<-|Hne].
  - apply lookup_delete_eq.
  - rewrite lookup_delete_ne by exact Hne. exact Hnone.
Qed.

Lemma delete_fold_selected (answer : string -> Store) (collection : list string)
    (ids : list string) :
  forall (db : Db Num) (billId : string),
    billId ∈ ids -> answer billId = storeCompletes ->
    fold_left (deleteAccepted answer collection) ids db !! (collection ++ [billId]) = None.
Proof.
  induction ids as [|i ids IH]; intros db billId Hin Ha.
  - apply elem_of_nil in Hin. contradiction.
  - cbn [fold_left]. apply elem_of_cons in Hin. destruct Hin as [<-|Hin].
    + apply delete_fold_gone. rewrite Ha. unfold deleteDoc. apply lookup_delete_eq.
    + apply IH; assumption.
Qed.

Lemma firstRejection_None (answer : string -> Store) (l : list string) :
  AppSelection.firstRejection answer l = None
  <-> forall billId, billId ∈ l -> answer billId = storeCompletes.
Proof.
  induction l as [|i l IH]; cbn [AppSelection.firstRejection].
  - split; [intros _ billId Hin; apply elem_of_nil in Hin; contradiction|reflexivity].
  - destruct (answer i) as [|reason] eqn:Ei.
    + rewrite IH. split.
      * intros H billId Hin. apply elem_of_cons in Hin. destruct Hin as [->|Hin];
          [exact Ei|apply H; exact Hin].
      * intros H billId Hin. apply H. apply elem_of_cons. right. exact Hin.
    + split; [discriminate|]. intros H.
      rewrite (H i) in Ei by (apply elem_of_cons; left; reflexivity). discriminate Ei.
Qed.

Lemma firstRejection_Some (answer : string -> Store) (l : list string) (reason : Reason) :
  AppSelection.firstRejection answer l = Some reason ->
  exists billId, billId ∈ l /\ answer billId = storeRejects reason.
Proof.
  induction l as [|i l IH]; cbn [AppSelection.firstRejection]; [discriminate|].
  destruct (answer i) as [|r] eqn:Ei.
  - intros H. destruct (IH H) as (billId & Hin & Ha). exists billId.
    split; [apply elem_of_cons; right; exact Hin|exact Ha].
  - intros [= <-]. exists i. split; [apply elem_of_cons; left; reflexivity|exact Ei].
Qed.

(** The requests whose settling is followed are those of the selection. *)
Lemma settled_selected (selected : gset string) (settled : list string) (billId : string) :
  billId ∈ List.filter (fun billId => bool_decide (billId ∈ selected)) settled
           ++ elements selected
  <-> billId ∈ selected.
Proof.
  rewrite elem_of_app, elem_of_elements. split; [|intros H; right; exact H].
  intros [H|H]; [|exact H].
  apply list_elem_of_In, filter_In in H. destruct H as [_ H].
  apply bool_decide_eq_true in H. exact H.
Qed.

(** X22. [handleDeleteSelectedBills] deletes selected bills of the family
    and nothing else, and only when asked to and confirmed. Without a
    family, with nothing selected, or when the confirmation is declined,
    the state and the database stay as they are. Otherwise, every request
    having settled, the documents of the selected bills whose deletion
    the store completed are gone and every other document, that of a bill
    whose deletion it rejected included, is as it was. When the store
    completed them all, the selection is emptied and the delete mode is
    left, with no error; when it rejected one, the selection and the mode
    stay and the error is the message of a rejected deletion ("Failed to
    delete selected bills" for a rejection that is not an error), that of
    the request settled first when this one is rejected. The confirmation
    names the count of the selected bills when they are not exactly
    one. *)
Theorem delete_removes_the_selected_bills_only (confirm : string -> bool)
    (answer : string -> Store) (settled : list string)
    (familyId : string) (bills : list (BillListItem Num)) (s : AppSelection.DeleteState)
    (db : Db Num) :
  let selected := AppSelection.selectedBillIds s in
  let message := AppSelection.confirmationMessage bills selected in
  let after :=
    AppSelection.handleDeleteSelectedBills confirm answer settled (Some familyId) bills s db in
  let failed (reason : Reason) :=
    {| AppSelection.isDeleteMode := AppSelection.isDeleteMode s;
       AppSelection.selectedBillIds := selected;
       AppSelection.deleteBusy := false;
       AppSelection.billError :=
         Some (messageOf reason "Failed to delete selected bills") |} in
  (forall fam,
      truthy fam = false \/ selected = ∅ \/ confirm message = false ->
      AppSelection.handleDeleteSelectedBills confirm answer settled fam bills s db = (s, db))
  /\ (familyId <> EmptyString -> selected <> ∅ -> confirm message = true ->
      (forall billId, billId ∈ selected -> answer billId = storeCompletes ->
                      snd after !! (billsRef familyId ++ [billId]) = None)
      /\ (forall path,
            (forall billId, billId ∈ selected -> answer billId = storeCompletes ->
                            path <> billsRef familyId ++ [billId]) ->
            snd after !! path = db !! path)
      /\ ((forall billId, billId ∈ selected -> answer billId = storeCompletes) ->
          fst after
          = {| AppSelection.isDeleteMode := false; AppSelection.selectedBillIds := ∅;
               AppSelection.deleteBusy := false; AppSelection.billError := None |})
      /\ (forall billId, billId ∈ selected -> answer billId <> storeCompletes ->
          exists rejected reason,
            rejected ∈ selected /\ answer rejected = storeRejects reason
            /\ fst after = failed reason)
      /\ (forall first later reason,
            settled = first :: later -> first ∈ selected ->
            answer first = storeRejects reason ->
            fst after = failed reason))
  /\ (size selected <> 1%nat ->
      message = ("Delete " ++ numToString (Z.of_nat (size selected)) ++ " bills?")%string).
Proof.
  cbv zeta. split; [|split].
  - intros fam H. unfold AppSelection.handleDeleteSelectedBills.
    destruct (truthy fam); cbn [negb orb]; [|reflexivity].
    destruct (Nat.eqb_spec (size (AppSelection.selectedBillIds s)) 0) as [E|N];
      [reflexivity|].
    destruct H as [H|[H|H]]; [discriminate H| |rewrite H; reflexivity].
    exfalso. apply N. rewrite H. apply size_empty.
  - intros Hfam Hsel Hc. unfold AppSelection.handleDeleteSelectedBills.
    rewrite (truthy_nonempty familyId Hfam). cbn [negb orb].
    destruct (Nat.eqb_spec (size (AppSelection.selectedBillIds s)) 0) as [E|N].
    { exfalso. apply Hsel. apply size_empty_inv in E. apply leibniz_equiv. exact E. }
    rewrite Hc. cbn [negb]. cbv zeta.
    change (default EmptyString (Some familyId)) with familyId.
    assert (Hdb :
               (forall billId, billId ∈ AppSelection.selectedBillIds s ->
                               answer billId = storeCompletes ->
                               fold_left (deleteAccepted answer (billsRef familyId))
                                 (elements (AppSelection.selectedBillIds s)) db
                                 !! (billsRef familyId ++ [billId]) = None)
               /\ (forall path,
                     (forall billId, billId ∈ AppSelection.selectedBillIds s ->
                                     answer billId = storeCompletes ->
                                     path <> billsRef familyId ++ [billId]) ->
                     fold_left (deleteAccepted answer (billsRef familyId))
                       (elements (AppSelection.selectedBillIds s)) db !! path
                     = db !! path)).
    { split.
      - intros billId Hin Ha. apply delete_fold_selected; [|exact Ha].
        apply elem_of_elements. exact Hin.
      - intros path Hp. apply delete_fold_other.
        intros billId Hin. apply Hp. apply elem_of_elements. exact Hin. }
    destruct (AppSelection.firstRejection answer _) as [reason|] eqn:Efirst.
    + destruct Hdb as [Hgone Hkept]. cbn [fst snd].
      split; [exact Hgone|]. split; [exact Hkept|]. split; [|split].
      * intros Hall. apply firstRejection_Some in Efirst.
        destruct Efirst as (billId & Hin & Ha). apply settled_selected in Hin.
        rewrite (Hall billId Hin) in Ha. discriminate Ha.
      * intros _ _ _. apply firstRejection_Some in Efirst.
        destruct Efirst as (billId & Hin & Ha). apply settled_selected in Hin.
        exists billId, reason. split; [exact Hin|]. split; [exact Ha|reflexivity].
      * intros first later reason' -> Hin Ha. cbn [List.filter] in Efirst.
        rewrite (bool_decide_eq_true_2 _ Hin) in Efirst.
        cbn [app AppSelection.firstRejection] in Efirst. rewrite Ha in Efirst.
        injection Efirst as <-. reflexivity.
    + destruct Hdb as [Hgone Hkept]. cbn [fst snd].
      split; [exact Hgone|]. split; [exact Hkept|]. split; [|split].
      * intros _. reflexivity.
      * intros billId Hin Ha. exfalso. apply Ha.
        apply (proj1 (firstRejection_None answer _) Efirst).
        apply settled_selected. exact Hin.
      * intros first later reason' -> Hin Ha. exfalso.
        rewrite (proj1 (firstRejection_None answer _) Efirst first) in Ha;
          [discriminate Ha|].
        apply settled_selected. exact Hin.
  - intros Hsize. unfold AppSelection.confirmationMessage. cbv zeta.
    change (length (elements (AppSelection.selectedBillIds s)))
      with (size (AppSelection.selectedBillIds s)).
    destruct (Nat.eqb_spec (size (AppSelection.selectedBillIds s)) 1); [contradiction|].
    reflexivity.
Qed.

End SelectionClaims.

(** ** A toggle, the store and the feed *)

Section ToggleStore.
Context {Num : Type} {numOps : JsNumber Num}.

Lemma field_union_insert (m d : gmap string (JsValue Num)) (k k' : string) (v : JsValue Num) :
  field (<[k := v]> m ∪ d) k' = if String.eqb k k' then v else field (m ∪ d) k'.
Proof.
  rewrite !field_union. destruct (String.eqb_spec k k') as [->|Hne].
  - rewrite lookup_insert_eq. reflexivity.
  - rewrite lookup_insert_ne by exact Hne. reflexivity.
Qed.

Lemma field_union_empty (d : gmap string (JsValue Num)) (k : string) :
  field (∅ ∪ d) k = field d k.
Proof. rewrite (left_id_L ∅ (∪)). reflexivity. Qed.

(** The feed's item of a document over which a toggle has written. *)
Lemma item_after_toggle (billId : string) (data : gmap string (JsValue Num))
    (nextStatus : BillStatus) (period : string) :
  let b := listenToBills_item billId data in
  listenToBills_item billId (toggleFields nextStatus (recurrence b) period ∪ data)
  = {| id := billId; name := name b; amount := amount b; dueDate := dueDate b;
       status := nextStatus; recurrence := recurrence b; dayOfMonth := dayOfMonth b;
       paidForMonth := match recurrence b, nextStatus with
                       | monthly, paid => Some period
                       | monthly, unpaid => None
                       | oneTime, _ => paidForMonth b
                       end;
       autopay := false |}.
Proof.
  cbv zeta. unfold listenToBills_item at 2 3 4 5 6 7 8 9.
  cbn [recurrence name amount dueDate dayOfMonth paidForMonth].
  destruct (isStr (field data "recurrence") "monthly") eqn:Hrec;
    unfold toggleFields, listenToBills_item;
    rewrite !field_union_insert, !field_union_empty;
    cbn [String.eqb Ascii.eqb Bool.eqb]; rewrite Hrec;
    destruct nextStatus; reflexivity.
Qed.

(** A toggle run on the in-memory store: the document is merged with the
    fields the toggle writes. *)
Lemma toggle_on_memoryStore (now : Date) (familyId billId : string)
    (nextStatus : BillStatus) (period : string) (data : gmap string (JsValue Num))
    (w : gmap string (gmap string (JsValue Num))) (keys : gset string) :
  w !! billId = Some data ->
  let b := listenToBills_item billId data in
  storeAfter (toggleBillStatus now familyId billId nextStatus (recurrence b) (Some period))
    keys w
  = <[billId := toggleFields nextStatus (recurrence b) (effectivePeriod now (Some period))
                ∪ data]> w.
Proof.
  intros Hw. cbv zeta. unfold storeAfter, toggleBillStatus, listenToBills_item.
  cbn [recurrence].
  destruct (isStr (field data "recurrence") "monthly") eqn:Hrec.
  - unfold updateDoc. cbn [run memoryStore on_updateDoc snd fst ref_bill]. rewrite Hw.
    reflexivity.
  - unfold getDoc.
    change (GetDoc (billRef familyId billId) Ret ≫= ?f)
      with (GetDoc (billRef familyId billId) (fun r => Ret r ≫= f)).
    cbn [run memoryStore on_getDoc snd fst ref_bill]. rewrite Hw.
    change (Ret (Snapshot (Some data)) ≫= ?f) with (f (Snapshot (Some data))).
    cbv beta iota. rewrite Hrec.
    unfold updateDoc. cbn [run memoryStore on_updateDoc snd fst ref_bill]. rewrite Hw.
    reflexivity.
Qed.

Lemma handleToggle_on_memoryStore (now : Date) (familyId billId : string)
    (context : option App.ToggleContext) (data : gmap string (JsValue Num))
    (w : gmap string (gmap string (JsValue Num))) (keys : gset string) :
  familyId <> EmptyString -> w !! billId = Some data ->
  let b := listenToBills_item billId data in
  let currentIsPaid :=
    match context ≫= App.currentStatus with
    | Some chipPaid => true
    | Some _ => false
    | None => BillStatus_eqb (App.getDerivedStatus (App.currentYYYYMM now) b) paid
    end in
  let period :=
    match context ≫= App.viewedYYYYMM with
    | Some p => p
    | None => App.currentYYYYMM now
    end in
  storeAfter (App.handleToggleBillStatusWithContext now (Some familyId) b context) keys w
  = <[billId := toggleFields (if currentIsPaid then unpaid else paid) (recurrence b)
                  (effectivePeriod now (Some period)) ∪ data]> w.
Proof.
  intros Hfam Hw. cbv zeta.
  pose proof (toggle_on_memoryStore now familyId billId
                (if match context ≫= App.currentStatus with
                    | Some chipPaid => true
                    | Some _ => false
                    | None => BillStatus_eqb
                                (App.getDerivedStatus (App.currentYYYYMM now)
                                   (listenToBills_item billId data)) paid
                    end then unpaid else paid)
                match context ≫= App.viewedYYYYMM with
                | Some p => p
                | None => App.currentYYYYMM now
                end data w keys Hw) as Ht.
  cbv zeta in Ht. rewrite <- Ht. clear Ht.
  unfold storeAfter, App.handleToggleBillStatusWithContext.
  rewrite (truthy_nonempty familyId Hfam). cbn [negb].
  change (default EmptyString (Some familyId)) with familyId.
  change (id (listenToBills_item billId data)) with billId.
  rewrite run_bind.
  destruct (run memoryStore (toggleBillStatus _ _ _ _ _ _) (keys, w)) as [[ok st1] l1].
  reflexivity.
Qed.

End ToggleStore.

Section ToggleRoundTrip.
Context {Num : Type} {numOps : JsNumber Num}.

Lemma insert_lookup_other (w : gmap string (gmap string (JsValue Num))) (k k' : string)
    (v : gmap string (JsValue Num)) :
  k' <> k -> <[k := v]> w !! k' = w !! k'.
Proof. intros H. apply lookup_insert_ne. congruence. Qed.

Lemma chipOf_paid (isPaid isOverdue : bool) :
  BillsCalendar.chipOf isPaid isOverdue = chipPaid <-> isPaid = true.
Proof. unfold BillsCalendar.chipOf. destruct isPaid, isOverdue; split; congruence. Qed.

Lemma strictEq_same (p : string) : strictEq (Some p) p = true.
Proof. apply String.eqb_refl. Qed.

(** X23. Pressing the button of a chip flips the chip. For a bill that
    the store holds, read by the feed and shown in a displayed month,
    running the handler of the calendar's button on the in-memory store
    merges the written fields into the bill's document and leaves every
    other document alone; the feed then reads the bill with an event on
    the same day and under the same label, whose chip is paid exactly
    when the chip pressed was not. *)
Theorem pressed_chip_flips (now view : Date) (familyId billId : string)
    (data : gmap string (JsValue Num)) (w : gmap string (gmap string (JsValue Num)))
    (keys : gset string) (e : BillsCalendar.CalendarEvent Num) :
  familyId <> EmptyString ->
  w !! billId = Some data ->
  BillsCalendar.eventOf now view (listenToBills_item billId data) = Some e ->
  let after :=
    storeAfter (App.handleToggleBillStatusWithContext now (Some familyId)
                  (listenToBills_item billId data)
                  (Some (BillsCalendar.onToggleContext view e))) keys w in
  exists data' e',
    after !! billId = Some data'
    /\ (forall other, other <> billId -> after !! other = w !! other)
    /\ BillsCalendar.eventOf now view (listenToBills_item billId data') = Some e'
    /\ BillsCalendar.dayOfMonth e' = BillsCalendar.dayOfMonth e
    /\ BillsCalendar.label e' = BillsCalendar.label e
    /\ (BillsCalendar.status e' = chipPaid <-> BillsCalendar.status e <> chipPaid).
Proof.
  intros Hfam Hw He. cbv zeta.
  rewrite (handleToggle_on_memoryStore now familyId billId _ data w keys Hfam Hw).
  cbn [mbind option_bind BillsCalendar.onToggleContext App.currentStatus App.viewedYYYYMM].
  rewrite (effectivePeriod_supplied now (getYYYYMM view))
    by (first [apply trim_noWhiteSpace, getYYYYMM_noWhiteSpace | apply getYYYYMM_nonempty]).
  eexists.
  pose proof (item_after_toggle billId data
                (if match BillsCalendar.status e with chipPaid => true | _ => false end
                 then unpaid else paid) (getYYYYMM view)) as Hitem.
  cbv zeta in Hitem. rewrite Hitem. clear Hitem.
  revert He. generalize (listenToBills_item billId data). intros b.
  unfold BillsCalendar.eventOf.
  cbn [recurrence Firestore.dayOfMonth paidForMonth dueDate Firestore.status id
       Firestore.name Firestore.amount].
  destruct (recurrence b) eqn:Hrec.
  - destruct (BillsCalendar.getRecurringDueDateInViewedMonth _ _ _) as [due|]; [|discriminate].
    intros [= <-]. eexists.
    split; [apply lookup_insert_eq|].
    split; [intros other Ho; apply insert_lookup_other; exact Ho|].
    split; [reflexivity|].
    cbn [BillsCalendar.dayOfMonth BillsCalendar.label BillsCalendar.status].
    split; [reflexivity|]. split; [reflexivity|].
    rewrite chipOf_paid.
    destruct (strictEq (paidForMonth b) (getYYYYMM view)) eqn:Hp.
    + cbn [BillsCalendar.chipOf strictEq]. split; [discriminate|]. intros H. exfalso.
      apply H. reflexivity.
    + assert (Hs : BillsCalendar.chipOf false
                     (negb false
                      && negb (BillsCalendar.isMonthInFuture (getFullYear view)
                                 (getMonth view) (getFullYear (startOfDay now))
                                 (getMonth (startOfDay now)))
                      && (getTime (startOfDay due) <? getTime (startOfDay now)))
                   <> chipPaid).
      { intros H. apply chipOf_paid in H. discriminate H. }
      destruct (BillsCalendar.chipOf false _) eqn:Hc; [contradiction| |];
        (split; [intros _; discriminate|intros _; apply strictEq_same]).
  - destruct (negb (truthy (dueDate b))); [discriminate|].
    destruct (match dueDate b with Some s => parseYYYYMMDD s | None => None end)
      as [due|]; [|discriminate].
    destruct (negb (getFullYear due =? getFullYear view)
              || negb (getMonth due =? getMonth view)); [discriminate|].
    intros [= <-]. eexists.
    split; [apply lookup_insert_eq|].
    split; [intros other Ho; apply insert_lookup_other; exact Ho|].
    split; [reflexivity|].
    cbn [BillsCalendar.dayOfMonth BillsCalendar.label BillsCalendar.status].
    split; [reflexivity|]. split; [reflexivity|].
    rewrite chipOf_paid.
    destruct (Firestore.status b); cbn [BillStatus_eqb negb andb].
    + assert (Hs : BillsCalendar.chipOf false
                     (getTime (startOfDay due) <? getTime (startOfDay now)) <> chipPaid).
      { intros H. apply chipOf_paid in H. discriminate H. }
      destruct (BillsCalendar.chipOf false _) eqn:Hc; [contradiction| |];
        (split; [intros _; discriminate|reflexivity]).
    + cbn [BillsCalendar.chipOf]. split; [discriminate|]. intros H. exfalso. apply H.
      reflexivity.
Qed.

Lemma badgeLabel_paid (now : Date) (b : BillListItem Num) :
  AppBillRow.badgeLabel now b = "PAID"%string
  <-> App.getDerivedStatus (App.currentYYYYMM now) b = paid.
Proof.
  unfold AppBillRow.badgeLabel.
  destruct (App.getDerivedStatus (App.currentYYYYMM now) b).
  - destruct (App.isOverdue now b); split; discriminate.
  - split; reflexivity.
Qed.

(** X24. Pressing the button of a row of the dashboard flips the row. For
    a bill that the store holds and the feed reads, running the handler
    with the context of the row, or with none, on the in-memory store
    leaves a document that the feed reads as derived paid for the current
    period exactly when the bill was derived unpaid, the other documents
    being left alone; and the badge of the row is PAID exactly when it
    was not. *)
Theorem pressed_row_flips (now : Date) (familyId billId : string)
    (data : gmap string (JsValue Num)) (w : gmap string (gmap string (JsValue Num)))
    (keys : gset string) (context : option App.ToggleContext) :
  familyId <> EmptyString ->
  w !! billId = Some data ->
  context = None
  \/ context = Some (AppBillRow.rowToggleContext now (listenToBills_item billId data)) ->
  let after :=
    storeAfter (App.handleToggleBillStatusWithContext now (Some familyId)
                  (listenToBills_item billId data) context) keys w in
  exists data',
    after !! billId = Some data'
    /\ (forall other, other <> billId -> after !! other = w !! other)
    /\ (App.getDerivedStatus (App.currentYYYYMM now) (listenToBills_item billId data') = paid
        <-> App.getDerivedStatus (App.currentYYYYMM now) (listenToBills_item billId data)
            = unpaid)
    /\ (AppBillRow.badgeLabel now (listenToBills_item billId data') = "PAID"%string
        <-> AppBillRow.badgeLabel now (listenToBills_item billId data) <> "PAID"%string).
Proof.
  intros Hfam Hw Hctx. cbv zeta.
  rewrite (handleToggle_on_memoryStore now familyId billId _ data w keys Hfam Hw).
  assert (Hsame : match context ≫= App.currentStatus with
                  | Some chipPaid => true
                  | Some _ => false
                  | None => BillStatus_eqb
                              (App.getDerivedStatus (App.currentYYYYMM now)
                                 (listenToBills_item billId data)) paid
                  end
                  = BillStatus_eqb
                      (App.getDerivedStatus (App.currentYYYYMM now)
                         (listenToBills_item billId data)) paid).
  { destruct Hctx as [->| ->]; [reflexivity|].
    cbn [mbind option_bind AppBillRow.rowToggleContext App.currentStatus].
    destruct (App.getDerivedStatus (App.currentYYYYMM now) (listenToBills_item billId data));
      reflexivity. }
  assert (Hper : match context ≫= App.viewedYYYYMM with
                 | Some p => p
                 | None => App.currentYYYYMM now
                 end = App.currentYYYYMM now).
  { destruct Hctx as [->| ->]; reflexivity. }
  rewrite Hsame, Hper.
  change (App.currentYYYYMM now) with (getYYYYMM now).
  rewrite (effectivePeriod_supplied now (getYYYYMM now))
    by (first [apply trim_noWhiteSpace, getYYYYMM_noWhiteSpace | apply getYYYYMM_nonempty]).
  eexists. split; [apply lookup_insert_eq|].
  split; [intros other Ho; apply insert_lookup_other; exact Ho|].
  pose proof (item_after_toggle billId data
                (if BillStatus_eqb
                      (App.getDerivedStatus (getYYYYMM now) (listenToBills_item billId data))
                      paid
                 then unpaid else paid) (getYYYYMM now)) as Hitem.
  cbv zeta in Hitem. rewrite Hitem. clear Hitem Hsame Hper.
  generalize (listenToBills_item billId data). intros b.
  assert (Hflip : App.getDerivedStatus (getYYYYMM now)
                    {| id := billId; name := name b; amount := amount b;
                       dueDate := dueDate b;
                       status := if BillStatus_eqb (App.getDerivedStatus (getYYYYMM now) b) paid
                                 then unpaid else paid;
                       recurrence := recurrence b; dayOfMonth := dayOfMonth b;
                       paidForMonth :=
                         match recurrence b,
                               (if BillStatus_eqb (App.getDerivedStatus (getYYYYMM now) b) paid
                                then unpaid else paid) with
                         | monthly, paid => Some (getYYYYMM now)
                         | monthly, unpaid => None
                         | oneTime, _ => paidForMonth b
                         end;
                       autopay := false |} = paid
                  <-> App.getDerivedStatus (getYYYYMM now) b = unpaid).
  { unfold App.getDerivedStatus. cbn [recurrence paidForMonth status].
    destruct (recurrence b).
    - destruct (strictEq (paidForMonth b) (getYYYYMM now)); cbn [BillStatus_eqb].
      + split; discriminate.
      + rewrite strictEq_same. split; reflexivity.
    - destruct (status b); cbn [BillStatus_eqb]; split; congruence. }
  split; [exact Hflip|].
  rewrite !badgeLabel_paid. change (App.currentYYYYMM now) with (getYYYYMM now).
  rewrite Hflip. destruct (App.getDerivedStatus (getYYYYMM now) b); split; congruence.
Qed.

End ToggleRoundTrip.

Lemma pressed_chip_flips_witness :
  exists data' e',
    storeAfter (App.handleToggleBillStatusWithContext Samples.april5 (Some "f1"%string)
                  (listenToBills_item "b5" AutopaySamples.phoneDoc)
                  (Some {| App.viewedYYYYMM := Some "2024-04"%string;
                           App.currentStatus := Some chipOverdue |}))
      ∅ AutopaySamples.stored !! "b5"%string = Some data'
    /\ BillsCalendar.eventOf Samples.april5 MoreSamples.april2024
         (listenToBills_item "b5" data') = Some e'
    /\ BillsCalendar.status e' = chipPaid.
Proof.
  assert (He : exists e,
             BillsCalendar.eventOf Samples.april5 MoreSamples.april2024
               (listenToBills_item "b5" AutopaySamples.phoneDoc) = Some e
             /\ BillsCalendar.status e = chipOverdue).
  { eexists. split; [vm_compute; reflexivity|reflexivity]. }
  destruct He as (e & He & Hs).
  destruct (pressed_chip_flips (numOps:=Z_JsNumber) Samples.april5 MoreSamples.april2024
              "f1" "b5" AutopaySamples.phoneDoc AutopaySamples.stored ∅ e
              ltac:(discriminate) ltac:(vm_compute; reflexivity) He)
    as (data' & e' & Hd & _ & He' & _ & _ & Hflip).
  exists data', e'.
  unfold BillsCalendar.onToggleContext in Hd. rewrite Hs in Hd.
  split; [exact Hd|]. split; [exact He'|].
  apply Hflip. rewrite Hs. discriminate.
Defined.

Lemma pressed_row_flips_witness :
  exists data',
    storeAfter (App.handleToggleBillStatusWithContext Samples.april5 (Some "f1"%string)
                  (listenToBills_item "b5" AutopaySamples.phoneDoc) None)
      ∅ AutopaySamples.stored !! "b5"%string = Some data'
    /\ App.getDerivedStatus (App.currentYYYYMM Samples.april5) (listenToBills_item "b5" data')
       = paid.
Proof.
  destruct (pressed_row_flips (numOps:=Z_JsNumber) Samples.april5 "f1" "b5"
              AutopaySamples.phoneDoc AutopaySamples.stored ∅ None
              ltac:(discriminate) ltac:(vm_compute; reflexivity) ltac:(left; reflexivity))
    as (data' & Hd & _ & Hflip & _).
  exists data'. split; [exact Hd|]. apply Hflip. vm_compute. reflexivity.
Defined.

(** ** What autopay writes, however its passes overlap *)

Section AutopaySafety.
Context {Num : Type} {numOps : JsNumber Num}.
Variable familyId : string.

#[local] Abbreviation settles := (settlesDue familyId).
#[local] Abbreviation waits := (scanning familyId).

Lemma advance_runAutopay (delivered : Date -> list (BillListItem Num) -> Prop)
    (now : Date) (bills : list (BillListItem Num)) (c : bool) :
  delivered now bills ->
  forall (rest : list (BillListItem Num)) (keys : gset string),
    incl rest bills ->
    Forall (settles delivered) (snd (fst (Effects.advance c (App.runAutopay now familyId rest) keys)))
    /\ Forall (waits delivered)
         (Effects.suspend c (snd (Effects.advance c (App.runAutopay now familyId rest) keys)))
    /\ (c = true ->
        snd (fst (Effects.advance c (App.runAutopay now familyId rest) keys)) = []).
Proof.
  intros Hd. induction rest as [|b rest IH]; intros keys Hincl.
  - cbn. split; [constructor|]. split; [constructor|reflexivity].
  - assert (Hrest : incl rest bills) by (intros x Hx; apply Hincl; right; exact Hx).
    rewrite runAutopay_step. cbn [Effects.advance].
    destruct c.
    + cbn. split; [constructor|]. split; [constructor|reflexivity].
    + destruct (autopayDue now b) eqn:Hdue; [|apply IH; exact Hrest].
      cbn [Effects.advance].
      destruct (bool_decide (autopayKey now b ∈ keys)); [apply IH; exact Hrest|].
      cbn [Effects.advance fst snd Effects.suspend].
      split; [|split; [|discriminate]].
      * constructor; [|constructor]. exists now, bills, b.
        split; [exact Hd|]. split; [apply Hincl; left; reflexivity|].
        split; [exact Hdue|reflexivity].
      * constructor; [|constructor]. cbn [Effects.waiting].
        exists now, bills, b, rest.
        split; [exact Hd|]. split; [apply Hincl; left; reflexivity|].
        split; [exact Hdue|]. split; [exact Hrest|]. intros ok. reflexivity.
Qed.

Lemma cancelAll_scanning (delivered : Date -> list (BillListItem Num) -> Prop)
    (passes : list (Effects.Pass Num)) :
  Forall (waits delivered) passes -> Forall (waits delivered) (Effects.cancelAll passes).
Proof.
  unfold Effects.cancelAll. induction 1 as [|p l Hp Hl IH]; [constructor|].
  cbn [map]. constructor; [exact Hp|exact IH].
Qed.

Lemma delete_Forall {A : Type} (P : A -> Prop) (i : nat) (l : list A) :
  Forall P l -> Forall P (delete i l).
Proof.
  intros H. revert i. induction H as [|x l Hx Hl IH]; intros [|i]; cbn; try constructor;
    auto.
Qed.

Lemma step_keeps (delivered : Date -> list (BillListItem Num) -> Prop)
    (s : Effects.Session Num) (e : Effects.Happening Num) :
  familyId <> EmptyString ->
  match e with
  | Effects.BillsChanged now bills => delivered now bills
  | Effects.WriteSettled _ _ => True
  end ->
  Forall (settles delivered) (Effects.issued s) ->
  Forall (waits delivered) (Effects.inFlight s) ->
  Forall (settles delivered) (Effects.issued (Effects.step (Some familyId) s e))
  /\ Forall (waits delivered) (Effects.inFlight (Effects.step (Some familyId) s e)).
Proof.
  intros Hfam He Hi Hf. destruct e as [now bills|i ok]; cbn [Effects.step].
  - unfold App.autopayEffect. rewrite (truthy_nonempty familyId Hfam). cbn [negb orb].
    change (default EmptyString (Some familyId)) with familyId.
    destruct (length bills =? 0)%nat.
    + cbn [Effects.advance Effects.issued Effects.inFlight Effects.suspend].
      rewrite !app_nil_r. split; [exact Hi|apply cancelAll_scanning; exact Hf].
    + destruct (advance_runAutopay delivered now bills false He bills
                  (Effects.processedKeys s) (incl_refl bills)) as (Hr & Hn & _).
      destruct (Effects.advance false (App.runAutopay now familyId bills)
                  (Effects.processedKeys s)) as [[keys requests] next].
      cbn [fst snd Effects.issued Effects.inFlight] in *.
      split; apply Forall_app; split;
        [exact Hi|exact Hr|apply cancelAll_scanning; exact Hf|exact Hn].
  - destruct (Effects.inFlight s !! i) as [[c [k|k]]|] eqn:Hp; [| |split; assumption].
    2:{ split; assumption. }
    assert (Hk : waits delivered {| Effects.cancelled := c;
                                       Effects.waiting := Effects.AwaitingWrite k |}).
    { rewrite Forall_lookup in Hf. apply (Hf i _ Hp). }
    cbn [Effects.waiting] in Hk. destruct Hk as (now & bills & b & rest & Hd & _ & _ & Hincl & Hk).
    rewrite Hk. cbn [Effects.advance].
    destruct (advance_runAutopay delivered now bills c Hd rest
                ({[autopayKey now b]} ∪ Effects.processedKeys s) Hincl) as (Hr & Hn & _).
    destruct (Effects.advance c (App.runAutopay now familyId rest)
                ({[autopayKey now b]} ∪ Effects.processedKeys s)) as [[keys requests] next].
    cbn [fst snd Effects.issued Effects.inFlight] in *.
    split; apply Forall_app; split;
      [exact Hi|exact Hr|apply delete_Forall; exact Hf|exact Hn].
Qed.

Lemma play_keeps (delivered : Date -> list (BillListItem Num) -> Prop)
    (happenings : list (Effects.Happening Num)) :
  familyId <> EmptyString ->
  (forall now bills, In (Effects.BillsChanged now bills) happenings -> delivered now bills) ->
  forall s : Effects.Session Num,
    Forall (settles delivered) (Effects.issued s) ->
    Forall (waits delivered) (Effects.inFlight s) ->
    Forall (settles delivered)
      (Effects.issued (fold_left (Effects.step (Some familyId)) happenings s)).
Proof.
  intros Hfam. induction happenings as [|e hs IH]; intros Hd s Hi Hf; [exact Hi|].
  cbn [fold_left].
  destruct (step_keeps delivered s e Hfam) as [Hi' Hf']; [|exact Hi|exact Hf|].
  - destruct e as [now bills|i ok]; [|exact I]. apply Hd. left. reflexivity.
  - apply IH; [|exact Hi'|exact Hf'].
    intros now bills Hin. apply Hd. right. exact Hin.
Qed.

(** A cancelled pass that is resumed marks its key and ends. *)
Lemma advance_cancelled (now : Date) (rest : list (BillListItem Num)) (key : string)
    (keys : gset string) :
  Effects.advance true (AddKey key (App.runAutopay now familyId rest)) keys
  = ({[key]} ∪ keys, [], None).
Proof.
  cbn [Effects.advance]. destruct rest as [|b rest]; [reflexivity|].
  rewrite runAutopay_step. reflexivity.
Qed.

Lemma suspend_length (c : bool) (next : option (Effects.Suspended Num)) :
  (length (Effects.suspend c next) <= 1)%nat
  /\ forall p, In p (Effects.suspend c next) -> Effects.cancelled p = c.
Proof.
  destruct next as [w|]; cbn [Effects.suspend length In]; (split; [lia|]).
  - intros p [<-|[]]. reflexivity.
  - intros p [].
Qed.

Lemma cancelAll_cancelled (passes : list (Effects.Pass Num)) (j : nat)
    (p : Effects.Pass Num) :
  Effects.cancelAll passes !! j = Some p -> Effects.cancelled p = true.
Proof.
  unfold Effects.cancelAll. rewrite list_lookup_fmap.
  destruct (passes !! j); [|discriminate]. intros [= <-]. reflexivity.
Qed.

Lemma newestOnlyLive_app (old : list (Effects.Pass Num)) (c : bool)
    (next : option (Effects.Suspended Num)) :
  (forall j p, old !! j = Some p -> Effects.cancelled p = true) ->
  newestOnlyLive (old ++ Effects.suspend c next).
Proof.
  intros Hold j p Hj Hlive. destruct (suspend_length c next) as [Hlen Hc].
  rewrite length_app. apply lookup_app_Some in Hj. destruct Hj as [Hj|[Hge Hj]].
  - rewrite (Hold j p Hj) in Hlive. discriminate.
  - apply lookup_lt_Some in Hj. lia.
Qed.

(** One step keeps the passes in flight in shape: each waits for a write
    to go on scanning a delivered list, and only the newest can be
    live. *)
Lemma step_keeps_flight (delivered : Date -> list (BillListItem Num) -> Prop)
    (s : Effects.Session Num) (e : Effects.Happening Num) :
  familyId <> EmptyString ->
  match e with
  | Effects.BillsChanged now bills => delivered now bills
  | Effects.WriteSettled _ _ => True
  end ->
  Forall (waits delivered) (Effects.inFlight s) ->
  newestOnlyLive (Effects.inFlight s) ->
  Forall (waits delivered) (Effects.inFlight (Effects.step (Some familyId) s e))
  /\ newestOnlyLive (Effects.inFlight (Effects.step (Some familyId) s e)).
Proof.
  intros Hfam He Hf Hlive.
  split.
  { destruct e as [now bills|i ok]; cbn [Effects.step].
    - unfold App.autopayEffect. rewrite (truthy_nonempty familyId Hfam). cbn [negb orb].
      change (default EmptyString (Some familyId)) with familyId.
      destruct (length bills =? 0)%nat.
      + cbn [Effects.advance Effects.inFlight Effects.suspend]. rewrite app_nil_r.
        apply cancelAll_scanning. exact Hf.
      + destruct (advance_runAutopay delivered now bills false He bills
                    (Effects.processedKeys s) (incl_refl bills)) as (_ & Hn & _).
        destruct (Effects.advance false (App.runAutopay now familyId bills)
                    (Effects.processedKeys s)) as [[keys requests] next].
        cbn [fst snd Effects.inFlight] in *.
        apply Forall_app. split; [apply cancelAll_scanning; exact Hf|exact Hn].
    - destruct (Effects.inFlight s !! i) as [[c [k|k]]|] eqn:Hp; [| |exact Hf].
      2:{ exact Hf. }
      assert (Hk : waits delivered {| Effects.cancelled := c;
                                      Effects.waiting := Effects.AwaitingWrite k |}).
      { rewrite Forall_lookup in Hf. apply (Hf i _ Hp). }
      unfold scanning in Hk. cbn [Effects.waiting] in Hk.
      destruct Hk as (now & bills & b & rest & Hd & _ & _ & Hincl & Hk).
      rewrite Hk. cbn [Effects.advance].
      destruct (advance_runAutopay delivered now bills c Hd rest
                  ({[autopayKey now b]} ∪ Effects.processedKeys s) Hincl) as (_ & Hn & _).
      destruct (Effects.advance c (App.runAutopay now familyId rest)
                  ({[autopayKey now b]} ∪ Effects.processedKeys s)) as [[keys requests] next].
      cbn [fst snd Effects.inFlight] in *.
      apply Forall_app. split; [apply delete_Forall; exact Hf|exact Hn]. }
  destruct e as [now bills|i ok]; cbn [Effects.step].
  - destruct (Effects.advance false _ _) as [[keys requests] next].
    cbn [Effects.inFlight]. apply newestOnlyLive_app. apply cancelAll_cancelled.
  - destruct (Effects.inFlight s !! i) as [[c [k|k]]|] eqn:Hp; [| |exact Hlive].
    2:{ exact Hlive. }
    assert (Hk : waits delivered {| Effects.cancelled := c;
                                    Effects.waiting := Effects.AwaitingWrite k |}).
    { rewrite Forall_lookup in Hf. apply (Hf i _ Hp). }
    unfold scanning in Hk. cbn [Effects.waiting] in Hk.
    destruct Hk as (now & bills & b & rest & Hd & _ & _ & Hincl & Hk).
    rewrite Hk. destruct c.
    + rewrite advance_cancelled. cbn [Effects.inFlight Effects.suspend]. rewrite app_nil_r.
      intros j p Hj Hl. rewrite length_delete by (eexists; exact Hp).
      destruct (decide (j < i)%nat) as [Hlt|Hge].
      * rewrite list_lookup_delete_lt in Hj by exact Hlt. pose proof (Hlive j p Hj Hl) as Hlast.
        apply lookup_lt_Some in Hp. lia.
      * rewrite list_lookup_delete_ge in Hj by lia. pose proof (Hlive (S j) p Hj Hl) as Hlast.
        lia.
    + pose proof (Hlive i _ Hp eq_refl) as Hlast.
      destruct (Effects.advance false _ _) as [[keys requests] next].
      cbn [Effects.inFlight]. apply newestOnlyLive_app.
      intros j p Hj. destruct (decide (j < i)%nat) as [Hlt|Hge].
      * rewrite list_lookup_delete_lt in Hj by exact Hlt.
        destruct (Effects.cancelled p) eqn:Hc; [reflexivity|].
        pose proof (Hlive j p Hj Hc). lia.
      * rewrite list_lookup_delete_ge in Hj by lia. apply lookup_lt_Some in Hj. lia.
Qed.

Lemma play_keeps_flight (delivered : Date -> list (BillListItem Num) -> Prop)
    (happenings : list (Effects.Happening Num)) :
  familyId <> EmptyString ->
  (forall now bills, In (Effects.BillsChanged now bills) happenings -> delivered now bills) ->
  forall s : Effects.Session Num,
    Forall (waits delivered) (Effects.inFlight s) ->
    newestOnlyLive (Effects.inFlight s) ->
    Forall (waits delivered)
      (Effects.inFlight (fold_left (Effects.step (Some familyId)) happenings s))
    /\ newestOnlyLive
         (Effects.inFlight (fold_left (Effects.step (Some familyId)) happenings s)).
Proof.
  intros Hfam. induction happenings as [|e hs IH]; intros Hd s Hf Hl; [split; assumption|].
  cbn [fold_left].
  destruct (step_keeps_flight delivered s e Hfam) as [Hf' Hl']; [|exact Hf|exact Hl|].
  - destruct e as [now bills|i ok]; [|exact I]. apply Hd. left. reflexivity.
  - apply IH; [|exact Hf'|exact Hl'].
    intros now bills Hin. apply Hd. right. exact Hin.
Qed.

End AutopaySafety.

Section AutopaySafetyClaim.
Context {Num : Type} {numOps : JsNumber Num}.

(** A pass of the effect for a visitor without a family ends at once. *)
Lemma play_without_family (fam : option string)
    (happenings : list (Effects.Happening Num)) :
  truthy fam = false ->
  forall s : Effects.Session Num,
    Effects.inFlight s = [] ->
    Effects.issued (fold_left (Effects.step fam) happenings s) = Effects.issued s.
Proof.
  intros Hf. induction happenings as [|e hs IH]; intros s Hs; [reflexivity|].
  cbn [fold_left]. destruct e as [now bills|i ok]; cbn [Effects.step].
  - unfold App.autopayEffect. rewrite Hf. cbn [negb orb Effects.advance]. rewrite Hs.
    rewrite IH by reflexivity. cbn [Effects.issued]. apply app_nil_r.
  - rewrite Hs. rewrite lookup_nil. apply IH. exact Hs.
Qed.

(** X25. Autopay writes nothing but settlements that are due, however
    its passes overlap. In a session of the effect, whatever lists the
    feed delivers and whenever the awaited writes settle, resolved or
    rejected, every write issued settles a bill of one of the delivered
    lists that has autopay on, is derived unpaid for the period of that
    delivery and falls due on or before its day; it is addressed to that
    bill in this family and sets the fields of a settlement only. A
    visitor without a family has nothing written. *)
Theorem autopay_writes_due_settlements_only (familyId : option string)
    (happenings : list (Effects.Happening Num)) :
  (truthy familyId = false -> Effects.issued (Effects.play familyId happenings) = [])
  /\ (forall fam, familyId = Some fam -> fam <> EmptyString ->
      forall r, In r (Effects.issued (Effects.play familyId happenings)) ->
        exists now bills b,
          In (Effects.BillsChanged now bills) happenings /\ In b bills
          /\ autopay b = true
          /\ App.getDerivedStatus (App.currentYYYYMM now) b = unpaid
          /\ (exists due, App.resolvedDueDate now b = Some due
                          /\ Day (startOfDay due) <= Day (App.todayStart now))
          /\ req_ref r = billRef fam (id b)
          /\ req_fields r
             = match recurrence b with
               | monthly =>
                   <["paidForMonth" := JStr (App.currentYYYYMM now)]>
                   (<["updatedAt" := JServerTimestamp]> ∅)
               | oneTime =>
                   <["status" := JStr "paid"]> (<["updatedAt" := JServerTimestamp]> ∅)
               end).
Proof.
  split.
  - intros Hf. unfold Effects.play.
    rewrite (play_without_family familyId happenings Hf Effects.start eq_refl). reflexivity.
  - intros fam -> Hfam r Hin.
    pose proof (play_keeps fam
                  (fun now bills => In (Effects.BillsChanged now bills) happenings)
                  happenings Hfam (fun now bills H => H) Effects.start
                  (List.Forall_nil _) (List.Forall_nil _)) as Hall.
    rewrite List.Forall_forall in Hall.
    destruct (Hall r Hin) as (now & bills & b & Hd & Hb & Hdue & ->).
    exists now, bills, b. split; [exact Hd|]. split; [exact Hb|].
    apply autopayDue_true in Hdue. destruct Hdue as (Ha & Hs & Hdue).
    split; [exact Ha|]. split; [exact Hs|]. split; [exact Hdue|].
    split; reflexivity.
Qed.

End AutopaySafetyClaim.

Section AutopayCleanup.
Context {Num : Type} {numOps : JsNumber Num}.

(** X26. A pass that a later delivery has replaced writes nothing more.
    In a session of the effect for a family, whatever has happened so
    far: of the passes in flight only the newest can be one that was not
    cancelled; and when the write awaited by a cancelled pass settles,
    resolved or rejected, that pass marks its key, issues no write and
    is no longer in flight, the other passes staying as they are. Its
    key is that of a bill, due for autopay, of one of the delivered
    lists: the bill whose settlement the pass awaited. *)
Theorem replaced_pass_writes_nothing_more (familyId : string)
    (happenings : list (Effects.Happening Num)) (i : nat) (ok : bool) :
  familyId <> EmptyString ->
  let s := Effects.play (Some familyId) happenings in
  let s' := Effects.step (Some familyId) s (Effects.WriteSettled i ok) in
  newestOnlyLive (Effects.inFlight s)
  /\ (forall p, Effects.inFlight s !! i = Some p -> Effects.cancelled p = true ->
      Effects.issued s' = Effects.issued s
      /\ Effects.inFlight s' = delete i (Effects.inFlight s)
      /\ exists now bills b rest k,
           In (Effects.BillsChanged now bills) happenings /\ In b bills
           /\ autopayDue now b = true
           /\ Effects.waiting p = Effects.AwaitingWrite k
           /\ (forall settled,
                 k settled = AddKey (autopayKey now b) (App.runAutopay now familyId rest))
           /\ Effects.processedKeys s' = {[autopayKey now b]} ∪ Effects.processedKeys s
           /\ autopayKey now b ∈ Effects.processedKeys s').
Proof.
  intros Hfam. cbv zeta.
  destruct (play_keeps_flight familyId
              (fun now bills => In (Effects.BillsChanged now bills) happenings)
              happenings Hfam (fun now bills H => H) Effects.start
              (List.Forall_nil _)) as [Hf Hl].
  { intros j p Hj. unfold Effects.start in Hj. cbn [Effects.inFlight] in Hj.
    rewrite lookup_nil in Hj. discriminate Hj. }
  fold (Effects.play (Some familyId) happenings) in Hf, Hl.
  split; [exact Hl|].
  intros [c [k|k]] Hp Hc; cbn [Effects.cancelled] in Hc; subst c.
  - rewrite Forall_lookup in Hf. pose proof (Hf i _ Hp) as Hk.
    unfold scanning in Hk. cbn [Effects.waiting] in Hk.
    destruct Hk as (now & bills & b & rest & Hd & Hb & Hdue & _ & Hk).
    cbn [Effects.step]. rewrite Hp, Hk, advance_cancelled.
    cbn [Effects.issued Effects.inFlight Effects.processedKeys Effects.suspend
         Effects.waiting].
    rewrite !app_nil_r. split; [reflexivity|]. split; [reflexivity|].
    exists now, bills, b, rest, k. split; [exact Hd|]. split; [exact Hb|].
    split; [exact Hdue|]. split; [reflexivity|]. split; [exact Hk|].
    split; [reflexivity|]. apply elem_of_union_l, elem_of_singleton. reflexivity.
  - rewrite Forall_lookup in Hf. pose proof (Hf i _ Hp) as Hk.
    unfold scanning in Hk. cbn [Effects.waiting] in Hk. contradiction.
Qed.

End AutopayCleanup.

Lemma replaced_pass_writes_nothing_more_witness :
  Effects.issued
    (Effects.play (Some "f1"%string)
       [Effects.BillsChanged Samples.april5 [Samples.phone];
        Effects.BillsChanged Samples.april5 [Samples.phone];
        Effects.WriteSettled 0 true])
  = Effects.issued
      (Effects.play (Some "f1"%string)
         [Effects.BillsChanged Samples.april5 [Samples.phone];
          Effects.BillsChanged Samples.april5 [Samples.phone]]).
Proof.
  destruct (replaced_pass_writes_nothing_more (numOps:=Z_JsNumber) "f1"
              [Effects.BillsChanged Samples.april5 [Samples.phone];
               Effects.BillsChanged Samples.april5 [Samples.phone]] 0 true
              ltac:(discriminate)) as [_ H].
  destruct (H _ eq_refl eq_refl) as [Hi _]. exact Hi.
Defined.

(** ** The sorted view, the summary and the calendar together *)

Section OverdueFirst.
Context {Num : Type} {numOps : JsNumber Num}.
Variable localeCompare : string -> string -> Z.

(** X27. The overdue bills come first in the sorted view: when "now" is
    in a month of the calendar, a bill listed before an overdue bill is
    overdue itself. *)
Theorem overdue_bills_come_first (now : Date) (bills : list (BillListItem Num)) :
  0 <= getMonth now <= 11 ->
  forall (i j : nat) (a b : BillListItem Num),
    (i < j)%nat ->
    App.sortedBills localeCompare now bills !! i = Some a ->
    App.sortedBills localeCompare now bills !! j = Some b ->
    App.isOverdue now b = true -> App.isOverdue now a = true.
Proof.
  intros Hm i j a b Hij Hi Hj Hb.
  pose proof (StronglySorted_lookup _ _ (sortedBills_keyLe localeCompare now bills)
                i j a b Hij Hi Hj) as Hk.
  unfold keyOrder, App.statusOrder in Hk.
  revert Hb. unfold App.isOverdue.
  destruct (BillStatus_eqb (App.getDerivedStatus (App.currentYYYYMM now) b) unpaid) eqn:Sb;
    cbn [negb]; [|discriminate].
  destruct (App.resolvedDueDate now b) as [db|] eqn:Rb; [|discriminate].
  rewrite (resolvedDueDate_startOfDay now b db Hm Rb). intros Hb.
  destruct (BillStatus_eqb (App.getDerivedStatus (App.currentYYYYMM now) a) unpaid) eqn:Sa;
    [|lia].
  cbn [negb]. destruct Hk as [Hk|[_ Hk]]; [lia|].
  rewrite !dueOf_resolved, Rb in Hk.
  destruct (App.resolvedDueDate now a) as [da|] eqn:Ra; [|contradiction].
  rewrite (resolvedDueDate_startOfDay now a da Hm Ra).
  cbn [ext_le] in Hk. apply Z.ltb_lt in Hb. apply Z.ltb_lt. lia.
Qed.

End OverdueFirst.

Lemma overdue_bills_come_first_witness :
  App.isOverdue Samples.march10 Samples.phone = true.
Proof.
  assert (Hs : exists l,
             App.sortedBills byteCompare Samples.march10
               [Samples.rent; MoreSamples.dentist; Samples.plumber; Samples.phone] = l
             /\ l !! 0%nat = Some Samples.phone /\ l !! 1%nat = Some Samples.plumber).
  { eexists. split; [vm_compute; reflexivity|]. split; reflexivity. }
  destruct Hs as (l & Hl & H0 & H1). rewrite <- Hl in H0, H1.
  apply (overdue_bills_come_first byteCompare Samples.march10
           [Samples.rent; MoreSamples.dentist; Samples.plumber; Samples.phone]
           ltac:(simpl; lia) 0%nat 1%nat Samples.phone Samples.plumber ltac:(lia) H0 H1).
  vm_compute. reflexivity.
Defined.

Section TotalAndCalendar.
Context {Num : Type} {numOps : JsNumber Num}.

Lemma eventOf_amount (now view : Date) (b : BillListItem Num)
    (e : BillsCalendar.CalendarEvent Num) :
  BillsCalendar.eventOf now view b = Some e -> BillsCalendar.amount e = amount b.
Proof.
  unfold BillsCalendar.eventOf. destruct (recurrence b).
  - destruct (BillsCalendar.getRecurringDueDateInViewedMonth _ _ _); [|discriminate].
    intros [= <-]. reflexivity.
  - destruct (negb (truthy (dueDate b))); [discriminate|].
    destruct (match dueDate b with Some s => parseYYYYMMDD s | None => None end);
      [|discriminate].
    destruct (_ || _); [discriminate|]. intros [= <-]. reflexivity.
Qed.

(** Due this month, for the totals, is having an event in the month the
    calendar opens on. *)
Lemma dueThisMonth_hasEvent (now : Date) (b : BillListItem Num) :
  validDate now -> ~ (0 <= getFullYear now <= 99) ->
  dueThisMonth now b = hasEvent now (BillsCalendar.initialView now) b.
Proof.
  intros Hv Hy. destruct (initialView_now now Hv Hy) as (Hi & _ & _).
  unfold hasEvent, BillsCalendar.eventOf, dueThisMonth, oneTimeDueThisMonth.
  rewrite Hi. cbn [getFullYear getMonth].
  destruct (recurrence b).
  - unfold BillsCalendar.getRecurringDueDateInViewedMonth.
    destruct (dayOfMonth b) as [n|]; [|reflexivity]. cbn [mbind option_bind].
    destruct (num_integer n); reflexivity.
  - destruct (dueDate b) as [[|c r]|]; cbn [truthy negb]; try reflexivity.
    destruct (parseYYYYMMDD (String c r)) as [dt|]; [|reflexivity].
    destruct (Z.eqb_spec (getMonth dt) (getMonth now));
      destruct (Z.eqb_spec (getFullYear dt) (getFullYear now)); reflexivity.
Qed.

Lemma sum_of_events (now view : Date) (bills : list (BillListItem Num)) :
  forall acc : Num,
    fold_left (fun acc b => num_add acc (amount b)) (List.filter (hasEvent now view) bills) acc
    = fold_left (fun acc e => num_add acc (BillsCalendar.amount e))
        (omap (BillsCalendar.eventOf now view) bills) acc.
Proof.
  induction bills as [|b bs IH]; intros acc; [reflexivity|].
  cbn [List.filter]. unfold hasEvent at 1.
  change (omap (BillsCalendar.eventOf now view) (b :: bs))
    with (match BillsCalendar.eventOf now view b with
          | Some e => e :: omap (BillsCalendar.eventOf now view) bs
          | None => omap (BillsCalendar.eventOf now view) bs
          end).
  destruct (BillsCalendar.eventOf now view b) as [e|] eqn:He; [|apply IH].
  cbn [fold_left]. rewrite (eventOf_amount now view b e He). apply IH.
Qed.

(** X28. What is due this month is what the calendar shows of this
    month: for "now" a date of the calendar in a year outside 0..99, a
    bill counts for the total due this month exactly when it has an
    event in the view the calendar opens on, and the total is the sum of
    the amounts of those events, taken in the order of the bills. *)
Theorem due_total_is_the_calendar_of_the_month (now : Date)
    (bills : list (BillListItem Num)) :
  validDate now -> ~ (0 <= getFullYear now <= 99) ->
  (forall b : BillListItem Num,
      dueThisMonth now b = true
      <-> exists e, BillsCalendar.eventOf now (BillsCalendar.initialView now) b = Some e)
  /\ App.dueThisMonthTotal (App.totals now bills)
     = sumEventAmounts
         (omap (BillsCalendar.eventOf now (BillsCalendar.initialView now)) bills).
Proof.
  intros Hv Hy. split.
  - intros b. rewrite (dueThisMonth_hasEvent now b Hv Hy). unfold hasEvent.
    destruct (BillsCalendar.eventOf now (BillsCalendar.initialView now) b) as [e|].
    + split; [intros _; exists e; reflexivity|reflexivity].
    + split; [discriminate|intros [e [=]]].
  - unfold App.totals, sumEventAmounts. rewrite totals_due_fold.
    cbn [App.dueThisMonthTotal]. rewrite fold_left_filter.
    rewrite (List.filter_ext (dueThisMonth now)
               (hasEvent now (BillsCalendar.initialView now)))
      by (intros b; apply dueThisMonth_hasEvent; assumption).
    apply sum_of_events.
Qed.

End TotalAndCalendar.

Lemma due_total_is_the_calendar_of_the_month_witness :
  App.dueThisMonthTotal
    (App.totals Samples.march10 [Samples.rent; MoreSamples.dentist; Samples.plumber])
  = 1500.
Proof.
  rewrite (proj2 (due_total_is_the_calendar_of_the_month (numOps:=Z_JsNumber) Samples.march10
                    [Samples.rent; MoreSamples.dentist; Samples.plumber]
                    ltac:(split; vm_compute; split; discriminate) ltac:(simpl; lia))).
  vm_compute. reflexivity.
Defined.

Section Navigation.

Lemma newDate_first (y m : Z) :
  newDate y m 1 = mkDate (MakeFullYear y + m / 12) (m mod 12) 1.
Proof.
  unfold newDate. apply rollDay_inside.
  pose proof (daysInMonth_bounds (MakeFullYear y + m / 12) (m mod 12)). lia.
Qed.

End Navigation.

(** X29. The arrows of the calendar undo each other. From the first day of
    a month, in a year outside -1..100, the next arrow leads to the first
    day of the month after, the previous arrow to the first day of the
    month before, and each undoes the other; the view the calendar opens
    on is a first day of a month. *)
Theorem arrows_undo_each_other (view : Date) :
  0 <= getMonth view <= 11 -> getDate view = 1 -> ~ (-1 <= getFullYear view <= 100) ->
  BillsCalendar.previousView (BillsCalendar.nextView view) = view
  /\ BillsCalendar.nextView (BillsCalendar.previousView view) = view
  /\ getDate (BillsCalendar.nextView view) = 1
  /\ getDate (BillsCalendar.previousView view) = 1
  /\ 12 * getFullYear (BillsCalendar.nextView view) + getMonth (BillsCalendar.nextView view)
     = 12 * getFullYear view + getMonth view + 1
  /\ 12 * getFullYear (BillsCalendar.previousView view)
     + getMonth (BillsCalendar.previousView view)
     = 12 * getFullYear view + getMonth view - 1
  /\ laterMonth (BillsCalendar.nextView view) view
  /\ laterMonth view (BillsCalendar.previousView view)
  /\ (forall now, getDate (BillsCalendar.initialView now) = 1).
Proof.
  intros Hm Hd Hy. destruct view as [y m d]. cbn [getFullYear getMonth getDate] in *. subst d.
  assert (Hfull : forall z, ~ (0 <= z <= 99) -> MakeFullYear z = z) by apply MakeFullYear_id.
  assert (Hnext : BillsCalendar.nextView (mkDate y m 1)
                  = mkDate (y + (m + 1) / 12) ((m + 1) mod 12) 1).
  { unfold BillsCalendar.nextView. cbn [getFullYear getMonth].
    rewrite newDate_first, Hfull by lia. reflexivity. }
  assert (Hprev : BillsCalendar.previousView (mkDate y m 1)
                  = mkDate (y + (m - 1) / 12) ((m - 1) mod 12) 1).
  { unfold BillsCalendar.previousView. cbn [getFullYear getMonth].
    rewrite newDate_first, Hfull by lia. reflexivity. }
  assert (Hn : (m = 11 /\ (m + 1) / 12 = 1 /\ (m + 1) mod 12 = 0)
               \/ (m < 11 /\ (m + 1) / 12 = 0 /\ (m + 1) mod 12 = m + 1)).
  { destruct (Z.eq_dec m 11) as [->|]; [left; repeat split; reflexivity|right].
    split; [lia|]. split; [apply Z.div_small|apply Z.mod_small]; lia. }
  assert (Hp : (m = 0 /\ (m - 1) / 12 = -1 /\ (m - 1) mod 12 = 11)
               \/ (0 < m /\ (m - 1) / 12 = 0 /\ (m - 1) mod 12 = m - 1)).
  { destruct (Z.eq_dec m 0) as [->|]; [left; repeat split; reflexivity|right].
    split; [lia|]. split; [apply Z.div_small|apply Z.mod_small]; lia. }
  rewrite Hnext, Hprev. cbn [getFullYear getMonth getDate].
  split; [|split; [|split; [reflexivity|split; [reflexivity|split; [|split; [|split; [|split]]]]]]].
  - unfold BillsCalendar.previousView. cbn [getFullYear getMonth].
    rewrite newDate_first.
    destruct Hn as [(-> & Hq & Hr)|(Hlt & Hq & Hr)]; rewrite Hq, Hr, Hfull by lia.
    + change ((0 - 1) / 12) with (-1). change ((0 - 1) mod 12) with 11. f_equal. lia.
    + replace (m + 1 - 1) with m by lia.
      rewrite Z.div_small, Z.mod_small by lia. f_equal. lia.
  - unfold BillsCalendar.nextView. cbn [getFullYear getMonth].
    rewrite newDate_first.
    destruct Hp as [(-> & Hq & Hr)|(Hlt & Hq & Hr)]; rewrite Hq, Hr, Hfull by lia.
    + change ((11 + 1) / 12) with 1. change ((11 + 1) mod 12) with 0. f_equal. lia.
    + replace (m - 1 + 1) with m by lia.
      rewrite Z.div_small, Z.mod_small by lia. f_equal. lia.
  - destruct Hn as [(-> & Hq & Hr)|(Hlt & Hq & Hr)]; rewrite Hq, Hr; lia.
  - destruct Hp as [(-> & Hq & Hr)|(Hlt & Hq & Hr)]; rewrite Hq, Hr; lia.
  - unfold laterMonth. cbn [getFullYear getMonth].
    destruct Hn as [(-> & Hq & Hr)|(Hlt & Hq & Hr)]; rewrite Hq, Hr; lia.
  - unfold laterMonth. cbn [getFullYear getMonth].
    destruct Hp as [(-> & Hq & Hr)|(Hlt & Hq & Hr)]; rewrite Hq, Hr; lia.
  - intros now. unfold BillsCalendar.initialView. rewrite newDate_first. reflexivity.
Qed.

Lemma arrows_undo_each_other_witness :
  BillsCalendar.previousView (BillsCalendar.nextView (mkDate 2024 11 1)) = mkDate 2024 11 1
  /\ BillsCalendar.nextView (mkDate 2024 11 1) = mkDate 2025 0 1.
Proof.
  destruct (arrows_undo_each_other (mkDate 2024 11 1) ltac:(simpl; lia) eq_refl
              ltac:(simpl; lia)) as (H & _).
  split; [exact H|reflexivity].
Defined.

(** ** What a toggle may ask of the store *)

Section ToggleSafety.
Context {Num : Type} {numOps : JsNumber Num}.
Context {W : Type} (h : Handler Num W).

Lemma toggleBillStatus_run (now : Date) (familyId billId : string)
    (nextStatus : BillStatus) (optRecurrence : BillRecurrence) (optYYYYMM : option string)
    (st : gset string * W) :
  let outcome :=
    run h (toggleBillStatus now familyId billId nextStatus optRecurrence optYYYYMM) st in
  let ref := billRef familyId billId in
  fst (snd (fst outcome)) = fst st
  /\ (snd outcome = []
      \/ exists recurrence,
          snd outcome
          = [updateRequest ref
               (toggleFields nextStatus recurrence (effectivePeriod now optYYYYMM))]
          /\ (optRecurrence = monthly -> recurrence = monthly))
  /\ (optRecurrence = oneTime ->
      forall w', on_getDoc h (snd st) ref = (w', GetThrew) -> snd outcome = []).
Proof.
  cbv zeta.
  assert (Hw : forall recurrence (st' : gset string * W),
             let o := run h (updateDoc (billRef familyId billId)
                               (toggleFields nextStatus recurrence
                                  (effectivePeriod now optYYYYMM))) st' in
             fst (snd (fst o)) = fst st'
             /\ snd o = [updateRequest (billRef familyId billId)
                           (toggleFields nextStatus recurrence
                              (effectivePeriod now optYYYYMM))]).
  { intros recurrence st'. cbv zeta. split; [|apply run_updateDoc].
    unfold updateDoc. cbn [run].
    destruct (on_updateDoc h (snd st') _ _) as [w' ok]. reflexivity. }
  unfold toggleBillStatus. destruct optRecurrence.
  - destruct (Hw monthly st) as [Hk Hl]. split; [exact Hk|]. split; [|discriminate].
    right. exists monthly. split; [exact Hl|reflexivity].
  - match goal with
    | |- context [run h (getDoc ?ref ≫= ?k) st] =>
        change (run h (getDoc ref ≫= k) st)
          with (let '(w1, reply) := on_getDoc h (snd st) ref in run h (k reply) (fst st, w1))
    end.
    destruct (on_getDoc h (snd st) (billRef familyId billId)) as [w1 reply] eqn:Hget.
    destruct reply as [|[data|]].
    + cbn [run fst snd]. split; [reflexivity|]. split; [left; reflexivity|].
      intros _ w' _. reflexivity.
    + cbn [fst snd] in Hw |- *. destruct (isStr (field data "recurrence") "monthly").
      * destruct (Hw monthly (fst st, w1)) as [Hk Hl]. split; [exact Hk|].
        split; [right; exists monthly; split; [exact Hl|reflexivity]|].
        intros _ w' [= _ ?].
      * destruct (Hw oneTime (fst st, w1)) as [Hk Hl]. split; [exact Hk|].
        split; [right; exists oneTime; split; [exact Hl|discriminate]|].
        intros _ w' [= _ ?].
    + destruct (Hw oneTime (fst st, w1)) as [Hk Hl]. split; [exact Hk|].
      split; [right; exists oneTime; split; [exact Hl|discriminate]|].
      intros _ w' [= _ ?].
Qed.

(** X30. Whatever the store answers, a toggle from the dashboard or the
    calendar asks it for one write at most, to the document of the bill
    pressed, with the fields of a toggle; it asks for nothing when there
    is no family, and for no write when the document of a bill listed as
    one-time cannot be read. The keys of the autopay effect are left as
    they are. *)
Theorem toggle_asks_one_write_at_most (now : Date) (familyId : option string)
    (bill : BillListItem Num) (context : option App.ToggleContext)
    (st : gset string * W) :
  let outcome := run h (App.handleToggleBillStatusWithContext now familyId bill context) st in
  let ref := billRef (default EmptyString familyId) (id bill) in
  fst (snd (fst outcome)) = fst st
  /\ (truthy familyId = false -> outcome = (tt, st, []))
  /\ (snd outcome = []
      \/ exists nextStatus recurrence period,
          snd outcome = [updateRequest ref (toggleFields nextStatus recurrence period)]
          /\ (Firestore.recurrence bill = monthly -> recurrence = monthly))
  /\ (Firestore.recurrence bill = oneTime ->
      forall w', on_getDoc h (snd st) ref = (w', GetThrew) -> snd outcome = []).
Proof.
  cbv zeta. unfold App.handleToggleBillStatusWithContext.
  destruct (truthy familyId) eqn:Hf; cbn [negb].
  2:{ cbn [run fst snd]. split; [reflexivity|]. split; [destruct st; reflexivity|].
      split; [left; reflexivity|]. intros _ w' _. reflexivity. }
  match goal with
  | |- context [toggleBillStatus now ?f ?b ?n ?r ?o] =>
      pose proof (toggleBillStatus_run now f b n r o st) as Ht
  end.
  cbv zeta in Ht. rewrite run_bind. revert Ht.
  destruct (run h (toggleBillStatus _ _ _ _ _ _) st) as [[ok st1] l1].
  cbn [run fst snd]. intros Ht.
  rewrite app_nil_r. destruct Ht as (Hk & Hl & Hr).
  split; [exact Hk|]. split; [discriminate|]. split; [|exact Hr].
  destruct Hl as [Hl|(recurrence & Hl & Hm)]; [left; exact Hl|right].
  eexists _, recurrence, _. split; [exact Hl|exact Hm].
Qed.

End ToggleSafety.
